(** * The Canadian rate-sheet parser of [fedex_rate_tool.py]

    A shallow embedding of the rate-reconstruction engine (zone index,
    zone resolver, service locator, flat-rate and freight builders) and
    the properties the specification states about it.

    Python values are modelled as follows.
    - [str] is a list of Unicode code points ([pystr]).
    - [int] is [Z].
    - [decimal.Decimal] is [Decimal], with the arithmetic of the default
      context (28 significant digits, [ROUND_HALF_EVEN], trapped
      [InvalidOperation] and [Overflow]).
    - a [dict] whose iteration order is observed is an insertion-ordered
      association list ([odict]); the other dictionaries are [gmap]s.
    - a raised exception is the [Raise] case of [Res]. *)

From Stdlib Require Import ZArith NArith Lia List String Ascii Sorting.Sorted Sorting.Permutation.
From stdpp Require Import base option list gmap.

Local Open Scope Z_scope.

(** ** Exceptions *)

Inductive exn : Type :=
| IndexError
| ValueError
| InvalidOperation
| Overflow.

Inductive Res (A : Type) : Type :=
| Ok (a : A)
| Raise (e : exn).
Arguments Ok {A} a.
Arguments Raise {A} e.

Global Instance Res_ret : MRet Res := λ A a, Ok a.
Global Instance Res_bind : MBind Res := λ A B k m,
  match m with
  | Ok a => k a
  | Raise e => Raise e
  end.

(** The value of a result, [d] when it was raised. *)
Definition value_or {A : Type} (d : A) (r : Res A) : A :=
  match r with
  | Ok a => a
  | Raise _ => d
  end.

(** The result is a value: nothing was raised. *)
Definition returns {A : Type} (r : Res A) : bool :=
  match r with
  | Ok _ => true
  | Raise _ => false
  end.

(** A loop body that may raise, run over a list from left to right. *)
Fixpoint foldM {A S : Type} (f : S → A → Res S) (l : list A) (s : S) : Res S :=
  match l with
  | [] => Ok s
  | a :: l' => s' ← f s a; foldM f l' s'
  end.

(** ** Strings *)

Module Str.

(** A Python [str]: the sequence of its code points. *)
Definition pystr : Type := list N.

(** The code points of an ASCII literal. *)
Definition py (s : string) : pystr := map N_of_ascii (list_ascii_of_string s).

Definition in_range (lo hi c : N) : bool := ((lo <=? c) && (c <=? hi))%N.

(** [str.isspace] on one code point; the same set delimits [str.split()],
    is removed by [str.strip()] and is matched by [\s]. *)
Definition isspace (c : N) : bool :=
  in_range 9 13 c || in_range 28 32 c || (c =? 133)%N || (c =? 160)%N
  || (c =? 5760)%N || in_range 8192 8202 c || (c =? 8232)%N || (c =? 8233)%N
  || (c =? 8239)%N || (c =? 8287)%N || (c =? 12288)%N.

Definition eqb (a b : pystr) : bool := bool_decide (a = b).

(** [s.split(sep)] for a one-character separator: never empty. *)
Fixpoint split_on (sep : N) (s : pystr) : list pystr :=
  match s with
  | [] => [[]]
  | c :: s' =>
      if (c =? sep)%N then [] :: split_on sep s'
      else match split_on sep s' with
           | [] => [[c]]
           | w :: ws => (c :: w) :: ws
           end
  end.

Definition newline : N := 10%N.
(** [s.split('\n')]. *)
Definition split_lines (s : pystr) : list pystr := split_on newline s.

(** The text made of the given ASCII lines. *)
Fixpoint text_of_lines (ls : list string) : pystr :=
  match ls with
  | [] => []
  | [l] => py l
  | l :: ls' => py l ++ newline :: text_of_lines ls'
  end.

(** [s.split()]: the maximal runs of non-space characters. [cur] holds the
    run being read, last character first. *)
Fixpoint split_from (cur : pystr) (s : pystr) : list pystr :=
  match s with
  | [] => match cur with [] => [] | _ => [rev cur] end
  | c :: s' =>
      if isspace c then
        match cur with
        | [] => split_from [] s'
        | _ => rev cur :: split_from [] s'
        end
      else split_from (c :: cur) s'
  end.
Definition split (s : pystr) : list pystr := split_from [] s.

Fixpoint lstrip (s : pystr) : pystr :=
  match s with
  | c :: s' => if isspace c then lstrip s' else s
  | [] => []
  end.
Definition strip (s : pystr) : pystr := rev (lstrip (rev (lstrip s))).

(** [s.replace(c, '')] for a one-character [c]. *)
Definition remove (c : N) (s : pystr) : pystr :=
  List.filter (λ x, negb (x =? c)%N) s.

Fixpoint startswith (p s : pystr) : bool :=
  match p, s with
  | [], _ => true
  | _ :: _, [] => false
  | a :: p', b :: s' => (a =? b)%N && startswith p' s'
  end.

(** [p in s]. *)
Fixpoint contains (p s : pystr) : bool :=
  startswith p s ||
  match s with
  | [] => false
  | _ :: s' => contains p s'
  end.

(** The order of [str]: lexicographic on code points. *)
Fixpoint compare (a b : pystr) : comparison :=
  match a, b with
  | [], [] => Eq
  | [], _ :: _ => Lt
  | _ :: _, [] => Gt
  | x :: a', y :: b' =>
      match (x ?= y)%N with
      | Eq => compare a' b'
      | c => c
      end
  end.
(** [a <= b]. *)
Definition leb (a b : pystr) : bool :=
  match compare a b with Gt => false | _ => true end.

(** The first code point of each run of Unicode decimal digits (category
    Nd, Unicode 14); a run holds the digits 0 to 9 in order. *)
Definition digit_runs : list N :=
  [48; 1632; 1776; 1984; 2406; 2534; 2662; 2790; 2918; 3046; 3174; 3302;
   3430; 3558; 3664; 3792; 3872; 4160; 4240; 6112; 6160; 6470; 6608; 6784;
   6800; 6992; 7088; 7232; 7248; 42528; 43216; 43264; 43472; 43504; 43600;
   44016; 65296; 66720; 68912; 69734; 69872; 69942; 70096; 70384; 70736;
   70864; 71248; 71360; 71472; 71904; 72016; 72784; 73040; 73120; 92768;
   92864; 93008; 120782; 120792; 120802; 120812; 120822; 123200; 123632;
   125264; 130032]%N.

(** The value of a decimal digit ([\d], [int], [Decimal]). *)
Definition digit_value (c : N) : option Z :=
  match List.find (λ st, in_range st (st + 9) c) digit_runs with
  | Some st => Some (Z.of_N (c - st))
  | None => None
  end.
Definition isdigit (c : N) : bool :=
  match digit_value c with Some _ => true | None => false end.

Definition isupper_ascii (c : N) : bool := in_range 65 90 c.

End Str.
Export Str.

(** ** [int(str)] *)

Module PyInt.

Definition underscore : N := 95%N.
Definition plus_sign : N := 43%N.
Definition minus_sign : N := 45%N.

(** Digits with single underscores between them; [acc] is the value read
    so far, [n] the number of digits read, [after_digit] tells whether the
    previous character was a digit. *)
Fixpoint digits_from (acc : Z) (n : nat) (after_digit : bool) (s : pystr)
  : option (Z * nat) :=
  match s with
  | [] => if after_digit then Some (acc, n) else None
  | c :: s' =>
      match digit_value c with
      | Some d => digits_from (10 * acc + d) (S n) true s'
      | None =>
          if (c =? underscore)%N && after_digit
          then digits_from acc n false s'
          else None
      end
  end.

(** The default of [sys.get_int_max_str_digits()]. *)
Definition int_max_str_digits : nat := 4300.

Definition magnitude (s : pystr) : option Z :=
  match digits_from 0 0 false s with
  | Some (v, n) => if (n <=? int_max_str_digits)%nat then Some v else None
  | None => None
  end.

(** [int(s)]; [None] stands for [ValueError]. *)
Definition int (s : pystr) : option Z :=
  match strip s with
  | c :: s' =>
      if (c =? plus_sign)%N then magnitude s'
      else if (c =? minus_sign)%N then Z.opp <$> magnitude s'
      else magnitude (c :: s')
  | [] => None
  end.

End PyInt.

(** ** [decimal.Decimal] in the default context *)

Module Dec.

(** A finite number is [(-1)^neg * coeff * 10^exp]. The sign and the
    diagnostic digits of a NaN are not kept. *)
Inductive Decimal : Type :=
| DFin (neg : bool) (coeff : N) (exp : Z)
| DInf (neg : bool)
| DNaN
| DsNaN.

Global Instance Decimal_eq_dec : EqDecision Decimal.
Proof. solve_decision. Defined.

Definition prec : Z := 28.
Definition Emax : Z := 999999.
Definition Emin : Z := -999999.
Definition Etiny : Z := Emin - prec + 1.
Definition Etop : Z := Emax - prec + 1.

Definition pow10 (k : Z) : N := (10 ^ Z.to_N k)%N.

(** The least [k >= from] with [c < 10^k], looked for among [fuel]
    candidates. *)
Fixpoint ndigits_from (fuel : nat) (from : Z) (c : N) : Z :=
  match fuel with
  | O => from
  | S fuel' => if (c <? pow10 from)%N then from else ndigits_from fuel' (from + 1) c
  end.

(** [len(d._int)]: the number of digits of the coefficient, 1 for zero. *)
Definition ndigits (c : N) : Z := ndigits_from (N.to_nat (N.size c)) 1 c.

(** [d.adjusted()]. *)
Definition adjusted (c : N) (e : Z) : Z := ndigits c + e - 1.

(** Dropping the [k > 0] low digits of [c], ties away from zero
    ([ROUND_HALF_UP]) or to the even neighbour ([ROUND_HALF_EVEN]). *)
Definition round_half_up (c : N) (k : Z) : N :=
  let p := pow10 k in
  let q := (c / p)%N in
  let r := (c mod p)%N in
  if (p <=? 2 * r)%N then (q + 1)%N else q.

Definition round_half_even (c : N) (k : Z) : N :=
  let p := pow10 k in
  let q := (c / p)%N in
  let r := (c mod p)%N in
  if (p <? 2 * r)%N || ((p =? 2 * r)%N && N.odd q) then (q + 1)%N else q.

(** [Decimal._fix]: bring a finite result into the context. *)
Definition fix_ (neg : bool) (c : N) (e : Z) : Res Decimal :=
  if (c =? 0)%N then Ok (DFin neg 0 (Z.min (Z.max e Etiny) Emax))
  else
    let exp_min := ndigits c + e - prec in
    if Etop <? exp_min then Raise Overflow
    else
      let exp_min := Z.max exp_min Etiny in
      if e <? exp_min then
        let c' := round_half_even c (exp_min - e) in
        if prec <? ndigits c' then
          if Etop <? exp_min + 1 then Raise Overflow
          else Ok (DFin neg (c' / 10)%N (exp_min + 1))
        else Ok (DFin neg c' exp_min)
      else Ok (DFin neg c e).

(** [a * b]. *)
Definition mul (a b : Decimal) : Res Decimal :=
  match a, b with
  | DsNaN, _ | _, DsNaN => Raise InvalidOperation
  | DNaN, _ | _, DNaN => Ok DNaN
  | DInf s1, DInf s2 => Ok (DInf (xorb s1 s2))
  | DInf s1, DFin s2 c _ | DFin s1 c _, DInf s2 =>
      if (c =? 0)%N then Raise InvalidOperation else Ok (DInf (xorb s1 s2))
  | DFin s1 c1 e1, DFin s2 c2 e2 => fix_ (xorb s1 s2) (c1 * c2)%N (e1 + e2)
  end.

(** [Decimal._rescale(exp, ROUND_HALF_UP)] on a coefficient. *)
Definition rescale (c : N) (e target : Z) : N :=
  if target <=? e then (c * pow10 (e - target))%N
  else round_half_up c (target - e).

(** [d.quantize(q, rounding=ROUND_HALF_UP)] for a finite [q] of exponent
    [target], [Etiny <= target <= Emax]. *)
Definition quantize (d : Decimal) (target : Z) : Res Decimal :=
  match d with
  | DsNaN => Raise InvalidOperation
  | DNaN => Ok DNaN
  | DInf _ => Raise InvalidOperation
  | DFin neg c e =>
      if (c =? 0)%N then fix_ neg 0 target
      else if Emax <? adjusted c e then Raise InvalidOperation
      else if prec <? adjusted c e - target + 1 then Raise InvalidOperation
      else
        let c' := rescale c e target in
        if Emax <? adjusted c' target then Raise InvalidOperation
        else if prec <? ndigits c' then Raise InvalidOperation
        else fix_ neg c' target
  end.

(** The exponent of [Decimal('0.01')]. *)
Definition cents_exp : Z := -2.

(** [Decimal(n)] for an [int]. *)
Definition of_int (n : Z) : Decimal := DFin (n <? 0) (Z.abs_N n) 0.

(** The sign of the comparison of two numbers (not NaN). A finite number
    is compared through its integer multiple of [10^m], [m] the smaller
    exponent. *)
Definition signed (neg : bool) (c : N) : Z :=
  if neg then - Z.of_N c else Z.of_N c.

Definition compare (a b : Decimal) : comparison :=
  match a, b with
  | DFin s1 c1 e1, DFin s2 c2 e2 =>
      let m := Z.min e1 e2 in
      Z.compare (signed s1 (c1 * pow10 (e1 - m))) (signed s2 (c2 * pow10 (e2 - m)))
  | DInf s1, DInf s2 => Z.compare (signed s1 1) (signed s2 1)
  | DInf s1, _ => if s1 then Lt else Gt
  | _, DInf s2 => if s2 then Gt else Lt
  | _, _ => Eq
  end.

Definition is_nan (d : Decimal) : bool :=
  match d with DNaN | DsNaN => true | _ => false end.

(** [a > b]: an ordering comparison with a NaN raises. *)
Definition gt (a b : Decimal) : Res bool :=
  if is_nan a || is_nan b then Raise InvalidOperation
  else Ok (match compare a b with Gt => true | _ => false end).

(** The builtin [max(a, b)]: [b] replaces [a] only when [b > a]. *)
Definition max (a b : Decimal) : Res Decimal :=
  gt b a ≫= λ g : bool, Ok (if g then b else a).

(** *** [Decimal(str)] *)

(** A maximal run of decimal digits: its value on top of [acc], the number
    of digits read on top of [n], and the rest of the string. *)
Fixpoint read_digits (acc : N) (n : Z) (s : pystr) : N * Z * pystr :=
  match s with
  | c :: s' =>
      match digit_value c with
      | Some d => read_digits (10 * acc + Z.to_N d)%N (n + 1) s'
      | None => (acc, n, s)
      end
  | [] => (acc, n, [])
  end.

Definition read_sign (s : pystr) : bool * pystr :=
  match s with
  | c :: s' =>
      if (c =? PyInt.minus_sign)%N then (true, s')
      else if (c =? PyInt.plus_sign)%N then (false, s')
      else (false, s)
  | [] => (false, [])
  end.

(** ASCII letters compared without case. *)
Definition fold_ascii (c : N) : N :=
  if isupper_ascii c then (c + 32)%N else c.
Definition ieq (word s : pystr) : bool :=
  Str.eqb word (map fold_ascii s).
Definition istartswith (word s : pystr) : bool :=
  startswith word (map fold_ascii s).

Definition all_digits (s : pystr) : bool := forallb isdigit s.

(** The exponents the exact constructor accepts (64-bit interpreter). *)
Definition max_emax : Z := 999999999999999999.
Definition min_etiny : Z := -1999999999999999997.

Definition finish (neg : bool) (c : N) (e : Z) : option Decimal :=
  if (min_etiny <=? e) && (adjusted c e <=? max_emax)
  then Some (DFin neg c e) else None.

Definition dot : N := 46%N.
Definition is_exp_mark (c : N) : bool := (c =? 101)%N || (c =? 69)%N.

(** [Decimal(s)]; [None] stands for [InvalidOperation]. Surrounding
    white space is dropped, every underscore is ignored. *)
Definition of_str (s : pystr) : option Decimal :=
  let s := remove PyInt.underscore (strip s) in
  let '(neg, s) := read_sign s in
  if ieq (py "inf") s || ieq (py "infinity") s then Some (DInf neg)
  else if istartswith (py "nan") s then
    if all_digits (drop 3 s) then Some DNaN else None
  else if istartswith (py "snan") s then
    if all_digits (drop 4 s) then Some DsNaN else None
  else
    let '(ip, ni, s1) := read_digits 0 0 s in
    let '(c, nf, s2) :=
      match s1 with
      | d :: t => if (d =? dot)%N then read_digits ip 0 t else (ip, 0, s1)
      | [] => (ip, 0, s1)
      end in
    if ni + nf =? 0 then None
    else
      match s2 with
      | [] => finish neg c (- nf)
      | m :: t =>
          if is_exp_mark m then
            let '(eneg, t) := read_sign t in
            let '(ev, ne, rest) := read_digits 0 0 t in
            match rest with
            | [] =>
                if ne =? 0 then None
                else finish neg c (signed eneg ev - nf)
            | _ :: _ => None
            end
          else None
      end.

End Dec.
Export Dec(Decimal, DFin, DInf, DNaN, DsNaN).

(** ** Case mapping

    [str.lower] and [str.upper] follow the Unicode character database of
    the interpreter. The parser is parametric in them; [ascii_case] is
    what they compute on ASCII text. *)

Class CaseMapping : Type := {
  lower : pystr → pystr;
  upper : pystr → pystr
}.

Definition ascii_lower (s : pystr) : pystr :=
  map (λ c, if in_range 65 90 c then (c + 32)%N else c) s.
Definition ascii_upper (s : pystr) : pystr :=
  map (λ c, if in_range 97 122 c then (c - 32)%N else c) s.
Definition ascii_case : CaseMapping :=
  {| lower := ascii_lower; upper := ascii_upper |}.

(** ** Documents *)

(** A cell of an extracted table: a string or [None]. *)
Definition cell : Type := option pystr.
Definition row : Type := list cell.
Definition raw_table : Type := list row.

(** What [pdfplumber] gives for a page. *)
Record Page : Type := {
  extract_text : option pystr;
  extract_tables : list raw_table
}.

(** [pdf.pages]. *)
Abbreviation Pdf := (list Page).

(** [page.extract_text() or ""]. *)
Definition text_of (page : Page) : pystr := default [] (extract_text page).

(** [str(c) if c else ''] for a cell. *)
Definition cell_text (c : cell) : pystr := default [] c.

(** [l[i]] for a list and an [int]. *)
Definition index {A : Type} (l : list A) (i : Z) : Res A :=
  let n := Z.of_nat (length l) in
  let j := if i <? 0 then i + n else i in
  if j <? 0 then Raise IndexError
  else match l !! Z.to_nat j with
       | Some a => Ok a
       | None => Raise IndexError
       end.

(** ** Insertion-ordered dictionaries *)

Section odict.
Context {K V : Type} `{EqDecision K}.

Definition odict : Type := list (K * V).

Fixpoint odict_get (k : K) (d : odict) : option V :=
  match d with
  | [] => None
  | (k', v) :: d' => if decide (k = k') then Some v else odict_get k d'
  end.

(** [d[k] = v]: a known key keeps its place. *)
Fixpoint odict_set (k : K) (v : V) (d : odict) : odict :=
  match d with
  | [] => [(k, v)]
  | (k', v') :: d' =>
      if decide (k = k') then (k', v) :: d' else (k', v') :: odict_set k v d'
  end.
End odict.
Arguments odict : clear implicits.

(** ** Service locator *)

Definition ZONE_CODES : list pystr :=
  map py ["DA"; "DB"; "DC"; "DD"; "DE"; "DF"; "DG"; "DH"; "DI"; "DJ";
          "DK"; "DL"; "DM"; "DN"; "DO"; "DP"; "DQ"; "DR"; "DS"; "DT";
          "DU"; "DV"; "DW"; "DX"; "DY"; "DZ"]%string.

Record ServiceDef : Type := {
  sd_name : pystr;
  sd_search : pystr;
  sd_page_count : Z;
  sd_is_freight : bool
}.

Definition SERVICE_DEFINITIONS : list ServiceDef := [
  {| sd_name := py "FedEx First Overnight"; sd_search := py "FedEx First Overnight";
     sd_page_count := 4; sd_is_freight := false |};
  {| sd_name := py "FedEx Priority Overnight"; sd_search := py "FedEx Priority Overnight";
     sd_page_count := 4; sd_is_freight := false |};
  {| sd_name := py "FedEx Standard Overnight"; sd_search := py "FedEx Standard Overnight";
     sd_page_count := 4; sd_is_freight := false |};
  {| sd_name := py "FedEx 2Day"; sd_search := py "FedEx 2Day";
     sd_page_count := 4; sd_is_freight := false |};
  {| sd_name := py "FedEx Economy"; sd_search := py "FedEx Economy";
     sd_page_count := 4; sd_is_freight := false |};
  {| sd_name := py "FedEx 1Day Freight"; sd_search := py "FedEx 1Day";
     sd_page_count := 2; sd_is_freight := true |}
].

(** An entry of the list [detect_service_pages] returns. *)
Record Service : Type := {
  name : pystr;
  pages : Z * Z;
  is_freight : bool
}.

(** The title test on one page: one of the first five lines holds both
    the search term and ["Rates"]. *)
Definition title_found (search_term : pystr) (page : Page) : bool :=
  existsb (λ line, contains search_term line && contains (py "Rates") line)
          (take 5 (split_lines (text_of page))).

(** Page [i] lies in the span of a service already in the list. *)
Definition already_assigned (services : list Service) (i : Z) : bool :=
  existsb (λ s, (fst (pages s) <=? i) && (i <=? snd (pages s))) services.

(** The loop over [enumerate(pdf.pages)], from page [i] on. *)
Fixpoint find_start_page (search_term : pystr) (services : list Service)
    (i : Z) (rest : list Page) : option Z :=
  match rest with
  | [] => None
  | page :: rest' =>
      if title_found search_term page && negb (already_assigned services i)
      then Some i
      else find_start_page search_term services (i + 1) rest'
  end.

(** One turn of the loop over [SERVICE_DEFINITIONS]. *)
Definition detect_service (pdf : Pdf) (services : list Service)
    (service_def : ServiceDef) : list Service :=
  match find_start_page (sd_search service_def) services 0 pdf with
  | Some start_page =>
      let end_page := start_page + sd_page_count service_def - 1 in
      services ++ [{| name := sd_name service_def;
                      pages := (start_page, end_page);
                      is_freight := sd_is_freight service_def |}]
  | None => services
  end.

Definition detect_services (defs : list ServiceDef) (pdf : Pdf) : list Service :=
  fold_left (detect_service pdf) defs [].

Definition detect_service_pages (pdf : Pdf) : list Service :=
  detect_services SERVICE_DEFINITIONS pdf.

(** ** Zone index *)

Fixpoint find_zone_index_from (i : Z) (rest : list Page)
    (postal_code_page zone_matrix_page : option Z) : option Z * option Z :=
  match rest with
  | [] => (postal_code_page, zone_matrix_page)
  | page :: rest' =>
      let text := text_of page in
      let postal_code_page :=
        if contains (py "Postal Code Zone Index") text
           && bool_decide (postal_code_page = None)
        then Some i else postal_code_page in
      let zone_matrix_page :=
        if contains (py "Intra-Canada Zone Index") text
           && bool_decide (zone_matrix_page = None)
        then Some i else zone_matrix_page in
      find_zone_index_from (i + 1) rest' postal_code_page zone_matrix_page
  end.

Definition find_zone_index_pages (pdf : Pdf) : option Z * option Z :=
  find_zone_index_from 0 pdf None None.

(** A postal range, [(start_postal, end_postal)]. *)
Definition postal_range : Type := pystr * pystr.
Definition PostalZoneMap : Type := odict postal_range pystr.

(** [[—–-]]. *)
Definition is_dash (c : N) : bool :=
  (c =? 8212)%N || (c =? 8211)%N || (c =? 45)%N.

(** [[A-Z]\d[A-Z]] at the head of [s]: the three characters and the rest. *)
Definition postal3 (s : pystr) : option (pystr * pystr) :=
  match s with
  | a :: b :: c :: rest =>
      if isupper_ascii a && isdigit b && isupper_ascii c
      then Some ([a; b; c], rest) else None
  | _ => None
  end.

(** [D[A-Z]] at the head of [s]. *)
Definition zone2 (s : pystr) : option (pystr * pystr) :=
  match s with
  | d :: z :: rest =>
      if (d =? 68)%N && isupper_ascii z then Some ([d; z], rest) else None
  | _ => None
  end.

(** [range_pattern] matched at the head of [s]: the three groups and the
    length of the match. No white space is a dash or a letter, so the
    greedy [\s*] and [\s+] never give a character back. *)
Definition range_pattern_match (s : pystr)
  : option (pystr * pystr * pystr * nat) :=
  '(start_postal, s1) ← postal3 s;
  match lstrip s1 with
  | d :: s2 =>
      if is_dash d then
        '(end_postal, s3) ← postal3 (lstrip s2);
        match s3 with
        | w :: _ =>
            if isspace w then
              '(zone_code, s4) ← zone2 (lstrip s3);
              Some (start_postal, end_postal, zone_code,
                    (length s - length s4)%nat)
            else None
        | [] => None
        end
      else None
  | [] => None
  end.

(** [range_pattern.finditer(text)] followed by the assignments of the
    first loop; [skip] counts the characters still covered by the last
    match. *)
Fixpoint range_pass (skip : nat) (text : pystr) (postal_zone_map : PostalZoneMap)
  : PostalZoneMap :=
  match text with
  | [] => postal_zone_map
  | _ :: text' =>
      match skip with
      | S skip' => range_pass skip' text' postal_zone_map
      | O =>
          match range_pattern_match text with
          | Some (start_postal, end_postal, zone_code, n) =>
              range_pass (n - 1) text'
                (odict_set (start_postal, end_postal) zone_code postal_zone_map)
          | None => range_pass 0 text' postal_zone_map
          end
      end
  end.

(** [re.match(r'^[A-Z]\d[A-Z]$', part)] and [re.match(r'^D[A-Z]$', part)]
    on a token of [line.split()], which holds no line break. *)
Definition is_postal (part : pystr) : bool :=
  match postal3 part with Some (_, []) => true | _ => false end.
Definition is_zone (part : pystr) : bool :=
  match zone2 part with Some (_, []) => true | _ => false end.

Definition is_dash_token (part : pystr) : bool :=
  Str.eqb part [8212%N] || Str.eqb part [8211%N] || Str.eqb part [45%N].

(** Some wider range starts at [part]. *)
Definition already_covered (part : pystr) (postal_zone_map : PostalZoneMap) : bool :=
  existsb (λ '((start_, end_), _),
             bool_decide (start_ = part) && negb (bool_decide (end_ = part)))
          postal_zone_map.

(** The [while] loop over the tokens of a line; [prev] is [parts[i - 1]]
    when [i > 0]. *)
Fixpoint token_pass (prev : option pystr) (parts : list pystr)
    (postal_zone_map : PostalZoneMap) : PostalZoneMap :=
  match parts with
  | [] => postal_zone_map
  | part :: rest =>
      if is_postal part then
        match rest with
        | zone_code :: rest' =>
            if is_zone zone_code then
              if from_option is_dash_token false prev
              then token_pass (Some zone_code) rest' postal_zone_map
              else
                token_pass (Some part) rest
                  (if already_covered part postal_zone_map then postal_zone_map
                   else odict_set (part, part) zone_code postal_zone_map)
            else token_pass (Some part) rest postal_zone_map
        | [] => token_pass (Some part) rest postal_zone_map
        end
      else token_pass (Some part) rest postal_zone_map
  end.

Definition line_pass (postal_zone_map : PostalZoneMap) (line : pystr) : PostalZoneMap :=
  if contains (py "Postal Code") line && contains (py "Zone") line
  then postal_zone_map
  else token_pass None (split line) postal_zone_map.

(** The two passes over the text of the postal index page. *)
Definition parse_postal_text (text : pystr) : PostalZoneMap :=
  fold_left line_pass (split_lines text) (range_pass 0 text []).

Definition parse_postal_code_to_zone_mapping (pdf : Pdf) (postal_code_page : option Z)
  : Res PostalZoneMap :=
  match postal_code_page with
  | None => Ok []
  | Some i => page ← index pdf i; Ok (parse_postal_text (text_of page))
  end.

(** ** Zone matrix *)

Abbreviation ZoneMatrix := (gmap (pystr * pystr) Z).

(** [max(tables, key=len)]: the first table of greatest length. *)
Fixpoint longest_from (best : raw_table) (tables : list raw_table) : raw_table :=
  match tables with
  | [] => best
  | t :: tables' =>
      longest_from (if (length best <? length t)%nat then t else best) tables'
  end.

(** The integers among the tokens of a values line. *)
Definition parse_values (values_str : pystr) : list Z :=
  omap PyInt.int (split values_str).

(** [zone_matrix[(origin_zone, dest_zone)] = values[j]] over
    [enumerate(dest_zones)]. *)
Definition bind_pairs (origin_zone : pystr) (pairs : list (pystr * Z))
    (zone_matrix : ZoneMatrix) : ZoneMatrix :=
  fold_left (λ (zm : ZoneMatrix) '(dest_zone, v), <[(origin_zone, dest_zone) := v]> zm)
            pairs zone_matrix.
Definition bind_destinations (origin_zone : pystr) (values : list Z)
    (zone_matrix : ZoneMatrix) : ZoneMatrix :=
  bind_pairs origin_zone (zip ZONE_CODES values) zone_matrix.

(** One turn of the loop over [enumerate(origin_lines)]. *)
Definition matrix_line (values_lines : list pystr) (zone_matrix : ZoneMatrix)
    (entry : nat * pystr) : ZoneMatrix :=
  let '(i, origin_line) := entry in
  let origin_zone := strip origin_line in
  if bool_decide (origin_zone ∈ ZONE_CODES) then
    match values_lines !! i with
    | Some values_line =>
        let values := parse_values (strip values_line) in
        if (length values =? length ZONE_CODES)%nat
        then bind_destinations origin_zone values zone_matrix
        else zone_matrix
    | None => zone_matrix
    end
  else zone_matrix.

(** One turn of the loop over the rows of the zone table. *)
Definition matrix_row (zone_matrix : ZoneMatrix) (r : row) : ZoneMatrix :=
  match r with
  | c0 :: c1 :: _ =>
      let first_cell := cell_text c0 in
      let second_cell := cell_text c1 in
      if contains (py "Origin") first_cell || contains (py "Destination") first_cell
      then zone_matrix
      else if contains (py "DA DB DC") second_cell then zone_matrix
      else
        let origin_cell := strip first_cell in
        let values_cell := strip second_cell in
        match origin_cell, values_cell with
        | [], _ | _, [] => zone_matrix
        | _, _ =>
            fold_left (matrix_line (split_lines values_cell))
                      (imap pair (split_lines origin_cell)) zone_matrix
        end
  | _ => zone_matrix
  end.

Definition parse_zone_matrix (pdf : Pdf) (zone_matrix_page : option Z)
  : Res ZoneMatrix :=
  match zone_matrix_page with
  | None => Ok ∅
  | Some i =>
      page ← index pdf i;
      match extract_tables page with
      | [] => Ok ∅
      | t :: tables => Ok (fold_left matrix_row (longest_from t tables) ∅)
      end
  end.

(** ** Zone resolver *)

Section resolver.
Context {cm : CaseMapping}.

Definition get_zone_code_for_postal (postal_code : pystr)
    (postal_zone_map : PostalZoneMap) : option pystr :=
  let fsa := upper (take 3 postal_code) in
  snd <$> List.find (λ '((start_postal, end_postal), _),
                       Str.leb start_postal fsa && Str.leb fsa end_postal)
                    postal_zone_map.
End resolver.

(** The order of the items [((start, end), zone)] of the postal map. *)
Definition item : Type := postal_range * pystr.
(** Tuples compare component by component. *)
Definition lex (c : comparison) (d : comparison) : comparison :=
  match c with
  | Eq => d
  | _ => c
  end.
Definition range_compare (a b : postal_range) : comparison :=
  lex (Str.compare a.1 b.1) (Str.compare a.2 b.2).
Definition item_compare (a b : item) : comparison :=
  lex (range_compare a.1 b.1) (Str.compare a.2 b.2).
Definition item_leb (a b : item) : bool :=
  match item_compare a b with Gt => false | _ => true end.

(** [sorted(items)]: a stable sort, by insertion. *)
Fixpoint insert_sorted (x : item) (l : list item) : list item :=
  match l with
  | [] => [x]
  | y :: l' => if item_leb x y then x :: l else y :: insert_sorted x l'
  end.
Definition sorted (l : list item) : list item :=
  fold_right insert_sorted [] l.

Record ZoneDatasetRow : Type := {
  country_name : pystr;
  country_symbol : pystr;
  zone : Z;
  city : pystr;
  start_postal : pystr;
  end_postal : pystr
}.

Definition zone_row (origin_zone : pystr) (zone_matrix : ZoneMatrix) (it : item)
  : ZoneDatasetRow :=
  let '((start_postal, end_postal), dest_zone_code) := it in
  let numerical_zone :=
    match zone_matrix !! (origin_zone, dest_zone_code) with
    | Some z => z
    | None => 16
    end in
  {| country_name := py "Canada"; country_symbol := py "CA";
     zone := numerical_zone; city := [];
     start_postal := start_postal; end_postal := end_postal |}.

Section zones_data.
Context {cm : CaseMapping}.

Definition generate_zones_data (origin_postal : pystr)
    (postal_zone_map : PostalZoneMap) (zone_matrix : ZoneMatrix)
  : list ZoneDatasetRow :=
  match get_zone_code_for_postal origin_postal postal_zone_map with
  | None => []
  | Some origin_zone => map (zone_row origin_zone zone_matrix) (sorted postal_zone_map)
  end.
End zones_data.

(** ** Rate cells *)

Definition dollar : N := 36%N.
Definition comma : N := 44%N.
Definition space : N := 32%N.

(** [clean_rate] on a string. *)
Definition clean_rate (value : pystr) : option Decimal :=
  let cleaned := strip (remove space (remove comma (remove dollar value))) in
  match cleaned with
  | [] => None
  | _ =>
      if Str.eqb cleaned [8212%N] || Str.eqb cleaned [45%N] then None
      else Dec.of_str cleaned
  end.

(** [re.match(r'(\d+)\s*lbs?\.?', line)]: group 1 when the pattern
    matches. The digits are followed by white space and ["lb"]; what comes
    after is optional. *)
Fixpoint digit_prefix (s : pystr) : pystr * pystr :=
  match s with
  | c :: s' =>
      if isdigit c then let '(d, r) := digit_prefix s' in (c :: d, r)
      else ([], s)
  | [] => ([], [])
  end.

Definition lbs_match (line : pystr) : option pystr :=
  let '(digits, rest) := digit_prefix line in
  match digits with
  | [] => None
  | _ => if startswith (py "lb") (lstrip rest) then Some digits else None
  end.

(** [parse_weight_from_line]. The first conversion is outside any [try]. *)
Definition parse_weight_from_line (line : pystr) : Res (option Z) :=
  let line := strip line in
  match line with
  | [] => Ok None
  | _ =>
      match lbs_match line with
      | Some digits =>
          match PyInt.int digits with
          | Some n => Ok (Some n)
          | None => Raise ValueError
          end
      | None =>
          match split line with
          | part :: _ =>
              match PyInt.int part with
              | Some weight =>
                  if (1 <=? weight) && (weight <=? 2000) then Ok (Some weight)
                  else Ok None
              | None => Ok None
              end
          | [] => Ok None
          end
      end
  end.

(** [parse_zone_numbers]. *)
Definition parse_zone_numbers (header_text : pystr) : list Z :=
  List.filter (λ zone, (1 <=? zone) && (zone <=? 16))
              (omap PyInt.int (split header_text)).

(** [parse_rates_line]. *)
Definition parse_rates_line (rates_text : pystr) : list Decimal :=
  omap clean_rate (split (remove dollar rates_text)).

(** ** Table normalizer

    The block both builders run on a raw table before reading it. *)

(** The loop over the cells of a row: the lines of every cell and the
    greatest number of lines. *)
Definition cell_step (st : list (list pystr) * nat) (c : cell)
  : list (list pystr) * nat :=
  let '(cell_lines, max_lines) := st in
  match c with
  | None => (cell_lines ++ [[[]]], max_lines)
  | Some text =>
      let lines := split_lines text in
      (cell_lines ++ [lines], Nat.max max_lines (length lines))
  end.

Definition new_row (cell_lines : list (list pystr)) (line_idx : nat) : row :=
  map (λ lines, match lines !! line_idx with
                | Some line => Some (strip line)
                | None => Some []
                end) cell_lines.

(** One turn of the loop over the rows of the raw table. *)
Definition normalize_step (table : list row) (r : row) : list row :=
  match r with
  | [] => table
  | _ =>
      let '(cell_lines, max_lines) := fold_left cell_step r ([], 1%nat) in
      if (max_lines =? 1)%nat then table ++ [r]
      else table ++ map (new_row cell_lines) (seq 0 max_lines)
  end.

Definition normalize_table (raw : raw_table) : list row :=
  fold_left normalize_step raw [].

(** ** Flat-rate builder *)

Abbreviation RateTable := (gmap Z (gmap Z Decimal)).

(** [d[zone] = rate_values[i]] over [enumerate(zones)]; the lists have the
    same length. *)
Definition assign_zones (zones : list Z) (rate_values : list Decimal)
    (d : gmap Z Decimal) : gmap Z Decimal :=
  fold_left (λ d '(zone, rate), <[zone := rate]> d) (zip zones rate_values) d.

(** The zone header of a normalized table: the first cell, in the first
    five rows, with seven zone numbers or more. *)
Definition cell_zones (c : cell) : option (list Z) :=
  match c with
  | Some text =>
      match text with
      | [] => None
      | _ =>
          let found_zones := parse_zone_numbers text in
          if (7 <=? length found_zones)%nat then Some found_zones else None
      end
  | None => None
  end.

Fixpoint first_some {A B : Type} (f : A → option B) (l : list A) : option B :=
  match l with
  | [] => None
  | a :: l' => match f a with Some b => Some b | None => first_some f l' end
  end.

Definition header_zones (table : list row) : option (list Z) :=
  first_some (first_some cell_zones) (take 5 table).

(** The state of the scan: [rates] and [per_pound_rates]. *)
Abbreviation flat_state := (RateTable * gmap Z Decimal)%type.

Section flat.
Context {cm : CaseMapping}.

(** One turn of the loop over the rows of a table with header [zones]. *)
Definition flat_row (zones : list Z) (st : flat_state) (r : row) : Res flat_state :=
  let '(rates, per_pound_rates) := st in
  match r with
  | c0 :: c1 :: _ =>
      let weight_cell := strip (cell_text c0) in
      let rates_cell := strip (cell_text c1) in
      let label := lower weight_cell in
      if contains (py "weight") label || contains (py "zone") label then Ok st
      else if contains (py "envelope") label || contains (py "pak") label then Ok st
      else if contains (py "100 lbs") label
              || contains (py "100lbs") (remove space label) then
        let rate_values := parse_rates_line rates_cell in
        if (length rate_values =? length zones)%nat
        then Ok (rates, assign_zones zones rate_values per_pound_rates)
        else Ok st
      else
        w ← parse_weight_from_line weight_cell;
        match w with
        | None => Ok st
        | Some weight =>
            if (weight <? 1) || (99 <? weight) then Ok st
            else
              match parse_rates_line rates_cell with
              | [] => Ok st
              | rate_values =>
                  let known := default ∅ (rates !! weight) in
                  Ok (<[weight := assign_zones zones rate_values known]> rates,
                      per_pound_rates)
              end
        end
  | _ => Ok st
  end.

(** One turn of the loop over the tables of a page. *)
Definition flat_table (st : flat_state) (raw : raw_table) : Res flat_state :=
  let table := normalize_table raw in
  match table with
  | [] => Ok st
  | _ =>
      match header_zones table with
      | None => Ok st
      | Some zones => foldM (flat_row zones) table st
      end
  end.

Definition flat_page (st : flat_state) (page : Page) : Res flat_state :=
  foldM flat_table (extract_tables page) st.
End flat.

(** [(Decimal(weight) * rate).quantize(Decimal('0.01'), rounding=ROUND_HALF_UP)]. *)
Definition price_of (weight : Z) (rate : Decimal) : Res Decimal :=
  product ← Dec.mul (Dec.of_int weight) rate;
  Dec.quantize product Dec.cents_exp.

(** [range(a, b)]. *)
Definition range (a b : Z) : list Z := seqZ a (b - a).

(** The loop over [range(1, 17)] of the synthesis. *)
Definition flat_zone (per_pound_rates : gmap Z Decimal) (weight : Z)
    (entry : gmap Z Decimal) (zone : Z) : Res (gmap Z Decimal) :=
  match per_pound_rates !! zone with
  | Some r => rate ← price_of weight r; Ok (<[zone := rate]> entry)
  | None => Ok entry
  end.

(** The loop over [range(100, 151)]. *)
Definition flat_weight (per_pound_rates : gmap Z Decimal) (rates : RateTable)
    (weight : Z) : Res RateTable :=
  entry ← foldM (flat_zone per_pound_rates weight) (range 1 17) ∅;
  Ok (<[weight := entry]> rates).

Definition synthesize (st : flat_state) : Res RateTable :=
  let '(rates, per_pound_rates) := st in
  foldM (flat_weight per_pound_rates) (range 100 151) rates.

(** [[pdf.pages[i] for i in range(start_page, end_page + 1)]]. *)
Definition span_pages (pdf : Pdf) (start_page end_page : Z) : Res (list Page) :=
  mapM (index pdf) (range start_page (end_page + 1)).

Section flat_builder.
Context {cm : CaseMapping}.

(** The state after the loop over the pages. *)
Definition flat_scan (pdf : Pdf) (start_page end_page : Z) : Res flat_state :=
  pages ← span_pages pdf start_page end_page;
  foldM flat_page pages (∅, ∅).

Definition parse_non_freight_rates (pdf : Pdf) (start_page end_page : Z)
  : Res RateTable :=
  st ← flat_scan pdf start_page end_page;
  synthesize st.
End flat_builder.

(** ** Freight builder *)

(** A bracket key, [(bracket_start, bracket_end)]. *)
Definition bracket : Type := Z * Z.

(** The dictionary [brackets], in its order. *)
Definition brackets : list (pystr * bracket) := [
  (py "151 to 299", (151, 299));
  (py "300 to 499", (300, 499));
  (py "500 to 999", (500, 999));
  (py "1000 to 1999", (1000, 1999));
  (py "1000 to1999", (1000, 1999));
  (py "2000 or more", (2000, 2000))
].

(** The bracket of a weight in the expansion. *)
Definition bracket_of (weight : Z) : bracket :=
  if weight <=? 299 then (151, 299)
  else if weight <=? 499 then (300, 499)
  else if weight <=? 999 then (500, 999)
  else if weight <=? 1999 then (1000, 1999)
  else (2000, 2000).

Abbreviation PerPound := (gmap bracket (gmap Z Decimal)).

(** The state of the scan: [per_pound_rates] and [minimum_charges]. *)
Abbreviation freight_state := (PerPound * gmap Z Decimal)%type.

Section freight.
Context {cm : CaseMapping}.

(** The bracket whose name the label holds, first in the order of
    [brackets]. *)
Definition matching_bracket (weight_cell : pystr) : option bracket :=
  snd <$> List.find (λ '(bracket_name, _),
                       contains (remove space (lower bracket_name))
                                (remove space (lower weight_cell)))
                    brackets.

(** One turn of the loop over the rows of the table of a page; [zones]
    is empty until the header is met. *)
Definition freight_row (st : list Z * freight_state) (r : row)
  : list Z * freight_state :=
  let '(zones, (per_pound_rates, minimum_charges)) := st in
  match r with
  | c0 :: c1 :: _ =>
      let weight_cell := strip (cell_text c0) in
      let rates_cell := strip (cell_text c1) in
      let found_zones := parse_zone_numbers rates_cell in
      match zones with
      | [] =>
          if (7 <=? length found_zones)%nat
          then (found_zones, (per_pound_rates, minimum_charges))
          else st
      | _ =>
          if contains (py "minimum") (lower weight_cell) then
            let rate_values := parse_rates_line rates_cell in
            if (length rate_values =? length zones)%nat
            then (zones, (per_pound_rates,
                          assign_zones zones rate_values minimum_charges))
            else st
          else
            match matching_bracket weight_cell with
            | Some bracket_key =>
                let rate_values := parse_rates_line rates_cell in
                if (length rate_values =? length zones)%nat then
                  let known := default ∅ (per_pound_rates !! bracket_key) in
                  (zones,
                   (<[bracket_key := assign_zones zones rate_values known]>
                      per_pound_rates,
                    minimum_charges))
                else st
            | None => st
            end
      end
  | _ => st
  end.

(** One turn of the loop over the pages: only the first table is read. *)
Definition freight_page (st : freight_state) (page : Page) : freight_state :=
  match extract_tables page with
  | [] => st
  | raw :: _ => snd (fold_left freight_row (normalize_table raw) ([], st))
  end.
End freight.

(** The loop over [range(1, 17)] of the expansion. *)
Definition freight_zone (bracket_rates minimum_charges : gmap Z Decimal)
    (weight : Z) (entry : gmap Z Decimal) (zone : Z) : Res (gmap Z Decimal) :=
  match bracket_rates !! zone with
  | None => Ok entry
  | Some per_lb_rate =>
      calculated_rate ← price_of weight per_lb_rate;
      calculated_rate ←
        match minimum_charges !! zone with
        | Some m => Dec.max calculated_rate m
        | None => Ok calculated_rate
        end;
      Ok (<[zone := calculated_rate]> entry)
  end.

(** The loop over [range(151, 2001)]. *)
Definition freight_weight (st : freight_state) (rates : RateTable) (weight : Z)
  : Res RateTable :=
  let '(per_pound_rates, minimum_charges) := st in
  match per_pound_rates !! bracket_of weight with
  | None => Ok (<[weight := ∅]> rates)
  | Some bracket_rates =>
      entry ← foldM (freight_zone bracket_rates minimum_charges weight)
                    (range 1 17) ∅;
      Ok (<[weight := entry]> rates)
  end.

Definition expand (st : freight_state) : Res RateTable :=
  foldM (freight_weight st) (range 151 2001) ∅.

Section freight_builder.
Context {cm : CaseMapping}.

(** The state after the loop over the pages. *)
Definition freight_scan (pdf : Pdf) (start_page end_page : Z) : Res freight_state :=
  pages ← span_pages pdf start_page end_page;
  Ok (fold_left freight_page pages (∅, ∅)).

Definition parse_freight_rates (pdf : Pdf) (start_page end_page : Z)
  : Res RateTable :=
  st ← freight_scan pdf start_page end_page;
  expand st.
End freight_builder.

(** ** The command *)

(** The warnings the command prints about the zone index. *)
Inductive warning : Type :=
| NoPostalCodePage
| NoZoneMatrixPage.

(** What the command hands to the writer, and what it printed. *)
Record Handoff : Type := {
  services_data : list (pystr * RateTable * bool);
  zones_data : option (list ZoneDatasetRow);
  warnings : list warning
}.

Section command.
Context {cm : CaseMapping}.

Definition parse_service (pdf : Pdf) (service : Service)
  : Res (pystr * RateTable * bool) :=
  let '(start_page, end_page) := pages service in
  rates ← (if is_freight service
           then parse_freight_rates pdf start_page end_page
           else parse_non_freight_rates pdf start_page end_page);
  Ok (name service, rates, is_freight service).

(** The zone index part, run when an origin is given. *)
Definition parse_zone_index (pdf : Pdf) (origin : pystr)
  : Res (list ZoneDatasetRow * list warning) :=
  let '(postal_code_page, zone_matrix_page) := find_zone_index_pages pdf in
  let w1 := match postal_code_page with None => [NoPostalCodePage] | _ => [] end in
  let w2 := match zone_matrix_page with None => [NoZoneMatrixPage] | _ => [] end in
  postal_zone_map ← parse_postal_code_to_zone_mapping pdf postal_code_page;
  zone_matrix ← parse_zone_matrix pdf zone_matrix_page;
  Ok (generate_zones_data origin postal_zone_map zone_matrix, w1 ++ w2).

(** The part of [cmd_parse_ca_rates] that reads the document, the body of
    [with pdfplumber.open(...)]: what the command has for the writer when
    it leaves the document. [origin] is [args.origin]. *)
Definition ca_rates_handoff (origin : option pystr) (pdf : Pdf) : Res Handoff :=
  zi ← match origin with
       | Some (c :: o) =>
           '(rows, ws) ← parse_zone_index pdf (c :: o); Ok (Some rows, ws)
       | _ => Ok (None, [])
       end;
  sd ← mapM (parse_service pdf) (detect_service_pages pdf);
  Ok {| services_data := sd; zones_data := zi.1; warnings := zi.2 |}.
End command.

(** ** The prices the specification asks for *)

(** [round_half_up(w * r, 2)] for a rate of coefficient [c] and exponent
    [e], on exact integers: [w * c * 10^e] is the fraction [num / den], and
    the number of cents is the floor of [100 * num / den + 1/2]. *)
Definition exact_cents (w : Z) (c : N) (e : Z) : N :=
  let num := (Z.to_N w * c * Dec.pow10 e)%N in
  let den := Dec.pow10 (- e) in
  ((200 * num + den) / (2 * den))%N.

Definition round_half_up_2 (w : Z) (r : Decimal) : option Decimal :=
  match r with
  | DFin neg c e => Some (DFin neg (exact_cents w c e) (-2))
  | _ => None
  end.

(** The rates on which the context computes [w * r] and its rounding
    without loss: finite, with an exponent the context holds, and with at
    most 28 digits in the product and in the price. *)
Definition fits_context (w : Z) (r : Decimal) : Prop :=
  match r with
  | DFin _ c e =>
      Dec.Etiny ≤ e ∧ (Z.to_N w * c < Dec.pow10 28)%N
      ∧ (exact_cents w c e < Dec.pow10 28)%N
  | _ => False
  end.

(** ** The normalizer the specification describes *)

(** The lines of a cell; an absent cell has none. *)
Definition cell_lines_of (c : cell) : list pystr :=
  match c with
  | Some text => split_lines text
  | None => []
  end.

(** [L]: the greatest number of lines among the cells of a row, at least 1. *)
Definition line_count (r : row) : nat :=
  foldr Nat.max 1%nat (map (λ c, length (cell_lines_of c)) r).

(** Output row [i]: in each column the [i]-th line of the cell, or the
    empty string. *)
Definition sub_row (r : row) (i : nat) : row :=
  map (λ c, Some (default [] (cell_lines_of c !! i))) r.

Definition normalize_spec (raw : raw_table) : list row :=
  concat (map (λ r, map (sub_row r) (seq 0 (line_count r))) raw).

(** What the code emits for one row: nothing for an empty row, the row
    itself when no cell has a second line, and else the sub-rows with every
    line stripped. *)
Definition stripped_sub_row (r : row) (i : nat) : row :=
  map (λ c, Some (strip (default [] (cell_lines_of c !! i)))) r.

Definition emitted (r : row) : list row :=
  match r with
  | [] => []
  | _ =>
      if (line_count r =? 1)%nat then [r]
      else map (stripped_sub_row r) (seq 0 (line_count r))
  end.

(** The lines the code keeps for a cell: an absent cell counts as one empty
    line. *)
Definition kept_lines (c : cell) : list pystr :=
  match c with
  | Some text => split_lines text
  | None => [[]]
  end.

Definition widest (r : row) : nat :=
  foldr Nat.max 0%nat (map (λ c, length (cell_lines_of c)) r).

(** A cell whose first line starts with a blank. *)
Definition padded_table : raw_table :=
  [[Some (text_of_lines [" 1 lb"; "2 lbs"]%string); None]].

(** ** What the service locator is asked for *)




(** The service bound to start page [i]. *)
Definition bound_service (d : ServiceDef) (i : Z) : Service :=
  {| name := sd_name d;
     pages := (i, i + sd_page_count d - 1);
     is_freight := sd_is_freight d |}.

(** ** What the zone resolver is asked for *)

(** [a < b] on postal ranges. *)
Definition range_lt (a b : postal_range) : Prop := range_compare a b = Lt.

(** The range of a row. *)
Definition row_range (r : ZoneDatasetRow) : postal_range :=
  (start_postal r, end_postal r).

(** ** What is said of the zone matrix *)

(** The integer [v] is printed in the values column of the table: it is
    the value of a token of a line of the second cell of some row. *)
Definition printed_in (t : raw_table) (v : Z) : Prop :=
  ∃ c0 c1 tail line token,
    (c0 :: c1 :: tail) ∈ t
    ∧ line ∈ split_lines (strip (cell_text c1))
    ∧ token ∈ split (strip line)
    ∧ PyInt.int token = Some v.

(** The table the matrix is read from. *)
Definition zone_table (page : Page) : raw_table :=
  match extract_tables page with
  | [] => []
  | t :: tables => longest_from t tables
  end.

(** A matrix page whose row for [DA] prints the distance 0 on the
    diagonal. *)
Definition zero_diagonal_page : Page := {|
  extract_text := Some (py "Intra-Canada Zone Index");
  extract_tables := [[
    [Some (py "Origin"); Some (py "Destination")];
    [Some (py "DA"); Some (py "0 5 5 5 5 5 5 5 5 5 5 5 5 5 5 5 5 5 5 5 5 5 5 5 5 17")]
  ]]
|}.

(** A document with a postal index page and no matrix page. *)
Definition index_only_page : Page := {|
  extract_text := Some (text_of_lines ["Postal Code Zone Index";
                                       "A1A-A9Z DA B1A-B9Z DB"]%string);
  extract_tables := []
|}.

(** ** What is said of the rate tables *)

(** The price of a table for a weight and a zone. *)
Definition price_at (rates : RateTable) (weight zone : Z) : option Decimal :=
  rates !! weight ≫= λ entry, entry !! zone.

(** The per-pound rate the freight scan holds for the bracket of a weight
    and a zone. *)
Definition rate_at (per_pound_rates : PerPound) (weight zone : Z) : option Decimal :=
  per_pound_rates !! bracket_of weight ≫= λ bracket_rates, bracket_rates !! zone.

(** [max(p, m)] when a minimum [m] is defined, [p] otherwise. *)
Definition floored (p : Decimal) (minimum : option Decimal) (price : Decimal) : Prop :=
  match minimum with
  | Some m => Dec.max p m = Ok price
  | None => price = p
  end.

(** Zone numbers, as a header holds them. *)
Definition zone_numbers (zones : list Z) : Prop :=
  Forall (λ z, 1 ≤ z ≤ 16) zones.

(** The keys of a map of zones are zone numbers. *)
Definition zone_keys (d : gmap Z Decimal) : Prop :=
  ∀ z, is_Some (d !! z) → 1 ≤ z ≤ 16.

(** What the flat scan keeps true: the weights read from the rows lie in
    1..99, the zones of the overage rates in 1..16. *)
Definition flat_inv (st : flat_state) : Prop :=
  (∀ w, is_Some (st.1 !! w) → 1 ≤ w ≤ 99) ∧ zone_keys st.2.

(** The entry the synthesis computes for a weight. *)
Definition flat_entry (per_pound_rates : gmap Z Decimal) (weight : Z)
  : Res (gmap Z Decimal) :=
  foldM (flat_zone per_pound_rates weight) (range 1 17) ∅.

(** ** Sample documents *)

(** A page of a flat-rate service: a header of seven zones, the rows of
    two weights, and the row of the rate per pound from 100 lbs on. *)
Definition economy_page : Page := {|
  extract_text := Some (py "FedEx Economy Rates");
  extract_tables := [[
    [Some (text_of_lines ["Weight"; "1 lb"; "2 lbs"]%string);
     Some (text_of_lines ["Zones 1 2 3 4 5 6 7";
                          "$10.00 20.00 30.00 40.00 50.00 60.00 70.00";
                          "11.00 21.00 31.00 41.00 51.00 61.00 71.00"]%string)];
    [Some (py "100 lbs+"); Some (py "1.00 2.00 0.50 4.00 5.00 6.00 0.505")]
  ]]
|}.

(** A page of a flat-rate service without a row of rates per pound. *)
Definition plain_page : Page := {|
  extract_text := Some (py "FedEx 2Day Rates");
  extract_tables := [[
    [Some (py "Weight"); Some (py "Zones 1 2 3 4 5 6 7")];
    [Some (py "1 lb"); Some (py "10.00 20.00 30.00 40.00 50.00 60.00 70.00")]
  ]]
|}.

(** A freight page: a header of seven zones, the minimum charges, and rows
    of rates per pound; the bracket 151 to 299 is printed twice. *)
Definition freight_page_sample : Page := {|
  extract_text := Some (py "FedEx 1Day Freight Rates");
  extract_tables := [[
    [None; Some (py "Zones 1 2 3 4 5 6 7")];
    [Some (py "Minimum charge");
     Some (py "$100.00 100.00 100.00 100.00 150.00 100.00 100.00")];
    [Some (py "151 to 299 lbs"); Some (py "1.00 1.00 1.00 1.00 1.00 1.00 1.00")];
    [Some (py "1000 to 1999 lbs"); Some (py "0.20 0.20 0.20 0.20 0.10 0.20 0.20")];
    [Some (py "151 to 299 lbs"); Some (py "2.00 2.00 2.00 2.00 2.00 2.00 2.00")]
  ]]
|}.

(** A freight page whose rate for 2000 lbs or more has 29 digits in zone
    1: 2000 times this rate is 0.0049999999999999999999999999998. *)
Definition long_rate_page : Page := {|
  extract_text := Some (py "FedEx 1Day Freight Rates");
  extract_tables := [[
    [None; Some (py "Zones 1 2 3 4 5 6 7")];
    [Some (py "2000 or more");
     Some (py "0.0000024999999999999999999999999999 1.00 1.00 1.00 1.00 1.00 1.00")]
  ]]
|}.

(** ** Freight: what the scan keeps true, what the expansion computes *)

Definition freight_inv (st : freight_state) : Prop :=
  (∀ b bracket_rates, st.1 !! b = Some bracket_rates → zone_keys bracket_rates)
  ∧ zone_keys st.2.

(** The entry the expansion computes for a weight. *)
Definition freight_entry (st : freight_state) (weight : Z) : Res (gmap Z Decimal) :=
  match st.1 !! bracket_of weight with
  | None => Ok ∅
  | Some bracket_rates =>
      foldM (freight_zone bracket_rates st.2 weight) (range 1 17) ∅
  end.

(** ** The builders run on the sample pages *)

Definition economy_scan : flat_state :=
  value_or (∅, ∅) (flat_scan (cm:=ascii_case) [economy_page] 0 0).
Definition economy_table : RateTable :=
  value_or ∅ (parse_non_freight_rates (cm:=ascii_case) [economy_page] 0 0).

Definition plain_scan : flat_state :=
  value_or (∅, ∅) (flat_scan (cm:=ascii_case) [plain_page] 0 0).

Definition freight_sample_scan : freight_state :=
  value_or (∅, ∅) (freight_scan (cm:=ascii_case) [freight_page_sample] 0 0).
Definition freight_sample_table : RateTable :=
  value_or ∅ (parse_freight_rates (cm:=ascii_case) [freight_page_sample] 0 0).

Definition long_rate_scan : freight_state :=
  value_or (∅, ∅) (freight_scan (cm:=ascii_case) [long_rate_page] 0 0).
Definition long_rate_table : RateTable :=
  value_or ∅ (parse_freight_rates (cm:=ascii_case) [long_rate_page] 0 0).

(** ** The rows that supply the rates per pound *)

(** A bracket, a zone, and the rate a row gives for them. *)
Definition supply : Type := bracket * Z * Decimal.

(** The rate recorded for a bracket and a zone. *)
Definition recorded (per_pound_rates : PerPound) (b : bracket) (z : Z)
  : option Decimal :=
  per_pound_rates !! b ≫= λ bracket_rates, bracket_rates !! z.

(** The rate of a pair [(zone, rate)] when the zone is [z]. *)
Definition for_zone (z : Z) (p : Z * Decimal) : option Decimal :=
  if bool_decide (p.1 = z) then Some p.2 else None.

(** The rates a list of supplies holds for a bracket and a zone, in the
    order of the list. *)
Definition supplied (b : bracket) (z : Z) (l : list supply) : list Decimal :=
  omap (λ s : supply, if bool_decide (s.1.1 = b) then for_zone z (s.1.2, s.2) else None) l.

Section supplies.
Context {cm : CaseMapping}.

(** What a row supplies under the header [zones]: when its label is not
    that of the minimum charges and names a bracket, and when it holds as
    many rates as the header has zones, one rate for each zone. *)
Definition row_supplies (zones : list Z) (r : row) : list supply :=
  match r with
  | c0 :: c1 :: _ =>
      let weight_cell := strip (cell_text c0) in
      let rates_cell := strip (cell_text c1) in
      if contains (py "minimum") (lower weight_cell) then []
      else
        match matching_bracket weight_cell with
        | Some b =>
            let rate_values := parse_rates_line rates_cell in
            if (length rate_values =? length zones)%nat
            then map (λ p : Z * Decimal, (b, p.1, p.2)) (zip zones rate_values)
            else []
        | None => []
        end
  | _ => []
  end.

(** The header a row sets while none is known: the zone numbers of its
    second cell when there are seven or more. *)
Definition row_header (r : row) : list Z :=
  match r with
  | c0 :: c1 :: _ =>
      let found_zones := parse_zone_numbers (strip (cell_text c1)) in
      if (7 <=? length found_zones)%nat then found_zones else []
  | _ => []
  end.

(** The supplies of the rows of a table, in order; the rows up to the
    header supply nothing. *)
Fixpoint table_supplies (zones : list Z) (rows : list row) : list supply :=
  match rows with
  | [] => []
  | r :: rows' =>
      match zones with
      | [] => table_supplies (row_header r) rows'
      | _ => row_supplies zones r ++ table_supplies zones rows'
      end
  end.

Definition page_supplies (page : Page) : list supply :=
  match extract_tables page with
  | [] => []
  | raw :: _ => table_supplies [] (normalize_table raw)
  end.

Definition supplies (pages : list Page) : list supply :=
  concat (map page_supplies pages).
End supplies.

(** What is recorded after a list of supplies: the last one, or what was
    there before. *)
Definition after (before : option Decimal) (l : list Decimal) : option Decimal :=
  match last l with
  | Some v => Some v
  | None => before
  end.

Definition freight_sample_pages : list Page :=
  value_or [] (span_pages [freight_page_sample] 0 0).

(** The descriptor of the economy service, those before it and those after
    it in the catalog. *)
Definition economy_def : ServiceDef :=
  {| sd_name := py "FedEx Economy"; sd_search := py "FedEx Economy";
     sd_page_count := 4; sd_is_freight := false |}.


(** A postal map of two ranges, the later range first, and a matrix with
    one entry. *)
Definition two_ranges : PostalZoneMap :=
  [((py "B1A", py "B9Z"), py "DB"); ((py "A1A", py "A9Z"), py "DA")].
Definition one_entry : ZoneMatrix := {[ (py "DA", py "DB") := 5 ]}.

(** An index text where the code [A1A] starts a range and also stands
    alone before a zone code. *)
Definition index_text : pystr := text_of_lines ["A1A-A1C DA"; "A1A DB"]%string.

Definition zero_diagonal_matrix : ZoneMatrix :=
  value_or ∅ (parse_zone_matrix [zero_diagonal_page] (Some 0)).

(** ** What is said of the pages of the zone index *)

(** [found] is the first page of [rest], numbered from [i0], whose text
    holds [marker]; [None] when no page holds it. *)
Definition first_page_from (marker : pystr) (rest : list Page) (i0 : Z)
    (found : option Z) : Prop :=
  match found with
  | Some k =>
      i0 ≤ k
      ∧ (∃ page, rest !! Z.to_nat (k - i0) = Some page
                 ∧ contains marker (text_of page) = true)
      ∧ ∀ j page, i0 ≤ j < k → rest !! Z.to_nat (j - i0) = Some page →
          contains marker (text_of page) = false
  | None =>
      ∀ j page, i0 ≤ j → rest !! Z.to_nat (j - i0) = Some page →
        contains marker (text_of page) = false
  end.

(** ** What is said of the services detected *)

(** The first page of a service. *)
Definition start_of (s : Service) : Z := (pages s).1.

(** What the detection keeps true of its list: a service starts on a page
    of the document, its span is not empty, and no two services start on
    the same page. *)
Definition located (pdf : Pdf) (services : list Service) : Prop :=
  Forall (λ s, 0 ≤ start_of s < Z.of_nat (length pdf) ∧ start_of s ≤ (pages s).2)
         services
  ∧ NoDup (map start_of services).

(** ** What is said of the postal map *)

(** An entry of the postal map joins two codes of the form [[A-Z]\d[A-Z]]
    to a zone code of the catalog. *)
Definition well_formed_entry (it : item) : Prop :=
  is_postal it.1.1 = true ∧ is_postal it.1.2 = true ∧ it.2 ∈ ZONE_CODES.

(** What both passes over the text keep true of the map. *)
Definition postal_inv (m : PostalZoneMap) : Prop :=
  NoDup (map fst m) ∧ Forall well_formed_entry m.

(** ** What is said of the rows of the zone matrix *)

(** An origin zone with one entry has an entry for each of the 26
    destination zones. *)
Definition complete_rows (zm : ZoneMatrix) : Prop :=
  ∀ o d, is_Some (zm !! (o, d)) → ∀ d', d' ∈ ZONE_CODES → is_Some (zm !! (o, d')).

(** ** The shape of a price *)

(** A number of cents: finite, with two decimals. *)
Definition in_cents (p : Decimal) : Prop := ∃ neg c, p = DFin neg c (-2).

(** [p] is not smaller than [m]. *)
Definition not_below (p m : Decimal) : Prop := Dec.compare p m ≠ Lt.

(** A rate the price computation cannot take: an infinity or a signalling
    NaN. *)
Definition unusable (r : Decimal) : Prop :=
  match r with
  | DInf _ | DsNaN => True
  | _ => False
  end.

(** A rate for which the freight expansion cannot settle a price: an
    unusable rate, or a NaN on either side of the comparison with the
    minimum charge. *)
Definition unpriceable (r : Decimal) (minimum : option Decimal) : Prop :=
  unusable r
  ∨ ∃ m, minimum = Some m ∧ (Dec.is_nan r = true ∨ Dec.is_nan m = true).

(** A page of a flat-rate service whose rate per pound is infinite in
    zone 2. *)
Definition infinite_rate_page : Page := {|
  extract_text := Some (py "FedEx 2Day Rates");
  extract_tables := [[
    [Some (py "Weight"); Some (py "Zones 1 2 3 4 5 6 7")];
    [Some (py "100 lbs+"); Some (py "1.00 Infinity 1.00 1.00 1.00 1.00 1.00")]
  ]]
|}.

(** A freight page whose rate for 151 to 299 lbs is not a number in
    zone 1, where a minimum charge is printed. *)
Definition nan_rate_page : Page := {|
  extract_text := Some (py "FedEx 1Day Freight Rates");
  extract_tables := [[
    [None; Some (py "Zones 1 2 3 4 5 6 7")];
    [Some (py "Minimum charge");
     Some (py "100.00 100.00 100.00 100.00 100.00 100.00 100.00")];
    [Some (py "151 to 299 lbs"); Some (py "NaN 1.00 1.00 1.00 1.00 1.00 1.00")]
  ]]
|}.

Definition infinite_rate_scan : flat_state :=
  value_or (∅, ∅) (flat_scan (cm:=ascii_case) [infinite_rate_page] 0 0).
Definition nan_rate_scan : freight_state :=
  value_or (∅, ∅) (freight_scan (cm:=ascii_case) [nan_rate_page] 0 0).

(** * The other commands of the tool *)

(** ** [str(int)], [str.zfill] and the format [05d] *)

Definition zero_digit : N := 48%N.
Definition hyphen : N := 45%N.

(** The decimal digits of [n], most significant first, put in front of
    [acc]; [fuel] bounds the number of digits. *)
Fixpoint digits_from_N (fuel : nat) (n : N) (acc : pystr) : pystr :=
  match fuel with
  | O => acc
  | S fuel' =>
      let acc' := (zero_digit + n mod 10)%N :: acc in
      if (n <? 10)%N then acc' else digits_from_N fuel' (n / 10) acc'
  end.

(** The digits of [n]: a number has no more decimal digits than bits. *)
Definition digits_of (n : N) : pystr :=
  digits_from_N (S (N.to_nat (N.size n))) n [].

(** [str(n)] for an [int]; the conversion of more than 4300 digits raises
    [ValueError]. *)
Definition str_of_int (n : Z) : Res pystr :=
  let digits := digits_of (Z.abs_N n) in
  if (PyInt.int_max_str_digits <? length digits)%nat then Raise ValueError
  else Ok (if n <? 0 then PyInt.minus_sign :: digits else digits).

(** [s.zfill(width)]: zeros on the left, after the sign when there is
    one. *)
Definition zfill (width : nat) (s : pystr) : pystr :=
  let fill := replicate (width - length s) zero_digit in
  match s with
  | c :: s' =>
      if (c =? PyInt.plus_sign)%N || (c =? PyInt.minus_sign)%N
      then c :: fill ++ s'
      else fill ++ s
  | [] => fill
  end.

(** [f'{n:05d}']. *)
Definition format_05d (n : Z) : Res pystr :=
  s ← str_of_int n; Ok (zfill 5 s).

(** ** Commands that talk to the outside

    A computation that may raise and that reads and changes the state [W]
    of the outside world. *)

Definition IO (W A : Type) : Type := W → Res A * W.

Global Instance IO_ret {W : Type} : MRet (IO W) := λ A a w, (Ok a, w).
Global Instance IO_bind {W : Type} : MBind (IO W) := λ A B k m w,
  match m w with
  | (Ok a, w') => k a w'
  | (Raise e, w') => (Raise e, w')
  end.

(** A computation that leaves the world alone. *)
Definition pure_io {W A : Type} (r : Res A) : IO W A := λ w, (r, w).

(** A loop whose body talks to the outside. *)
Fixpoint foldIO {W A S : Type} (f : S → A → IO W S) (l : list A) (s : S) : IO W S :=
  match l with
  | [] => mret s
  | a :: l' => s' ← f s a; foldIO f l' s'
  end.

(** ** PDF URL finder *)

(** [range(a, b, step)] for a positive step. *)
Definition range_step (a b step : Z) : list Z :=
  map (λ k, a + k * step) (range 0 ((b - a + step - 1) / step)).

Definition sizes : list Z := [100; 200; 300; 400; 500; 600; 700; 800; 900; 1000].

Definition url_prefix : pystr := py "https://www.fedex.com/ratetools/documents2/".

(** The f-string of the URL. *)
Definition pdf_url (lower upper : Z) : Res pystr :=
  l ← format_05d lower;
  u ← format_05d upper;
  Ok (url_prefix ++ l ++ hyphen :: u ++ py ".pdf").

(** The lower bounds tried: the multiples of 100 from the one below the
    code downwards, as long as they are not negative. *)
Definition possible_lowers (pc : Z) : list Z :=
  let base := (pc / 100) * 100 in
  List.filter (λ lower, 0 <=? lower)
              (map (λ offset, base - offset) (range_step 0 2000 100)).

(** A range and its URL, as [find_range_containing] returns them. *)
Definition found_range : Type := Z * Z * pystr.

Section finder.
Context {W : Type}.
(** [check_url]: a [HEAD] request, [True] on status 200 and [False] on
    any other answer or failure. *)
Variable check_url : pystr → W → bool * W.

(** The request, as a computation: it never raises. *)
Definition request (url : pystr) : IO W bool :=
  λ w, let '(found, w') := check_url url w in (Ok found, w').

(** The loop over [sizes] for one lower bound. *)
Fixpoint try_sizes (pc lower : Z) (sizes : list Z) : IO W (option found_range) :=
  match sizes with
  | [] => mret None
  | size :: sizes' =>
      let upper := lower + size - 1 in
      if (lower <=? pc) && (pc <=? upper) then
        url ← pure_io (pdf_url lower upper);
        found ← request url;
        if found : bool then mret (Some (lower, upper, url))
        else try_sizes pc lower sizes'
      else try_sizes pc lower sizes'
  end.

(** The loop over [possible_lowers]. *)
Fixpoint try_lowers (pc : Z) (lowers : list Z) : IO W (option found_range) :=
  match lowers with
  | [] => mret None
  | lower :: lowers' =>
      result ← try_sizes pc lower sizes;
      match result with
      | Some r => mret (Some r)
      | None => try_lowers pc lowers'
      end
  end.

(** [find_range_containing] on a postal code that is an [int]. *)
Definition find_range_containing (postal_code : Z) : IO W (option found_range) :=
  try_lowers postal_code (possible_lowers postal_code).

(** [found_ranges] and [postal_to_range]. *)
Record FinderState : Type := {
  found_ranges : odict Z (Z * pystr);
  postal_to_range : gmap Z (Z * Z)
}.

(** The first range of [found_ranges], in the order of insertion, that
    holds the code. *)
Definition covering (pc : Z) (found : odict Z (Z * pystr)) : option (Z * Z) :=
  (λ '(lower, (upper, _)), (lower, upper))
  <$> List.find (λ '(lower, (upper, _)), (lower <=? pc) && (pc <=? upper)) found.

(** One turn of the loop over [postal_codes]; what is printed is
    formatted first. *)
Definition find_pdfs_step (st : FinderState) (pc : Z) : IO W FinderState :=
  _ ← pure_io (format_05d pc);
  match covering pc (found_ranges st) with
  | Some (lower, upper) =>
      _ ← pure_io (format_05d lower);
      _ ← pure_io (format_05d upper);
      mret {| found_ranges := found_ranges st;
              postal_to_range := <[pc := (lower, upper)]> (postal_to_range st) |}
  | None =>
      result ← find_range_containing pc;
      match result with
      | Some (lower, upper, url) =>
          _ ← pure_io (format_05d lower);
          _ ← pure_io (format_05d upper);
          mret {| found_ranges := odict_set lower (upper, url) (found_ranges st);
                  postal_to_range := <[pc := (lower, upper)]> (postal_to_range st) |}
      | None => mret st
      end
  end.
End finder.

(** [sorted(set(codes))]: the codes, each once, in ascending order. *)
Fixpoint insert_code (x : Z) (l : list Z) : list Z :=
  match l with
  | [] => [x]
  | y :: l' =>
      if x <? y then x :: l
      else if x =? y then l
      else y :: insert_code x l'
  end.
Definition sorted_set (codes : list Z) : list Z := foldr insert_code [] codes.

(** [sorted(found_ranges.items())]: the keys of a dictionary differ, so
    the items come in the order of their lower bounds. *)
Fixpoint insert_range (x : Z * (Z * pystr)) (l : list (Z * (Z * pystr)))
  : list (Z * (Z * pystr)) :=
  match l with
  | [] => [x]
  | y :: l' => if x.1 <=? y.1 then x :: l else y :: insert_range x l'
  end.
Definition sorted_ranges (found : odict Z (Z * pystr)) : list (Z * (Z * pystr)) :=
  foldr insert_range [] found.

(** What the command leaves: the URLs written to the output file, the two
    dictionaries, and the codes reported as not covered. *)
Record FinderReport : Type := {
  urls : list pystr;
  final : FinderState;
  uncovered : list Z
}.

Section find_pdfs.
Context {W : Type}.
Variable check_url : pystr → W → bool * W.

(** [cmd_find_pdfs], from the values of the postal code column on:
    [input_exists] is the test on the input path, [column] holds [str(pc)]
    for each value of the first column with a known name, [None] when the
    sheet has no such column. The result is the exit status and, when the
    output file is written, the report. *)
Definition cmd_find_pdfs (input_exists : bool) (column : option (list pystr))
  : IO W (Z * option FinderReport) :=
  if negb input_exists then mret (1, None)
  else
    match column with
    | None => mret (1, None)
    | Some cells =>
        codes ← pure_io (mapM (λ s, match PyInt.int (zfill 5 s) with
                                      | Some n => Ok n
                                      | None => Raise ValueError
                                      end) cells);
        let postal_codes := sorted_set codes in
        _ ← pure_io (mapM format_05d (take 10 postal_codes));
        _ ← pure_io (match last postal_codes with
                     | Some pc => format_05d pc
                     | None => Raise IndexError
                     end);
        st ← foldIO (find_pdfs_step check_url) postal_codes
                    {| found_ranges := []; postal_to_range := ∅ |};
        let urls := map (λ '(_, (_, url)), url) (sorted_ranges (found_ranges st)) in
        let uncovered :=
          List.filter (λ pc, bool_decide (postal_to_range st !! pc = None))
                      postal_codes in
        _ ← pure_io (mapM format_05d uncovered);
        mret (0, Some {| urls := urls; final := st; uncovered := uncovered |})
    end.
End find_pdfs.

(** ** US zone parser: the ZIP range of a row *)

(** [split_zip_range]: unpacking anything but two parts raises
    [ValueError]. *)
Definition split_zip_range (zip_range : pystr) : Res (pystr * pystr) :=
  if contains [hyphen] zip_range then
    match split_on hyphen zip_range with
    | [start_; end_] => Ok (strip start_, strip end_)
    | _ => Raise ValueError
    end
  else Ok (strip zip_range, strip zip_range).

(** ** Rate sheet generator: the zone file of a postal code *)

(** [s.rfind(c)], as the index of the last occurrence. *)
Fixpoint rfind_from (c : N) (s : pystr) (i : nat) (best : option nat) : option nat :=
  match s with
  | [] => best
  | x :: s' => rfind_from c s' (S i) (if (x =? c)%N then Some i else best)
  end.
Definition rfind (c : N) (s : pystr) : option nat := rfind_from c s 0 None.

Definition full_stop : N := 46%N.

(** [PurePath.stem] on a file name: the name without its last suffix; a
    dot at the start or at the end of the name starts no suffix. *)
Definition stem (name : pystr) : pystr :=
  match rfind full_stop name with
  | Some i =>
      if (0 <? i)%nat && (i <? length name - 1)%nat then take i name else name
  | None => name
  end.

(** The body of the loop over the directory: the file name is that of a
    range that holds the code. A lock file, a stem without hyphen, a stem
    that is not made of two parts and a part that is no integer are passed
    over. *)
Definition zone_file_covers (postal_int : Z) (name : pystr) : bool :=
  if startswith (py "~$") name then false
  else
    let stem := stem name in
    if negb (contains [hyphen] stem) then false
    else
      match split_on hyphen stem with
      | [start_str; end_str] =>
          match PyInt.int start_str with
          | Some start_range =>
              match PyInt.int end_str with
              | Some end_range =>
                  (start_range <=? postal_int) && (postal_int <=? end_range)
              | None => false
              end
          | None => false
          end
      | _ => false
      end.

(** [find_zone_file]: [listing] holds the names of the files
    [outputs_path.glob('*.xlsx')] yields, in its order. The conversion of
    the postal code is outside any [try]. *)
Definition find_zone_file (postal_code : pystr) (listing : list pystr)
  : Res (option pystr) :=
  match PyInt.int (zfill 5 postal_code) with
  | None => Raise ValueError
  | Some postal_int => Ok (List.find (zone_file_covers postal_int) listing)
  end.

(** ** Rate sheet fixer: the headers of row 3 *)

(** The value of a cell: nothing, a string, or a value of another kind
    (a number, a date), of which only the kind matters here. *)
Inductive cell_value (V : Type) : Type :=
| VNone
| VStr (s : pystr)
| VOther (v : V).
Arguments VNone {V}.
Arguments VStr {V} s.
Arguments VOther {V} v.

(** A cell of a row: a merged cell, or a cell with its value. *)
Inductive ws_cell (V : Type) : Type :=
| Merged
| Plain (value : cell_value V).
Arguments Merged {V}.
Arguments Plain {V} value.

(** [re.match(r'^Zone 0(\d)$', value)]: group 1 when the pattern matches;
    [$] also matches before a line break that ends the string. *)
Definition zone0_match (value : pystr) : option N :=
  if startswith (py "Zone 0") value then
    match drop 6 value with
    | [d] => if isdigit d then Some d else None
    | [d; nl] => if isdigit d && (nl =? newline)%N then Some d else None
    | _ => None
    end
  else None.

Section fixer.
Context {V : Type}.

(** One turn of the loop over the cells of row 3. *)
Definition fix_header (st : list (ws_cell V) * Z) (c : ws_cell V)
  : list (ws_cell V) * Z :=
  let '(cells, fixes) := st in
  match c with
  | Plain (VStr value) =>
      match zone0_match value with
      | Some d => (cells ++ [Plain (VStr (py "Zone " ++ [d]))], fixes + 1)
      | None => (cells ++ [c], fixes)
      end
  | _ => (cells ++ [c], fixes)
  end.

(** [fix_zone_headers] on the cells of row 3: the row it leaves and the
    number of fixes it returns. *)
Definition fix_zone_headers (row3 : list (ws_cell V)) : list (ws_cell V) * Z :=
  fold_left fix_header row3 ([], 0).
End fixer.

(** ** The Excel writer *)

(** The value written to a cell. [XFloat d] stands for [float(d)], the
    float nearest to the decimal [d]; [XStr s] is the string as it is
    given, which is what the cell holds when [s] is [storable]. *)
Inductive xl_value : Type :=
| XStr (s : pystr)
| XInt (n : Z)
| XFloat (d : Decimal).

(** The cells of a worksheet that hold a value, by row and column. *)
Abbreviation Sheet := (gmap (Z * Z) xl_value).

(** [ws.cell(row=r, column=c, value=v)]. *)
Definition put (r c : Z) (v : xl_value) (ws : Sheet) : Sheet := <[(r, c) := v]> ws.

(** The values of a row, written from column 1 on. *)
Definition put_cells (r : Z) (values : list xl_value) (ws : Sheet) : Sheet :=
  fold_left (λ (ws : Sheet) '(c, v), put r c v ws)
            (zip (seqZ 1 (Z.of_nat (length values))) values) ws.

(** [float(d)]: a signalling NaN raises [ValueError]. *)
Definition to_float (d : Decimal) : Res xl_value :=
  match d with
  | DsNaN => Raise ValueError
  | _ => Ok (XFloat d)
  end.

Definition zone_headers : list pystr :=
  map py ["Country Name"; "Country Symbol"; "Zone"; "City";
          "Start Postal Code"; "End Postal Code"]%string.

Definition zone_cells (r : ZoneDatasetRow) : list xl_value :=
  [XStr (country_name r); XStr (country_symbol r); XInt (zone r);
   XStr (city r); XStr (start_postal r); XStr (end_postal r)].

(** The sheet of the destination zones: a title, a note, the headers in
    row 3 and the rows of [zones_data] from row 4 on. *)
Definition zones_sheet (zones_data : list ZoneDatasetRow) : Sheet :=
  let ws := put 1 1 (XStr (py "Destination Zones")) ∅ in
  let ws := put 2 1 (XStr (py "Zones should be a number from 1 to 16")) ws in
  let ws := put_cells 3 (map XStr zone_headers) ws in
  fold_left (λ (ws : Sheet) '(row_num, r), put_cells row_num (zone_cells r) ws)
            (zip (seqZ 4 (Z.of_nat (length zones_data))) zones_data) ws.

(** [f"Zone {zone}"] for a zone from 1 to 16. *)
Definition zone_title (zone : Z) : pystr := py "Zone " ++ digits_of (Z.to_N zone).

(** The loop over [range(1, 17)] for the row of a weight. *)
Definition write_price (entry : gmap Z Decimal) (row_num : Z) (ws : Sheet) (zone : Z)
  : Res Sheet :=
  match entry !! zone with
  | Some d => v ← to_float d; Ok (put row_num (zone + 1) v ws)
  | None => Ok ws
  end.

(** One turn of the loop over [weight_range]; the state is the sheet and
    [row_num]. *)
Definition write_weight (rates : RateTable) (st : Sheet * Z) (weight : Z)
  : Res (Sheet * Z) :=
  let '(ws, row_num) := st in
  match rates !! weight with
  | None => Ok st
  | Some entry =>
      ws ← foldM (write_price entry row_num) (range 1 17)
                 (put row_num 1 (XInt weight) ws);
      Ok (ws, row_num + 1)
  end.

Definition weight_range (is_freight : bool) : list Z :=
  if is_freight then range 151 2001 else range 1 151.

(** The three rows at the top of the sheet of a service. *)
Definition service_top (service_name : pystr) : Sheet :=
  let ws := put 1 1 (XStr service_name) ∅ in
  let ws := put 2 1 (XStr (py "Rates are specified in ($) CAD: 2025")) ws in
  let ws := put 3 1 (XStr (py "Weight (lb)")) ws in
  fold_left (λ (ws : Sheet) zone, put 3 (zone + 1) (XStr (zone_title zone)) ws)
            (range 1 17) ws.

(** The sheet of a service. *)
Definition service_sheet (service_name : pystr) (rates : RateTable) (is_freight : bool)
  : Res Sheet :=
  st ← foldM (write_weight rates) (weight_range is_freight)
             (service_top service_name, 4);
  Ok st.1.

(** The workbook: its sheets in order, each with the title asked of
    [create_sheet]. openpyxl gives a sheet another title only when the one
    asked is empty or is, up to the case of the letters, the title of an
    earlier sheet. *)
Definition Workbook : Type := list (pystr * Sheet).

(** The characters openpyxl refuses in the title of a sheet: a backslash,
    an asterisk, a question mark, a colon, a slash or a square bracket. *)
Definition invalid_title_character (c : N) : bool :=
  bool_decide (c ∈ [92; 42; 63; 58; 47; 91; 93]%N).

(** [wb.create_sheet(title=title)]: openpyxl raises [ValueError] on a
    title that holds a character it refuses. *)
Definition create_sheet (title : pystr) : Res pystr :=
  if existsb invalid_title_character title then Raise ValueError else Ok title.

(** One turn of the loop over [services_data]: the sheet of a service,
    created under the first 31 characters of its name and then filled. *)
Definition service_tab (service_name : pystr) (rates : RateTable) (is_freight : bool)
  : Res (pystr * Sheet) :=
  title ← create_sheet (take 31 service_name);
  ws ← service_sheet service_name rates is_freight;
  Ok (title, ws).

(** [wb.save(output_path)]: openpyxl raises [IndexError] when the workbook
    has no sheet; the writing of the file itself is taken to succeed. *)
Definition save (wb : Workbook) : Res Workbook :=
  match wb with
  | [] => Raise IndexError
  | _ => Ok wb
  end.

(** [write_ca_excel]: the workbook saved. *)
Definition write_ca_excel (services_data : list (pystr * RateTable * bool))
    (zones_data : option (list ZoneDatasetRow)) : Res Workbook :=
  let zones_tab :=
    match zones_data with
    | Some (r :: rows) => [(py "Zones", zones_sheet (r :: rows))]
    | _ => []
    end in
  tabs ← mapM (λ '(service_name, rates, is_freight),
                 service_tab service_name rates is_freight)
              services_data;
  save (zones_tab ++ tabs).

Section ca_command.
Context {cm : CaseMapping}.

(** [cmd_parse_ca_rates]: the exit status and, when the workbook is saved,
    what was handed to the writer and the workbook. [input_exists] is the
    test on the input path, [origin] is [args.origin]. *)
Definition cmd_parse_ca_rates (input_exists : bool) (origin : option pystr)
    (pdf : Pdf) : Res (Z * option (Handoff * Workbook)) :=
  if negb input_exists then Ok (1, None)
  else
    h ← ca_rates_handoff origin pdf;
    wb ← write_ca_excel (services_data h) (zones_data h);
    Ok (0, Some (h, wb)).
End ca_command.

(** What the command leaves for the origin A1B on a document: the exit
    status, and what was handed to the writer with the workbook saved. *)
Definition outcome_for (pdf : Pdf) : Z * option (Handoff * Workbook) :=
  value_or (1, None)
           (cmd_parse_ca_rates (cm:=ascii_case) true (Some (py "A1B")) pdf).

(** The titles of the sheets of the workbook saved. *)
Definition saved_titles (outcome : Z * option (Handoff * Workbook))
  : option (list pystr) :=
  (λ written, map fst written.2) <$> outcome.2.

(** The command fails for the document: it raises, or its exit status is
    not 0. *)
Definition hard_failure (r : Res (Z * option (Handoff * Workbook))) : Prop :=
  match r with
  | Raise _ => True
  | Ok (status, _) => status ≠ 0
  end.

(** ** What is said of the strings of digits *)

(** An ASCII digit. *)
Definition ascii_digit (c : N) : bool := in_range 48 57 c.

(** The number of hyphens of a string. *)
Definition hyphens (s : pystr) : nat :=
  length (List.filter (λ c, (c =? hyphen)%N) s).

(** What stands before the first hyphen, and what stands after it. *)
Fixpoint before_hyphen (s : pystr) : pystr :=
  match s with
  | [] => []
  | c :: s' => if (c =? hyphen)%N then [] else c :: before_hyphen s'
  end.
Fixpoint after_hyphen (s : pystr) : pystr :=
  match s with
  | [] => []
  | c :: s' => if (c =? hyphen)%N then s' else after_hyphen s'
  end.

(** The name of the zone file made from the PDF of a range: the stem of
    the PDF, which is the range as the URL writes it, and the suffix of
    the workbooks. *)
Definition zone_file_name (l u : pystr) : pystr :=
  l ++ hyphen :: u ++ py ".xlsx".

(** ** What is said of the URL finder *)

(** The ranges the finder may ask for, in its order: for each lower bound
    tried, the sizes whose range holds the code. *)
Definition candidates (pc : Z) : list (Z * Z) :=
  lower ← possible_lowers pc;
  size ← sizes;
  if (lower <=? pc) && (pc <=? lower + size - 1) then [(lower, lower + size - 1)]
  else [].

Section probe.
Context {W : Type}.
Variable check_url : pystr → W → bool * W.

(** Asking for the ranges of a list in turn, up to the first that
    exists. *)
Fixpoint probe (ranges : list (Z * Z)) : IO W (option found_range) :=
  match ranges with
  | [] => mret None
  | (lower, upper) :: ranges' =>
      url ← pure_io (pdf_url lower upper);
      found ← request check_url url;
      if found : bool then mret (Some (lower, upper, url))
      else probe ranges'
  end.
End probe.

(** A server that holds the PDF of one URL, and one that holds the PDFs of
    a list of URLs. *)
Definition serves (known : list pystr) (url : pystr) (w : unit) : bool * unit :=
  (bool_decide (url ∈ known), w).

Definition url_12300 : pystr :=
  py "https://www.fedex.com/ratetools/documents2/12300-12399.pdf".
Definition url_00000 : pystr :=
  py "https://www.fedex.com/ratetools/documents2/00000-00199.pdf".
Definition url_00000_short : pystr :=
  py "https://www.fedex.com/ratetools/documents2/00000-00099.pdf".

(** ** What is said of the state of the finder command *)

(** The lower bounds of [found_ranges] differ, each range has the URL of
    the naming scheme, and a code of [postal_to_range] lies in the range
    noted for it, which [found_ranges] holds or has widened since. *)
Definition finder_inv (st : FinderState) : Prop :=
  NoDup (map fst (found_ranges st))
  ∧ (∀ lower upper url, (lower, (upper, url)) ∈ found_ranges st →
       pdf_url lower upper = Ok url)
  ∧ ∀ pc lower upper, postal_to_range st !! pc = Some (lower, upper) →
      lower ≤ pc ≤ upper
      ∧ ∃ upper' url, odict_get lower (found_ranges st) = Some (upper', url)
                      ∧ upper ≤ upper'.

(** A cell of the column that [int] refuses. *)
Definition bad_cell (s : pystr) : Prop := PyInt.int (zfill 5 s) = None.

(** ** What is said of the headers fixed *)

Section fixed.
Context {V : Type}.

(** The cell holds a string the pattern matches. *)
Definition needs_fix (c : ws_cell V) : bool :=
  match c with
  | Plain (VStr value) => bool_decide (is_Some (zone0_match value))
  | _ => false
  end.

(** The cell after the fix. *)
Definition fixed (c : ws_cell V) : ws_cell V :=
  match c with
  | Plain (VStr value) =>
      match zone0_match value with
      | Some d => Plain (VStr (py "Zone " ++ [d]))
      | None => c
      end
  | _ => c
  end.
End fixed.

(** ** What is said of the sheets written *)

(** The control characters openpyxl refuses in the string of a cell: it
    raises [IllegalCharacterError] on them. *)
Definition illegal_character (c : N) : bool :=
  in_range 0 8 c || in_range 11 12 c || in_range 14 31 c.

(** A string that a cell stores as it is given: openpyxl cuts a string
    after 32767 characters and raises on an illegal character. *)
Definition storable (s : pystr) : bool :=
  (Z.of_nat (length s) <=? 32767) && forallb (λ c, negb (illegal_character c)) s.

(** The strings of a row of the zones can be stored. *)
Definition storable_row (r : ZoneDatasetRow) : bool :=
  storable (country_name r) && storable (country_symbol r) && storable (city r)
  && storable (start_postal r) && storable (end_postal r).

(** A title that [create_sheet] takes as it is: not empty, as an empty
    title gives way to the default one, and without a character it
    refuses. *)
Definition valid_title (title : pystr) : bool :=
  negb (Str.eqb title []) && forallb (λ c, negb (invalid_title_character c)) title.

(** The weights of the table that the sheet of a service lists, in its
    order. *)
Definition listed_weights (rates : RateTable) (is_freight : bool) : list Z :=
  List.filter (λ w, bool_decide (is_Some (rates !! w))) (weight_range is_freight).

(** The cell of column [c] in the row of a weight: the weight in column
    1, the price of zone [z] in column [z + 1] for the zones 1 to 16. *)
Definition row_cell (rates : RateTable) (w c : Z) : option xl_value :=
  if c =? 1 then Some (XInt w)
  else if (2 <=? c) && (c <=? 17) then XFloat <$> price_at rates w (c - 1)
  else None.

(** A price of the table that the sheet of the service has room for and
    that is a signalling NaN. *)
Definition signalling_price (rates : RateTable) (is_freight : bool) : Prop :=
  ∃ w z, w ∈ weight_range is_freight ∧ 1 ≤ z ≤ 16
         ∧ price_at rates w z = Some DsNaN.

(** The title asked for the sheet of a service, the first 31 characters
    of its name, holds a character refused in a title. *)
Definition refused_title (service_name : pystr) : Prop :=
  ∃ c, c ∈ take 31 service_name ∧ invalid_title_character c = true.

(** A table whose only price is a signalling NaN. *)
Definition signalling_rates : RateTable := {[ 5 := {[ 2 := DsNaN ]} ]}.

(** The rows of the zones for one range, from A1A to A9Z, in zone 3. *)
Definition sample_zone_rows : list ZoneDatasetRow :=
  [{| country_name := py "Canada"; country_symbol := py "CA"; zone := 3;
      city := []; start_postal := py "A1A"; end_postal := py "A9Z" |}].

(** A document of four pages, the span of a flat-rate service, whose
    first page is the sample page of the economy service. *)
Definition blank_page : Page := {| extract_text := None; extract_tables := [] |}.
Definition economy_document : Pdf :=
  [economy_page; blank_page; blank_page; blank_page].

(** The titles of the sheets of a workbook. *)
Definition titles (wb : Workbook) : list pystr := map fst wb.

(** A table with two weights, and the sheet written for it. *)
Definition sample_rates : RateTable :=
  {[ 7 := {[ 2 := DFin false 1250 (-2) ]}; 5 := {[ 2 := DFin false 1050 (-2) ]} ]}.
Definition sample_sheet : Sheet :=
  value_or ∅ (service_sheet (py "FedEx 2Day") sample_rates false).

(** The zones of every entry of a table are zone numbers. *)
Definition zoned (rates : RateTable) : Prop :=
  ∀ w entry, rates !! w = Some entry → zone_keys entry.

(** The sheet written for the sample page of the economy service. *)
Definition economy_sheet : Sheet :=
  value_or ∅ (service_sheet (py "FedEx Economy") economy_table false).

Section resolves.
Context {cm : CaseMapping}.

(** An origin was given and falls in a range of the postal map of the
    document. *)
Definition origin_resolves (pdf : Pdf) (origin : option pystr) : Prop :=
  ∃ o postal_zone_map,
    origin = Some o ∧ o ≠ []
    ∧ parse_postal_code_to_zone_mapping pdf (find_zone_index_pages pdf).1
      = Ok postal_zone_map
    ∧ is_Some (get_zone_code_for_postal o postal_zone_map).
End resolves.

(** * Properties *)

(** ** Results of the exception monad *)

Lemma bind_Ok_inv {A B : Type} (m : Res A) (k : A → Res B) (b : B) :
  m ≫= k = Ok b → ∃ a, m = Ok a ∧ k a = Ok b.
Proof. destruct m as [a|e]; simpl; [eauto | discriminate]. Qed.

Lemma bind_Ok {A B : Type} (a : A) (k : A → Res B) : Ok a ≫= k = k a.
Proof. done. Qed.

Lemma returns_value_or {A : Type} (d : A) (r : Res A) :
  returns r = true → r = Ok (value_or d r).
Proof. by destruct r. Qed.

(** ** Decimal arithmetic *)

Module DecFacts.
Import Dec.

Lemma pow10_pos k : (0 < pow10 k)%N.
Proof. unfold pow10. apply N.neq_0_lt_0, N.pow_nonzero. discriminate. Qed.

Lemma pow10_succ k : 0 ≤ k → pow10 (k + 1) = (10 * pow10 k)%N.
Proof.
  intros Hk. unfold pow10.
  replace (Z.to_N (k + 1)) with (N.succ (Z.to_N k)) by lia.
  apply N.pow_succ_r'.
Qed.

Lemma pow10_add a b : 0 ≤ a → 0 ≤ b → pow10 (a + b) = (pow10 a * pow10 b)%N.
Proof.
  intros Ha Hb. unfold pow10.
  rewrite Z2N.inj_add by done. apply N.pow_add_r.
Qed.

Lemma pow10_le a b : a ≤ b → (pow10 a ≤ pow10 b)%N.
Proof. intros Hab. unfold pow10. apply N.pow_le_mono_r; [discriminate | lia]. Qed.

Lemma pow10_lt a b : 0 ≤ a → a < b → (pow10 a < pow10 b)%N.
Proof. intros Ha Hab. unfold pow10. apply N.pow_lt_mono_r; lia. Qed.

Lemma pow10_lt_inv a b : 0 ≤ b → (pow10 a < pow10 b)%N → a < b.
Proof.
  intros Hb Hlt. destruct (Z_lt_le_dec a b) as [|Hge]; [done|].
  apply pow10_le in Hge. lia.
Qed.

Lemma ndigits_from_spec fuel from c :
  1 ≤ from →
  (c < pow10 (from + Z.of_nat fuel))%N →
  (from = 1 ∨ (pow10 (from - 1) ≤ c)%N) →
  let k := ndigits_from fuel from c in
  from ≤ k ∧ (c < pow10 k)%N ∧ (k = 1 ∨ (pow10 (k - 1) ≤ c)%N).
Proof.
  revert from. induction fuel as [|fuel IH]; intros from Hfrom Hub Hlb; simpl.
  - replace (from + Z.of_nat 0) with from in Hub by lia. auto with lia.
  - destruct (N.ltb_spec c (pow10 from)) as [Hlt|Hge].
    + auto with lia.
    + destruct (IH (from + 1)) as (H1 & H2 & H3).
      * lia.
      * replace (from + 1 + Z.of_nat fuel) with (from + Z.of_nat (S fuel)) by lia.
        done.
      * right. by replace (from + 1 - 1) with from by lia.
      * auto with lia.
Qed.

Lemma lt_pow10_size c : (c < pow10 (1 + Z.of_nat (N.to_nat (N.size c))))%N.
Proof.
  unfold pow10.
  replace (Z.to_N (1 + Z.of_nat (N.to_nat (N.size c)))) with (N.succ (N.size c)) by lia.
  destruct (N.eq_dec c 0%N) as [->|Hc].
  - simpl. lia.
  - eapply N.lt_le_trans; [apply N.size_gt|].
    etrans; [apply (N.pow_le_mono_l 2 10); lia|].
    apply N.pow_le_mono_r; lia.
Qed.

Lemma ndigits_spec c :
  1 ≤ ndigits c ∧ (c < pow10 (ndigits c))%N
  ∧ (ndigits c = 1 ∨ (pow10 (ndigits c - 1) ≤ c)%N).
Proof.
  unfold ndigits. apply ndigits_from_spec; [lia | apply lt_pow10_size | by left].
Qed.

(** A coefficient has at most [k] digits exactly when it is below [10^k]. *)
Lemma ndigits_le c k : 1 ≤ k → (c < pow10 k)%N → ndigits c ≤ k.
Proof.
  intros Hk Hlt. destruct (ndigits_spec c) as (H1 & _ & [->|H3]); [done|].
  assert (pow10 (ndigits c - 1) < pow10 k)%N as Hp by lia.
  apply pow10_lt_inv in Hp; lia.
Qed.

Lemma ndigits_lower c : (0 < c)%N → (pow10 (ndigits c - 1) ≤ c)%N.
Proof.
  intros Hc. destruct (ndigits_spec c) as (_ & _ & [->|H3]); [|done].
  simpl. unfold pow10. simpl. lia.
Qed.

Lemma pow10_nonpos k : k ≤ 0 → pow10 k = 1%N.
Proof. intros Hk. unfold pow10. replace (Z.to_N k) with 0%N by lia. done. Qed.

Lemma pow10_1 : pow10 1 = 10%N.
Proof. done. Qed.
Lemma pow10_2 : pow10 2 = 100%N.
Proof. done. Qed.

(** Rounding the low digits away is rounding the fraction half up. *)
Lemma round_half_up_div c k :
  round_half_up c k = ((2 * c + pow10 k) / (2 * pow10 k))%N.
Proof.
  unfold round_half_up. pose proof (pow10_pos k) as Hp.
  set (p := pow10 k) in *.
  pose proof (N.div_mod c p ltac:(lia)) as Hdm.
  pose proof (N.mod_lt c p ltac:(lia)) as Hr.
  set (q := (c / p)%N) in *. set (r := (c mod p)%N) in *.
  destruct (N.leb_spec p (2 * r)) as [Hle|Hgt].
  - apply (N.div_unique _ _ _ (2 * r - p)%N); nia.
  - apply (N.div_unique _ _ _ (2 * r + p)%N); nia.
Qed.

Lemma rescale_exact_cents w c e :
  rescale (Z.to_N w * c) e cents_exp = exact_cents w c e.
Proof.
  unfold rescale, exact_cents, cents_exp.
  set (x := (Z.to_N w * c)%N).
  destruct (Z.leb_spec (-2) e) as [Hle|Hlt].
  - destruct (Z_le_gt_dec 0 e) as [He|He].
    + rewrite (pow10_nonpos (- e)) by lia.
      replace (e - -2) with (e + 2) by lia.
      rewrite pow10_add, pow10_2 by lia.
      apply (N.div_unique _ _ _ 1%N); nia.
    + rewrite (pow10_nonpos e) by lia.
      assert (e = -1 ∨ e = -2) as [-> | ->] by lia.
      * change (pow10 (-1 - -2)) with 10%N. change (pow10 (- -1)) with 10%N.
        apply (N.div_unique _ _ _ 10%N); lia.
      * change (pow10 (-2 - -2)) with 1%N. change (pow10 (- -2)) with 100%N.
        apply (N.div_unique _ _ _ 100%N); lia.
  - rewrite round_half_up_div, (pow10_nonpos e) by lia.
    replace (- e) with (2 + (-2 - e)) by lia.
    rewrite pow10_add, pow10_2 by lia.
    pose proof (pow10_pos (-2 - e)) as Hp. set (p := pow10 (-2 - e)) in *.
    replace (200 * (x * 1) + 100 * p)%N with ((2 * x + p) * 100)%N by lia.
    replace (2 * (100 * p))%N with ((2 * p) * 100)%N by lia.
    rewrite N.Div0.div_mul_cancel_r by lia. done.
Qed.

Lemma round_half_up_ge c k : (c / pow10 k ≤ round_half_up c k)%N.
Proof. unfold round_half_up. case_match; lia. Qed.

(** A result that fits the context is left as it is. *)
Lemma fix_fits neg c e :
  (c < pow10 28)%N → Etiny ≤ e → e ≤ 25 → fix_ neg c e = Ok (DFin neg c e).
Proof.
  intros Hc Hlo Hhi. unfold fix_.
  destruct (N.eqb_spec c 0) as [->|Hnz].
  - f_equal. f_equal. unfold Etiny, Emin, Emax, prec in *. lia.
  - pose proof (ndigits_le c 28 ltac:(lia) Hc) as Hnd.
    unfold Etop, Etiny, Emin, Emax, prec in *.
    rewrite (proj2 (Z.ltb_ge _ _)) by lia.
    rewrite (proj2 (Z.ltb_ge _ _)) by lia.
    done.
Qed.

(** The size of a price bounds the size of what was rounded. *)
Lemma rescale_digits x e :
  (0 < x)%N → (rescale x e cents_exp < pow10 28)%N → ndigits x + e + 2 ≤ 28.
Proof.
  intros Hx Hlt. pose proof (ndigits_lower x Hx) as Hlow.
  pose proof (ndigits_spec x) as (Hnd & _ & _).
  unfold rescale, cents_exp in Hlt.
  destruct (Z.leb_spec (-2) e) as [Hle|Hgt].
  - assert (pow10 (ndigits x - 1 + (e - -2)) < pow10 28)%N as Hp.
    { rewrite pow10_add by lia.
      eapply N.le_lt_trans; [|exact Hlt]. apply N.mul_le_mono_r. done. }
    apply pow10_lt_inv in Hp; lia.
  - destruct (Z_le_gt_dec (ndigits x + e + 2) 28) as [|Hbig]; [done|exfalso].
    pose proof (round_half_up_ge x (-2 - e)) as Hge.
    assert (pow10 28 ≤ x / pow10 (-2 - e))%N; [|lia].
    apply N.div_le_lower_bound; [pose proof (pow10_pos (-2 - e)); lia|].
    rewrite N.mul_comm, <- pow10_add by lia.
    etrans; [|exact Hlow]. apply pow10_le. lia.
Qed.

Lemma of_int_nonneg w : 0 ≤ w → of_int w = DFin false (Z.to_N w) 0.
Proof.
  intros Hw. unfold of_int. rewrite (proj2 (Z.ltb_ge _ _)) by lia.
  f_equal. lia.
Qed.

(** On a rate that fits the context, the code computes the exact
    rounding. *)
Lemma price_of_fits w neg c e :
  0 < w → fits_context w (DFin neg c e) →
  price_of w (DFin neg c e) = Ok (DFin neg (exact_cents w c e) (-2)).
Proof.
  intros Hw (He & Hprod & Hprice).
  unfold price_of. rewrite of_int_nonneg by lia. simpl.
  change (0 + e) with e.
  rewrite <- rescale_exact_cents in Hprice |- *.
  set (x := (Z.to_N w * c)%N) in *.
  destruct (N.eq_dec x 0%N) as [Hx0|Hxnz].
  - rewrite Hx0 in *. unfold fix_ at 1. simpl.
    assert (rescale 0 e cents_exp = 0%N) as ->.
    { unfold rescale, round_half_up. case_match; [done|].
      rewrite N.Div0.div_0_l, N.Div0.mod_0_l.
      pose proof (pow10_pos (cents_exp - e)).
      rewrite (proj2 (N.leb_gt _ _)) by lia. done. }
    done.
  - pose proof (rescale_digits x e ltac:(lia) Hprice) as Hdig.
    pose proof (ndigits_spec x) as (Hnd & _ & _).
    rewrite fix_fits by (try done; lia). simpl.
    rewrite (proj2 (N.eqb_neq _ _)) by done.
    unfold adjusted, Emax, prec, cents_exp in *. cbv zeta.
    rewrite (proj2 (Z.ltb_ge _ _)) by lia.
    rewrite (proj2 (Z.ltb_ge _ _)) by lia.
    pose proof (ndigits_le _ 28 ltac:(lia) Hprice) as Hnd'.
    pose proof (ndigits_spec (rescale x e (-2))) as (Hnd1 & _ & _).
    rewrite (proj2 (Z.ltb_ge _ _)) by lia.
    rewrite (proj2 (Z.ltb_ge _ _)) by lia.
    rewrite fix_fits by (try done; unfold Etiny, Emin, prec; lia).
    done.
Qed.

End DecFacts.

(** ** Table normalizer *)

Section normalizer.

Lemma widest_cons (c : cell) (r : row) :
  widest (c :: r) = Nat.max (length (cell_lines_of c)) (widest r).
Proof. done. Qed.

Lemma cell_step_fold (r : row) cell_lines max_lines :
  fold_left cell_step r (cell_lines, max_lines)
  = (cell_lines ++ map kept_lines r, Nat.max max_lines (widest r)).
Proof.
  revert cell_lines max_lines.
  induction r as [|c r IH]; intros cell_lines max_lines; simpl.
  - by rewrite app_nil_r, Nat.max_0_r.
  - rewrite widest_cons.
    destruct c as [text|]; simpl; rewrite IH, <- app_assoc; simpl;
      f_equal; lia.
Qed.

Lemma line_count_widest (r : row) : line_count r = Nat.max 1 (widest r).
Proof.
  induction r as [|c r IH]; [done|].
  rewrite widest_cons. unfold line_count in *. simpl. rewrite IH. lia.
Qed.

Lemma new_row_kept (r : row) (i : nat) :
  new_row (map kept_lines r) i = stripped_sub_row r i.
Proof.
  unfold new_row, stripped_sub_row. rewrite map_map.
  apply map_ext. intros [text|]; simpl.
  - by destruct (split_lines text !! i).
  - by destruct i.
Qed.

Lemma normalize_step_emitted (table : list row) (r : row) :
  normalize_step table r = table ++ emitted r.
Proof.
  destruct r as [|c r]; [by rewrite app_nil_r|].
  unfold normalize_step, emitted.
  rewrite cell_step_fold, line_count_widest. simpl app.
  destruct (Nat.max 1 (widest (c :: r)) =? 1)%nat; [done|].
  f_equal. apply map_ext. intros i. apply (new_row_kept (c :: r)).
Qed.

Lemma normalize_fold (raw : raw_table) (table : list row) :
  fold_left normalize_step raw table = table ++ concat (map emitted raw).
Proof.
  revert table. induction raw as [|r raw IH]; intros table; simpl.
  - by rewrite app_nil_r.
  - by rewrite IH, normalize_step_emitted, <- app_assoc.
Qed.

Lemma emitted_length (r : row) :
  r ≠ [] → length (emitted r) = line_count r.
Proof.
  destruct r as [|c r]; [done|]. intros _. unfold emitted.
  destruct (Nat.eqb_spec (line_count (c :: r)) 1) as [->|_]; [done|].
  by rewrite length_map, length_seq.
Qed.

Lemma emitted_width (r : row) :
  Forall (λ out, length out = length r) (emitted r).
Proof.
  destruct r as [|c r]; [constructor|]. unfold emitted.
  destruct (line_count (c :: r) =? 1)%nat.
  - by repeat constructor.
  - apply Forall_forall. intros out Hin.
    apply list_elem_of_fmap in Hin as [i [-> _]].
    unfold stripped_sub_row. by rewrite length_map.
Qed.

End normalizer.

(** C4, as stated, fails: the code strips every line it splits off, so the
    first sub-row holds ["1 lb"] where the claim has [" 1 lb"]. *)
Lemma normalize_not_spec_padded :
  normalize_table padded_table ≠ normalize_spec padded_table.
Proof. vm_compute. discriminate. Qed.

(** C4, amended. The normalizer emits, for the rows of the raw table in
    their order, the rows of [emitted]: nothing for an empty row; the row
    itself, unchanged, when none of its cells has a second line; and else
    [L] sub-rows, sub-row [i] taking in each column the [i]-th line of the
    cell stripped of surrounding white space, or the empty string. A row
    that is not empty gives [L] output rows, each as wide as the row. *)
Theorem normalize_table_emitted (raw : raw_table) :
  normalize_table raw = concat (map emitted raw)
  ∧ Forall (λ r, (r = [] ∧ emitted r = [])
                 ∨ (length (emitted r) = line_count r
                    ∧ Forall (λ out, length out = length r) (emitted r))) raw.
Proof.
  split.
  - unfold normalize_table. by rewrite normalize_fold.
  - apply Forall_forall. intros r _. destruct r as [|c r]; [by left|].
    right. split; [by apply emitted_length | apply emitted_width].
Qed.

(** ** Service locator *)




Section locator.
Variable pdf : Pdf.

Lemma already_assigned_false (prev : list Service) (i : Z) :
  already_assigned prev i = false
  ↔ Forall (λ s, ¬ (fst (pages s) ≤ i ≤ snd (pages s))) prev.
Proof.
  unfold already_assigned. induction prev as [|s prev IH]; simpl.
  - split; [constructor | done].
  - rewrite orb_false_iff, IH, Forall_cons, andb_false_iff.
    rewrite Z.leb_gt, Z.leb_gt. intuition lia.
Qed.

(** The scan returns the first page, from [i0] on, that holds the title
    and is not claimed. *)
Lemma find_start_page_spec search prev (rest : list Page) (i0 : Z) :
  match find_start_page search prev i0 rest with
  | Some i =>
      i0 ≤ i
      ∧ (∃ page, rest !! Z.to_nat (i - i0) = Some page
                 ∧ title_found search page = true)
      ∧ already_assigned prev i = false
      ∧ ∀ j page, i0 ≤ j < i → rest !! Z.to_nat (j - i0) = Some page →
          title_found search page = true → already_assigned prev j = true
  | None =>
      ∀ j page, i0 ≤ j → rest !! Z.to_nat (j - i0) = Some page →
        title_found search page = true → already_assigned prev j = true
  end.
Proof.
  revert i0. induction rest as [|page rest IH]; intros i0; simpl.
  - intros j page _ Hlook. by rewrite lookup_nil in Hlook.
  - destruct (title_found search page) eqn:Htitle;
      destruct (already_assigned prev i0) eqn:Hassigned; simpl.
    2:{ split; [lia|]. split.
        { exists page. by replace (i0 - i0) with 0 by lia. }
        split; [done|]. intros j page' Hj. lia. }
    all: specialize (IH (i0 + 1));
      destruct (find_start_page search prev (i0 + 1) rest) as [i|].
    all: try destruct IH as (Hle & (page' & Hlook & Hfound) & Hfree & Hfirst).
    all: try (split; [lia|]; split;
              [exists page';
               replace (Z.to_nat (i - i0)) with (S (Z.to_nat (i - (i0 + 1)))) by lia;
               done|];
              split; [done|]).
    all: intros j pg Hj Hlook' Hfound';
      destruct (Z.eq_dec j i0) as [->|Hne];
      [replace (i0 - i0) with 0 in Hlook' by lia; simpl in Hlook';
       injection Hlook' as <-; congruence|].
    all: replace (Z.to_nat (j - i0)) with (S (Z.to_nat (j - (i0 + 1)))) in Hlook' by lia;
      simpl in Hlook'.
    all: first [by eapply Hfirst; [| exact Hlook' |]; [lia | done]
               | by eapply IH; [| exact Hlook' |]; [lia | done]].
Qed.




End locator.


(** ** Insertion-ordered dictionaries *)

Section odict_facts.
Context {K V : Type} `{EqDecision K}.
Implicit Types (d : odict K V) (k : K) (v : V).

Lemma odict_get_set_eq k v d : odict_get k (odict_set k v d) = Some v.
Proof.
  induction d as [|[k' v'] d IH]; simpl.
  - by rewrite decide_True.
  - destruct (decide (k = k')) as [->|Hne]; simpl.
    + by rewrite decide_True.
    + by rewrite decide_False.
Qed.

Lemma odict_get_set_ne k k' v d :
  k ≠ k' → odict_get k' (odict_set k v d) = odict_get k' d.
Proof.
  intros Hne. induction d as [|[k0 v0] d IH]; simpl.
  - by rewrite decide_False.
  - destruct (decide (k = k0)) as [->|Hk]; simpl.
    + by rewrite !decide_False.
    + destruct (decide (k' = k0)); [done | exact IH].
Qed.

Lemma odict_get_elem_of k v d : odict_get k d = Some v → (k, v) ∈ d.
Proof.
  induction d as [|[k' v'] d IH]; simpl; [done|].
  destruct (decide (k = k')) as [->|Hne].
  - intros [= ->]. left.
  - intros Hget. right. by apply IH.
Qed.

Lemma odict_elem_of_get k v d :
  NoDup (map fst d) → (k, v) ∈ d → odict_get k d = Some v.
Proof.
  induction d as [|[k' v'] d IH]; simpl; intros Hnd Hin.
  - by apply elem_of_nil in Hin.
  - apply NoDup_cons in Hnd as [Hnotin Hnd].
    apply elem_of_cons in Hin as [[= -> ->]|Hin].
    + by rewrite decide_True.
    + rewrite decide_False; [by apply IH|].
      intros ->. apply Hnotin. apply list_elem_of_fmap. by exists (k', v).
Qed.

Lemma odict_set_keys k v d :
  map fst (odict_set k v d)
  = if bool_decide (k ∈ map fst d) then map fst d else map fst d ++ [k].
Proof.
  induction d as [|[k' v'] d IH]; simpl; [done|].
  destruct (decide (k = k')) as [->|Hne]; simpl.
  - rewrite bool_decide_true; [done | left].
  - rewrite IH. destruct (bool_decide (k ∈ map fst d)) eqn:Hin.
    + apply bool_decide_eq_true in Hin.
      rewrite bool_decide_true; [done | by right].
    + apply bool_decide_eq_false in Hin.
      rewrite bool_decide_false; [done|].
      intros [?|?]%elem_of_cons; done.
Qed.

Lemma odict_set_NoDup k v d :
  NoDup (map fst d) → NoDup (map fst (odict_set k v d)).
Proof.
  intros Hnd. rewrite odict_set_keys. case_bool_decide as Hin; [done|].
  apply NoDup_app. split; [done|]. split; [|apply NoDup_singleton].
  intros x Hx ->%list_elem_of_singleton. done.
Qed.
End odict_facts.

(** ** The order of strings and of postal ranges *)

(** A comparison that decides equality and is a strict order on [Lt]. *)
Record OrderLaws {A : Type} (cmp : A → A → comparison) : Prop := {
  cmp_eq : ∀ a b, cmp a b = Eq ↔ a = b;
  cmp_antisym : ∀ a b, cmp b a = CompOpp (cmp a b);
  cmp_trans : ∀ a b c, cmp a b = Lt → cmp b c = Lt → cmp a c = Lt
}.

Lemma N_compare_laws : OrderLaws N.compare.
Proof.
  split.
  - apply N.compare_eq_iff.
  - intros a b. apply N.compare_antisym.
  - intros a b c. rewrite !N.compare_lt_iff. lia.
Qed.

Lemma Str_compare_laws : OrderLaws Str.compare.
Proof.
  split.
  - intros a. induction a as [|x a IH]; intros [|y b]; simpl; try done.
    destruct (N.compare_spec x y) as [->|Hlt|Hgt].
    + rewrite IH. split; [by intros -> | by intros [= ->]].
    + split; [done|]. intros [= -> _]. lia.
    + split; [done|]. intros [= -> _]. lia.
  - intros a. induction a as [|x a IH]; intros [|y b]; simpl; try done.
    rewrite (N.compare_antisym x y).
    destruct (x ?= y)%N; simpl; [apply IH | done | done].
  - intros a. induction a as [|x a IH]; intros [|y b] [|z c]; simpl; try done.
    destruct (N.compare_spec x y) as [->|Hxy|Hxy]; [| |done].
    + destruct (z ?= y)%N eqn:Hzy; rewrite N.compare_antisym, Hzy; simpl;
        [apply IH | done | done].
    + intros _. destruct (N.compare_spec y z) as [->|Hyz|Hyz]; [| |done].
      * by rewrite (proj2 (N.compare_lt_iff x z)).
      * intros _. rewrite (proj2 (N.compare_lt_iff x z)); [done | lia].
Qed.

(** The order of pairs inherits the laws of its components. *)
Lemma lex_laws {A B : Type} (cmpA : A → A → comparison) (cmpB : B → B → comparison) :
  OrderLaws cmpA → OrderLaws cmpB →
  OrderLaws (λ a b : A * B, lex (cmpA a.1 b.1) (cmpB a.2 b.2)).
Proof.
  intros HA HB. split.
  - intros [a1 a2] [b1 b2]; simpl. unfold lex.
    destruct (cmpA a1 b1) eqn:H1.
    + apply (cmp_eq _ HA) in H1 as ->. rewrite (cmp_eq _ HB).
      split; [by intros -> | by intros [= ->]].
    + split; [done|]. intros [= -> ->].
      by rewrite (proj2 (cmp_eq _ HA b1 b1)) in H1.
    + split; [done|]. intros [= -> ->].
      by rewrite (proj2 (cmp_eq _ HA b1 b1)) in H1.
  - intros [a1 a2] [b1 b2]; simpl. unfold lex.
    rewrite (cmp_antisym _ HA a1 b1).
    destruct (cmpA a1 b1); simpl; [apply (cmp_antisym _ HB) | done | done].
  - intros [a1 a2] [b1 b2] [c1 c2]; simpl. unfold lex.
    destruct (cmpA a1 b1) eqn:H1; [| |done].
    + apply (cmp_eq _ HA) in H1 as ->.
      destruct (cmpA b1 c1); [apply (cmp_trans _ HB) | done | done].
    + intros _. destruct (cmpA b1 c1) eqn:H2; [| |done].
      * apply (cmp_eq _ HA) in H2 as <-. by rewrite H1.
      * intros _. by rewrite (cmp_trans _ HA _ _ _ H1 H2).
Qed.

Lemma range_compare_laws : OrderLaws range_compare.
Proof. apply (lex_laws Str.compare Str.compare); apply Str_compare_laws. Qed.

Lemma item_compare_laws : OrderLaws item_compare.
Proof.
  apply (lex_laws range_compare Str.compare);
    [apply range_compare_laws | apply Str_compare_laws].
Qed.

(** ** Sorting the postal map *)

Definition item_le (a b : item) : Prop := item_leb a b = true.

Lemma item_le_total a b : item_leb a b = false → item_le b a.
Proof.
  unfold item_le, item_leb.
  rewrite (cmp_antisym _ item_compare_laws a b).
  by destruct (item_compare a b).
Qed.

Lemma item_le_trans a b c : item_le a b → item_le b c → item_le a c.
Proof.
  unfold item_le, item_leb. intros Hab Hbc.
  destruct (item_compare a b) eqn:H1; [| |done].
  - by apply (cmp_eq _ item_compare_laws) in H1 as ->.
  - destruct (item_compare b c) eqn:H2; [| |done].
    + apply (cmp_eq _ item_compare_laws) in H2 as <-. by rewrite H1.
    + by rewrite (cmp_trans _ item_compare_laws _ _ _ H1 H2).
Qed.

Lemma insert_sorted_perm x l : Permutation (insert_sorted x l) (x :: l).
Proof.
  induction l as [|y l IH]; simpl; [done|].
  destruct (item_leb x y); [done|].
  rewrite IH. apply perm_swap.
Qed.

Lemma sorted_perm l : Permutation (sorted l) l.
Proof.
  induction l as [|x l IH]; simpl; [done|].
  by rewrite insert_sorted_perm, IH.
Qed.

Lemma insert_sorted_sorted x l :
  StronglySorted item_le l → StronglySorted item_le (insert_sorted x l).
Proof.
  induction l as [|y l IH]; simpl; intros Hs.
  - repeat constructor.
  - apply StronglySorted_inv in Hs as [Hl Hy].
    destruct (item_leb x y) eqn:Hxy.
    + constructor; [by constructor|].
      constructor; [done|].
      eapply Forall_impl; [exact Hy|]. intros z Hz.
      by apply (item_le_trans x y z).
    + constructor; [by apply IH|].
      rewrite insert_sorted_perm. constructor; [|done].
      by apply item_le_total.
Qed.

Lemma sorted_sorted l : StronglySorted item_le (sorted l).
Proof.
  induction l as [|x l IH]; simpl; [constructor|].
  by apply insert_sorted_sorted.
Qed.

(** With one item per range, ascending items are strictly ascending
    ranges. *)
Lemma sorted_ranges_ascending (l : list item) :
  NoDup (map fst l) → StronglySorted item_le l →
  StronglySorted range_lt (map fst l).
Proof.
  induction l as [|x l IH]; simpl; intros Hnd Hs; [constructor|].
  apply NoDup_cons in Hnd as [Hnotin Hnd].
  apply StronglySorted_inv in Hs as [Hl Hx].
  constructor; [by apply IH|].
  apply Forall_forall. intros k Hk.
  apply list_elem_of_fmap in Hk as [y [-> Hy]].
  rewrite Forall_forall in Hx. specialize (Hx y Hy).
  unfold item_le, item_leb, item_compare, lex in Hx. unfold range_lt.
  destruct (range_compare x.1 y.1) eqn:Hc; [|done|done].
  apply (cmp_eq _ range_compare_laws) in Hc.
  exfalso. apply Hnotin. rewrite Hc. apply list_elem_of_fmap. by exists y.
Qed.

(** ** Zone resolver *)

Lemma zone_row_range oz zm (it : item) : row_range (zone_row oz zm it) = it.1.
Proof. by destruct it as [[s e] dz]. Qed.

(** C5. Once the origin resolves to a zone code, the resolver gives one
    row per range of the postal map: the ranges of the rows are the ranges
    of the map, each once, in strictly ascending order; and the zone of a
    row is the matrix entry for the origin zone and the zone code of its
    range, or 16 when the matrix has no such entry. *)
Theorem generate_zones_data_rows {cm : CaseMapping} (origin_postal : pystr)
    (postal_zone_map : PostalZoneMap) (zone_matrix : ZoneMatrix) (origin_zone : pystr) :
  NoDup (map fst postal_zone_map) →
  get_zone_code_for_postal origin_postal postal_zone_map = Some origin_zone →
  let rows := generate_zones_data origin_postal postal_zone_map zone_matrix in
  length rows = length postal_zone_map
  ∧ Permutation (map row_range rows) (map fst postal_zone_map)
  ∧ StronglySorted range_lt (map row_range rows)
  ∧ Forall (λ r, ∃ dest_zone,
              odict_get (row_range r) postal_zone_map = Some dest_zone
              ∧ zone r = match zone_matrix !! (origin_zone, dest_zone) with
                         | Some z => z
                         | None => 16
                         end) rows.
Proof.
  intros Hnd Horigin rows. unfold rows, generate_zones_data. rewrite Horigin.
  pose proof (sorted_perm postal_zone_map) as Hperm.
  assert (map row_range (map (zone_row origin_zone zone_matrix) (sorted postal_zone_map))
          = map fst (sorted postal_zone_map)) as Hranges.
  { rewrite map_map. apply map_ext. intros it. apply zone_row_range. }
  split; [|split; [|split]].
  - rewrite length_map. by apply Permutation_length.
  - rewrite Hranges. by apply Permutation_map.
  - rewrite Hranges. apply sorted_ranges_ascending; [|apply sorted_sorted].
    by rewrite (Permutation_map fst Hperm).
  - apply Forall_forall. intros r Hin.
    apply list_elem_of_fmap in Hin as [[[s e] dz] [-> Hin]].
    exists dz. split; [|done].
    apply odict_elem_of_get; [done|]. simpl.
    by rewrite <- Hperm.
Qed.

(** ** Postal index: the token scan respects the ranges *)

Section fallback.
(** A range of several codes, [s ≠ e]. *)
Variables s e : pystr.
Hypothesis Hwide : s ≠ e.

(** The map holds the wide range, with some zone code. *)
Let claimed (m : PostalZoneMap) : Prop := is_Some (odict_get (s, e) m).

Lemma already_covered_claimed (m : PostalZoneMap) :
  claimed m → already_covered s m = true.
Proof.
  intros [z Hz]. apply odict_get_elem_of in Hz.
  unfold already_covered. apply existsb_exists.
  exists ((s, e), z). split; [by apply list_elem_of_In|].
  rewrite bool_decide_true by done. by rewrite bool_decide_false.
Qed.

(** Registering a single code keeps the wide range, and touches [(s, s)]
    only when the code is [s]. *)
Lemma register_single part zone_code (m : PostalZoneMap) :
  claimed m →
  let m' := if already_covered part m then m
            else odict_set (part, part) zone_code m in
  claimed m' ∧ odict_get (s, s) m' = odict_get (s, s) m.
Proof.
  intros Hm. simpl. destruct (already_covered part m) eqn:Hcov; [done|].
  assert (part ≠ s) as Hne.
  { intros ->. by rewrite already_covered_claimed in Hcov. }
  split.
  - unfold claimed. rewrite odict_get_set_ne; [done | congruence].
  - rewrite odict_get_set_ne; [done | congruence].
Qed.

Lemma token_pass_keeps (n : nat) :
  ∀ parts prev (m : PostalZoneMap), (length parts ≤ n)%nat → claimed m →
    claimed (token_pass prev parts m)
    ∧ odict_get (s, s) (token_pass prev parts m) = odict_get (s, s) m.
Proof.
  induction n as [|n IH]; intros parts prev m Hlen Hm.
  - destruct parts; [done | simpl in Hlen; lia].
  - destruct parts as [|part rest]; [done|]. simpl in Hlen.
    assert (∀ prev' m', claimed m' →
              claimed (token_pass prev' rest m')
              ∧ odict_get (s, s) (token_pass prev' rest m') = odict_get (s, s) m')
      as Hrest by (intros; apply IH; [lia | done]).
    simpl. destruct (is_postal part); [|by apply Hrest].
    destruct rest as [|zone_code rest']; [by apply Hrest|].
    destruct (is_zone zone_code); [|by apply Hrest].
    destruct (from_option is_dash_token false prev).
    + apply IH; [simpl in Hlen; lia | done].
    + destruct (register_single part zone_code m Hm) as [Hm' Hget].
      destruct (Hrest (Some part) _ Hm') as [Hc Hg].
      split; [done|]. by rewrite Hg.
Qed.

Lemma line_pass_keeps (m : PostalZoneMap) (line : pystr) :
  claimed m →
  claimed (line_pass m line)
  ∧ odict_get (s, s) (line_pass m line) = odict_get (s, s) m.
Proof.
  intros Hm. unfold line_pass.
  destruct (contains _ line && contains _ line); [done|].
  by apply (token_pass_keeps (length (split line))).
Qed.

Lemma lines_pass_keeps (lines : list pystr) (m : PostalZoneMap) :
  claimed m →
  odict_get (s, s) (fold_left line_pass lines m) = odict_get (s, s) m.
Proof.
  revert m. induction lines as [|line lines IH]; intros m Hm; simpl; [done|].
  destruct (line_pass_keeps m line Hm) as [Hm' Hget].
  by rewrite IH.
Qed.
End fallback.

(** C8. When the pass of the range pattern registers a range [(s, e)] of
    several codes, the token scan registers nothing under [(s, s)]: after
    it, the map holds for [(s, s)] exactly what the range pass left there. *)
Theorem token_scan_respects_wide_range (text : pystr) (s e zone_code : pystr) :
  odict_get (s, e) (range_pass 0 text []) = Some zone_code →
  s ≠ e →
  odict_get (s, s) (parse_postal_text text)
  = odict_get (s, s) (range_pass 0 text []).
Proof.
  intros Hreg Hne. unfold parse_postal_text.
  apply (lines_pass_keeps s e Hne). by exists zone_code.
Qed.

(** ** Zone matrix *)

Lemma longest_from_elem_of (best : raw_table) (tables : list raw_table) :
  longest_from best tables ∈ best :: tables.
Proof.
  revert best. induction tables as [|t tables IH]; intros best; simpl.
  - left.
  - destruct (length best <? length t)%nat.
    + right. apply IH.
    + specialize (IH best). apply elem_of_cons in IH as [->|Hin]; [left|].
      by do 2 right.
Qed.

Section matrix.
Variable table : raw_table.

(** Every entry joins two zone codes of the catalog to an integer printed
    in the table. *)
Let sound (zm : ZoneMatrix) : Prop :=
  ∀ o d v, zm !! (o, d) = Some v →
    o ∈ ZONE_CODES ∧ d ∈ ZONE_CODES ∧ printed_in table v.

Lemma bind_destinations_lookup (origin_zone : pystr) (pairs : list (pystr * Z))
    (zm : ZoneMatrix) (o d : pystr) (v : Z) :
  bind_pairs origin_zone pairs zm !! (o, d) = Some v →
  (o = origin_zone ∧ (d, v) ∈ pairs) ∨ zm !! (o, d) = Some v.
Proof.
  unfold bind_pairs.
  revert zm. induction pairs as [|[dz w] pairs IH]; intros zm; simpl; [by right|].
  intros Hlook. apply IH in Hlook as [[-> Hin]|Hlook].
  - left. split; [done | by right].
  - simpl in Hlook.
    destruct (decide ((origin_zone, dz) = (o, d))) as [[= -> ->]|Hne].
    + rewrite lookup_insert_eq in Hlook. injection Hlook as ->.
      left. split; [done | left].
    + rewrite lookup_insert_ne in Hlook by done. by right.
Qed.

Lemma matrix_line_sound (c0 c1 : cell) (tail : row) (values_lines : list pystr)
    (zm : ZoneMatrix) (entry : nat * pystr) :
  (c0 :: c1 :: tail) ∈ table →
  values_lines = split_lines (strip (cell_text c1)) →
  sound zm → sound (matrix_line values_lines zm entry).
Proof.
  intros Hrow -> Hzm. destruct entry as [i origin_line]. unfold matrix_line.
  case_bool_decide as Horigin; [|done].
  destruct (split_lines (strip (cell_text c1)) !! i) as [values_line|] eqn:Hline;
    [|done].
  destruct (_ =? _)%nat; [|done].
  intros o d v Hlook. unfold bind_destinations in Hlook.
  apply bind_destinations_lookup in Hlook as [[-> Hin]|Hlook]; [|by apply Hzm].
  split; [done|]. split.
  - eapply elem_of_zip_l. exact Hin.
  - apply elem_of_zip_r in Hin.
    apply list_elem_of_omap in Hin as (token & Htoken & Hint).
    exists c0, c1, tail, values_line, token.
    split; [done|]. split; [|done].
    by eapply list_elem_of_lookup_2.
Qed.

Lemma matrix_row_sound (zm : ZoneMatrix) (r : row) :
  r ∈ table → sound zm → sound (matrix_row zm r).
Proof.
  intros Hrow Hzm. unfold matrix_row.
  destruct r as [|c0 [|c1 tail]]; [done|done|].
  destruct (contains _ _ || contains _ _); [done|].
  destruct (contains _ _); [done|].
  destruct (strip (cell_text c0)) as [|a origin_cell] eqn:Ho; [done|].
  destruct (strip (cell_text c1)) as [|b values_cell] eqn:Hv; [done|].
  generalize (imap pair (split_lines (a :: origin_cell))). intros entries.
  revert zm Hzm. induction entries as [|entry entries IH]; intros zm Hzm; [done|].
  simpl. apply IH. eapply matrix_line_sound; [exact Hrow | by rewrite Hv | done].
Qed.

Lemma matrix_rows_sound (rows : list row) (zm : ZoneMatrix) :
  (∀ r, r ∈ rows → r ∈ table) → sound zm → sound (fold_left matrix_row rows zm).
Proof.
  revert zm. induction rows as [|r rows IH]; intros zm Hsub Hzm; [done|].
  simpl. apply IH.
  - intros r' Hr'. apply Hsub. by right.
  - apply matrix_row_sound; [|done]. apply Hsub. left.
Qed.
End matrix.

(** C9, as stated, fails: the row of [DA] prints 0 for [DA] and 17 for
    [DZ], and both are stored. *)
Lemma zone_matrix_outside_1_16 :
  ¬ (∀ zm k v, parse_zone_matrix [zero_diagonal_page] (Some 0) = Ok zm →
               zm !! k = Some v → 1 ≤ v ≤ 16).
Proof.
  intros Hclaim.
  assert (1 ≤ 0 ≤ 16); [|lia].
  eapply (Hclaim _ (py "DA", py "DA")); [reflexivity|].
  vm_compute. reflexivity.
Qed.

(** C9, amended. Every entry the matrix parser stores joins two zone codes
    of the catalog to an integer printed in the values column of the table
    it reads, the longest of the matrix page; the integer is stored as
    printed, whatever its range. *)
Theorem zone_matrix_entries_printed (pdf : Pdf) (zone_matrix_page : option Z)
    (zm : ZoneMatrix) (o d : pystr) (v : Z) :
  parse_zone_matrix pdf zone_matrix_page = Ok zm →
  zm !! (o, d) = Some v →
  o ∈ ZONE_CODES ∧ d ∈ ZONE_CODES
  ∧ ∃ i page, zone_matrix_page = Some i ∧ index pdf i = Ok page
              ∧ zone_table page ∈ extract_tables page
              ∧ printed_in (zone_table page) v.
Proof.
  unfold parse_zone_matrix. intros Hparse Hlook.
  destruct zone_matrix_page as [i|]; [|by injection Hparse as <-].
  apply bind_Ok_inv in Hparse as (page & Hpage & Hparse).
  unfold zone_table.
  destruct (extract_tables page) as [|t tables] eqn:Htables;
    [by injection Hparse as <-|].
  injection Hparse as <-.
  destruct (matrix_rows_sound (longest_from t tables) (longest_from t tables) ∅
              ltac:(done) ltac:(done) o d v Hlook) as (Ho & Hd & Hprinted).
  split; [done|]. split; [done|].
  exists i, page. rewrite Htables. split; [done|]. split; [done|].
  split; [apply longest_from_elem_of | done].
Qed.

(** ** The command and a missing matrix page *)

(** With an empty matrix every destination gets the sentinel. *)
Lemma generate_zones_data_empty_matrix {cm : CaseMapping} (origin : pystr)
    (postal_zone_map : PostalZoneMap) :
  Forall (λ r, zone r = 16) (generate_zones_data origin postal_zone_map ∅).
Proof.
  unfold generate_zones_data.
  destruct (get_zone_code_for_postal origin postal_zone_map) as [oz|];
    [|constructor].
  apply Forall_forall. intros r Hin.
  apply list_elem_of_fmap in Hin as [[[s e] dz] [-> _]]. simpl.
  by rewrite lookup_empty.
Qed.

(** C6, as stated, fails: for a document with a postal index page and no
    matrix page the command, writer included, neither raises nor returns a
    status other than 0. *)
Lemma missing_matrix_page_not_surfaced :
  snd (find_zone_index_pages [index_only_page]) = None
  ∧ ¬ hard_failure (cmd_parse_ca_rates (cm:=ascii_case) true (Some (py "A1B"))
                      [index_only_page]).
Proof.
  split; [reflexivity|].
  vm_compute. intros Hfail. by apply Hfail.
Qed.

(** C6, amended. When no page carries the marker of the zone matrix, the
    matrix parser returns the empty matrix, the command notes the warning
    and goes on with the empty matrix: unless reading the postal index or
    a rate sheet raises, or the writer raises, it ends with status 0, and
    the zone rows it hands to the writer all carry the sentinel 16. *)
Theorem missing_matrix_page_goes_on {cm : CaseMapping} (pdf : Pdf) (c : N) (o : pystr)
    (postal_code_page : option Z) :
  find_zone_index_pages pdf = (postal_code_page, None) →
  parse_zone_matrix pdf None = Ok ∅
  ∧ cmd_parse_ca_rates true (Some (c :: o)) pdf
    = (postal_zone_map ← parse_postal_code_to_zone_mapping pdf postal_code_page;
       sd ← mapM (parse_service pdf) (detect_service_pages pdf);
       let zones := generate_zones_data (c :: o) postal_zone_map ∅ in
       wb ← write_ca_excel sd (Some zones);
       Ok (0, Some ({| services_data := sd;
                       zones_data := Some zones;
                       warnings :=
                         match postal_code_page with
                         | None => [NoPostalCodePage]
                         | Some _ => []
                         end ++ [NoZoneMatrixPage] |}, wb)))
  ∧ (∀ postal_zone_map,
       Forall (λ r, zone r = 16) (generate_zones_data (c :: o) postal_zone_map ∅))
  ∧ ∀ status out,
      cmd_parse_ca_rates true (Some (c :: o)) pdf = Ok (status, out) →
      status = 0
      ∧ ∃ h wb rows, out = Some (h, wb)
                     ∧ NoZoneMatrixPage ∈ warnings h
                     ∧ zones_data h = Some rows
                     ∧ Forall (λ r, zone r = 16) rows.
Proof.
  intros Hpages.
  assert (cmd_parse_ca_rates true (Some (c :: o)) pdf
          = (postal_zone_map ← parse_postal_code_to_zone_mapping pdf postal_code_page;
             sd ← mapM (parse_service pdf) (detect_service_pages pdf);
             let zones := generate_zones_data (c :: o) postal_zone_map ∅ in
             wb ← write_ca_excel sd (Some zones);
             Ok (0, Some ({| services_data := sd;
                             zones_data := Some zones;
                             warnings :=
                               match postal_code_page with
                               | None => [NoPostalCodePage]
                               | Some _ => []
                               end ++ [NoZoneMatrixPage] |}, wb)))) as Hcmd.
  { unfold cmd_parse_ca_rates, ca_rates_handoff, parse_zone_index. simpl.
    rewrite Hpages. simpl.
    destruct (parse_postal_code_to_zone_mapping pdf postal_code_page) as [pzm|ex];
      [|done].
    simpl. by destruct (mapM (parse_service pdf) (detect_service_pages pdf)). }
  split; [done|]. split; [exact Hcmd|]. split.
  - intros pzm. apply generate_zones_data_empty_matrix.
  - intros status out. rewrite Hcmd. intros Hrun.
    apply bind_Ok_inv in Hrun as (pzm & _ & Hrun).
    apply bind_Ok_inv in Hrun as (sd & _ & Hrun). cbv zeta in Hrun.
    apply bind_Ok_inv in Hrun as (wb & _ & [= <- <-]).
    split; [done|]. eexists _, wb, _. split; [done|]. simpl. split; [|split; [done|]].
    + apply elem_of_app. right. by left.
    + apply generate_zones_data_empty_matrix.
Qed.

(** ** Loops that may raise *)

Lemma foldM_invariant {A S : Type} (P : S → Prop) (f : S → A → Res S)
    (l : list A) (s s' : S) :
  (∀ s a s', P s → f s a = Ok s' → P s') →
  P s → foldM f l s = Ok s' → P s'.
Proof.
  intros Hstep. revert s. induction l as [|a l IH]; intros s Hs; simpl.
  - by intros [= <-].
  - intros Hrun. apply bind_Ok_inv in Hrun as (s1 & Hf & Hrun).
    eapply IH; [|exact Hrun]. by eapply Hstep.
Qed.

Lemma foldM_cons {A S : Type} (f : S → A → Res S) (a : A) (l : list A) (s : S) :
  foldM f (a :: l) s = f s a ≫= foldM f l.
Proof. done. Qed.

Lemma range_elem_of (a b x : Z) : x ∈ range a b ↔ a ≤ x < b.
Proof. unfold range. rewrite elem_of_seqZ. lia. Qed.

Lemma range_NoDup (a b : Z) : NoDup (range a b).
Proof. apply NoDup_seqZ. Qed.

(** ** Headers and assignments *)

Lemma first_some_Some {A B : Type} (f : A → option B) (l : list A) (b : B) :
  first_some f l = Some b → ∃ a, a ∈ l ∧ f a = Some b.
Proof.
  induction l as [|a l IH]; simpl; [done|].
  destruct (f a) eqn:Hfa.
  - intros [= ->]. exists a. split; [left | done].
  - intros Hrest. destruct (IH Hrest) as (a' & Hin & Hf).
    exists a'. split; [by right | done].
Qed.

Lemma parse_zone_numbers_range (header_text : pystr) :
  zone_numbers (parse_zone_numbers header_text).
Proof.
  unfold zone_numbers, parse_zone_numbers. apply Forall_forall. intros z Hz.
  apply list_elem_of_In, filter_In in Hz as [_ Hz]. lia.
Qed.

Lemma header_zones_range (table : list row) (zones : list Z) :
  header_zones table = Some zones → zone_numbers zones.
Proof.
  unfold header_zones. intros Hh.
  apply first_some_Some in Hh as (r & _ & Hr).
  apply first_some_Some in Hr as (c & _ & Hc).
  unfold cell_zones in Hc. destruct c as [[|a text]|]; [done| |done].
  destruct (7 <=? _)%nat; [|done]. injection Hc as <-.
  apply parse_zone_numbers_range.
Qed.

(** The keys an assignment adds are zones of the header. *)
Lemma assign_zones_lookup (zones : list Z) (rate_values : list Decimal)
    (d : gmap Z Decimal) (z : Z) (v : Decimal) :
  assign_zones zones rate_values d !! z = Some v →
  z ∈ zones ∨ d !! z = Some v.
Proof.
  unfold assign_zones. intros Hlook.
  assert (z ∈ (zip zones rate_values).*1 ∨ d !! z = Some v) as [Hin|Hd];
    [|left|by right].
  - revert d Hlook.
    induction (zip zones rate_values) as [|[z' r] pairs IH]; intros d; simpl;
      [by right|].
    intros Hlook. apply IH in Hlook as [Hin|Hlook]; [left; by right|].
    destruct (decide (z' = z)) as [->|Hne].
    + left. left.
    + rewrite lookup_insert_ne in Hlook by done. by right.
  - apply list_elem_of_fmap in Hin as [[z' r] [-> Hin]].
    by eapply elem_of_zip_l.
Qed.

Lemma assign_zones_keys (zones : list Z) (rate_values : list Decimal)
    (d : gmap Z Decimal) :
  zone_numbers zones → zone_keys d → zone_keys (assign_zones zones rate_values d).
Proof.
  intros Hzones Hd z [v Hv].
  apply assign_zones_lookup in Hv as [Hin|Hv].
  - unfold zone_numbers in Hzones. rewrite Forall_forall in Hzones. by apply Hzones.
  - apply Hd. by exists v.
Qed.

(** ** Flat-rate scan *)

Section flat_scan.
Context {cm : CaseMapping}.

Lemma flat_row_inv (zones : list Z) (st st' : flat_state) (r : row) :
  zone_numbers zones → flat_inv st → flat_row zones st r = Ok st' → flat_inv st'.
Proof.
  intros Hzones [Hw Hz]. destruct st as [rates ppr]. unfold flat_row.
  destruct r as [|c0 [|c1 tail]]; [by intros [= <-] | by intros [= <-] |].
  repeat (case_match; [by intros [= <-]|]).
  case_match.
  { case_match; intros [= <-]; [|done].
    split; [done|]. by apply assign_zones_keys. }
  intros Hrun. apply bind_Ok_inv in Hrun as (w & _ & Hrun).
  destruct w as [weight|]; [|by injection Hrun as <-].
  destruct ((weight <? 1) || (99 <? weight)) eqn:Hrange;
    [by injection Hrun as <-|].
  destruct (parse_rates_line _); injection Hrun as <-; [done|].
  split; [|done]. intros w Hsome. simpl in Hsome.
  destruct (decide (weight = w)) as [<-|Hne]; [lia|].
  rewrite lookup_insert_ne in Hsome by done. by apply Hw.
Qed.

Lemma flat_table_inv (st st' : flat_state) (raw : raw_table) :
  flat_inv st → flat_table st raw = Ok st' → flat_inv st'.
Proof.
  intros Hst. unfold flat_table.
  destruct (normalize_table raw) as [|r table] eqn:Htable; [by intros [= <-]|].
  destruct (header_zones (r :: table)) as [zones|] eqn:Hzones;
    [|by intros [= <-]].
  apply foldM_invariant; [|done].
  intros s a s' Hs. apply flat_row_inv; [|done].
  by eapply header_zones_range.
Qed.

Lemma flat_scan_inv (pdf : Pdf) (start_page end_page : Z) (st : flat_state) :
  flat_scan pdf start_page end_page = Ok st → flat_inv st.
Proof.
  unfold flat_scan. intros Hrun.
  apply bind_Ok_inv in Hrun as (pages & _ & Hrun).
  revert Hrun. apply foldM_invariant.
  - intros s page s' Hs. unfold flat_page.
    apply foldM_invariant; [|done]. intros s1 raw s2. apply flat_table_inv.
  - split; intros w [v Hv]; simpl in Hv; by rewrite lookup_empty in Hv.
Qed.
End flat_scan.

(** ** Synthesis *)

Section synthesis.
Variable per_pound_rates : gmap Z Decimal.

(** The loop over the zones: a zone with a rate gets its price, the
    other zones are left alone. *)
Lemma flat_zones_run (weight : Z) (zones : list Z) (acc entry : gmap Z Decimal) :
  NoDup zones →
  foldM (flat_zone per_pound_rates weight) zones acc = Ok entry →
  ∀ z, (z ∈ zones →
          match per_pound_rates !! z with
          | Some r => ∃ p, price_of weight r = Ok p ∧ entry !! z = Some p
          | None => entry !! z = acc !! z
          end)
       ∧ (z ∉ zones → entry !! z = acc !! z).
Proof.
  revert acc. induction zones as [|z0 zones IH]; intros acc Hnd; simpl.
  - intros [= <-] z. split; [by intros ?%elem_of_nil | done].
  - apply NoDup_cons in Hnd as [Hnotin Hnd].
    intros Hrun. apply bind_Ok_inv in Hrun as (acc1 & Hstep & Hrun).
    specialize (IH acc1 Hnd Hrun).
    assert (match per_pound_rates !! z0 with
            | Some r => ∃ p, price_of weight r = Ok p ∧ acc1 = <[z0 := p]> acc
            | None => acc1 = acc
            end) as Hacc1.
    { unfold flat_zone in Hstep. destruct (per_pound_rates !! z0) as [r|].
      - apply bind_Ok_inv in Hstep as (p & Hp & [= <-]). by exists p.
      - by injection Hstep as <-. }
    intros z. destruct (IH z) as [Hin Hout]. split.
    + intros [->|Hz]%elem_of_cons.
      * rewrite (Hout Hnotin).
        destruct (per_pound_rates !! z0) as [r|].
        -- destruct Hacc1 as (p & Hp & ->). exists p.
           by rewrite lookup_insert_eq.
        -- by rewrite Hacc1.
      * specialize (Hin Hz). destruct (per_pound_rates !! z) as [r|]; [done|].
        rewrite Hin. destruct (per_pound_rates !! z0) as [r0|].
        -- destruct Hacc1 as (p & _ & ->).
           rewrite lookup_insert_ne; [done|]. by intros ->.
        -- by rewrite Hacc1.
    + intros Hz. apply not_elem_of_cons in Hz as [Hne Hz].
      rewrite (Hout Hz). destruct (per_pound_rates !! z0) as [r0|].
      * destruct Hacc1 as (p & _ & ->). by rewrite lookup_insert_ne.
      * by rewrite Hacc1.
Qed.

(** The loop over the weights: each weight of the loop gets the entry
    computed for it, the other weights keep theirs. *)
Lemma flat_weights_run (weights : list Z) (rates rates' : RateTable) :
  NoDup weights →
  foldM (flat_weight per_pound_rates) weights rates = Ok rates' →
  ∀ w, (w ∈ weights →
          ∃ entry, flat_entry per_pound_rates w = Ok entry
                   ∧ rates' !! w = Some entry)
       ∧ (w ∉ weights → rates' !! w = rates !! w).
Proof.
  revert rates. induction weights as [|w0 weights IH]; intros rates Hnd; simpl.
  - intros [= <-] w. split; [by intros ?%elem_of_nil | done].
  - apply NoDup_cons in Hnd as [Hnotin Hnd].
    intros Hrun. apply bind_Ok_inv in Hrun as (rates1 & Hstep & Hrun).
    unfold flat_weight in Hstep.
    apply bind_Ok_inv in Hstep as (entry0 & Hentry0 & [= <-]).
    specialize (IH _ Hnd Hrun). intros w. destruct (IH w) as [Hin Hout]. split.
    + intros [->|Hw]%elem_of_cons; [|by apply Hin].
      exists entry0. split; [done|].
      by rewrite (Hout Hnotin), lookup_insert_eq.
    + intros Hw. apply not_elem_of_cons in Hw as [Hne Hw].
      by rewrite (Hout Hw), lookup_insert_ne.
Qed.
End synthesis.

(** Without overage rates the synthesis raises nothing and leaves empty
    entries. *)
Lemma flat_entry_empty (weight : Z) : flat_entry ∅ weight = Ok ∅.
Proof. unfold flat_entry. by vm_compute. Qed.

Lemma flat_weight_empty (rates : RateTable) (weight : Z) :
  flat_weight ∅ rates weight = Ok (<[weight := ∅]> rates).
Proof.
  unfold flat_weight.
  change (foldM (flat_zone ∅ weight) (range 1 17) ∅) with (flat_entry ∅ weight).
  by rewrite flat_entry_empty.
Qed.

(** ** Flat-rate builder *)

Section flat_builder_facts.
Context {cm : CaseMapping}.

Lemma parse_non_freight_rates_run (pdf : Pdf) (start_page end_page : Z)
    (st : flat_state) (rates : RateTable) :
  flat_scan pdf start_page end_page = Ok st →
  parse_non_freight_rates pdf start_page end_page = Ok rates →
  ∀ w, (100 ≤ w ≤ 150 →
          ∃ entry, flat_entry st.2 w = Ok entry ∧ rates !! w = Some entry)
       ∧ (¬ (100 ≤ w ≤ 150) → rates !! w = st.1 !! w).
Proof.
  intros Hscan Hparse. unfold parse_non_freight_rates in Hparse.
  rewrite Hscan, bind_Ok in Hparse.
  destruct st as [rates0 ppr]. unfold synthesize in Hparse.
  cbv beta iota in Hparse. intros w.
  destruct (flat_weights_run ppr _ _ _ (range_NoDup 100 151) Hparse w)
    as [Hin Hout].
  split.
  - intros Hw. apply Hin, range_elem_of. lia.
  - intros Hw. apply Hout. rewrite range_elem_of. lia.
Qed.
End flat_builder_facts.

(** C10. Whatever the scan found, the table the flat-rate builder returns
    has an entry for each weight from 100 to 150; and when no rate per
    pound was captured the builder does return, each of these entries
    being the empty map. *)
Theorem flat_table_has_100_to_150 {cm : CaseMapping} (pdf : Pdf)
    (start_page end_page : Z) (st : flat_state) :
  flat_scan pdf start_page end_page = Ok st →
  (∀ rates w, parse_non_freight_rates pdf start_page end_page = Ok rates →
              100 ≤ w ≤ 150 → is_Some (rates !! w))
  ∧ (st.2 = ∅ →
     ∃ rates, parse_non_freight_rates pdf start_page end_page = Ok rates
              ∧ ∀ w, 100 ≤ w ≤ 150 → rates !! w = Some ∅).
Proof.
  intros Hscan. split.
  - intros rates w Hparse Hw.
    destruct (parse_non_freight_rates_run pdf _ _ st rates Hscan Hparse w)
      as [Hin _].
    destruct (Hin Hw) as (entry & _ & ->). by eexists.
  - intros Hempty.
    assert (∃ rates, parse_non_freight_rates pdf start_page end_page = Ok rates)
      as [rates Hparse].
    { unfold parse_non_freight_rates. rewrite Hscan, bind_Ok.
      destruct st as [rates0 ppr]. simpl in Hempty. subst ppr.
      unfold synthesize. cbv beta iota.
      clear Hscan. generalize (range 100 151) as weights.
      intros weights. revert rates0.
      induction weights as [|w weights IH]; intros rates0; [by eexists|].
      rewrite foldM_cons, flat_weight_empty. apply IH. }
    exists rates. split; [done|]. intros w Hw.
    destruct (parse_non_freight_rates_run pdf _ _ st rates Hscan Hparse w)
      as [Hin _].
    destruct (Hin Hw) as (entry & Hentry & ->).
    rewrite Hempty, flat_entry_empty in Hentry. by injection Hentry as <-.
Qed.

(** The run on the page of the economy service. *)
Lemma economy_scan_run :
  flat_scan (cm:=ascii_case) [economy_page] 0 0 = Ok economy_scan.
Proof. apply returns_value_or. vm_compute. reflexivity. Qed.

Lemma economy_table_run :
  parse_non_freight_rates (cm:=ascii_case) [economy_page] 0 0 = Ok economy_table.
Proof. apply returns_value_or. vm_compute. reflexivity. Qed.

(** C2, as stated, fails: the page gives the rate 1.00 per pound for zone
    1 and no price for 100 lbs, and the table holds 100.00 for weight 100,
    a weight outside 101..150. *)
Lemma synthesis_reaches_100 :
  ¬ (∀ st rates,
       flat_scan (cm:=ascii_case) [economy_page] 0 0 = Ok st →
       parse_non_freight_rates (cm:=ascii_case) [economy_page] 0 0 = Ok rates →
       (∀ w z r, 101 ≤ w ≤ 150 → 1 ≤ z ≤ 16 → st.2 !! z = Some r →
                 price_at rates w z = round_half_up_2 w r)
       ∧ (∀ w z, ¬ (101 ≤ w ≤ 150) → price_at rates w z = price_at st.1 w z)).
Proof.
  intros Hclaim.
  destruct (Hclaim _ _ economy_scan_run economy_table_run) as [_ Hband].
  specialize (Hband 100 1 ltac:(lia)).
  assert (price_at economy_table 100 1 = Some (DFin false 10000 (-2))) as Hcode
    by (vm_compute; reflexivity).
  assert (price_at economy_scan.1 100 1 = None) as Hread
    by (vm_compute; reflexivity).
  pose proof (eq_trans (eq_sym Hcode) (eq_trans Hband Hread)) as Habsurd.
  discriminate Habsurd.
Qed.

(** C2, amended. The synthesis covers the weights 100 to 150. For each of
    them and every zone with a captured rate [r] that fits the decimal
    context, the table holds [round_half_up(w * r, 2)]; a zone without a
    captured rate has no price there. Every other weight keeps the prices
    read from the rows, and these rows only carry weights from 1 to 99, so
    that no price read from a row is overwritten. *)
Theorem synthesis_covers_100_to_150 {cm : CaseMapping} (pdf : Pdf)
    (start_page end_page : Z) (st : flat_state) (rates : RateTable) :
  flat_scan pdf start_page end_page = Ok st →
  parse_non_freight_rates pdf start_page end_page = Ok rates →
  (∀ w z r, 100 ≤ w ≤ 150 → st.2 !! z = Some r → fits_context w r →
            price_at rates w z = round_half_up_2 w r)
  ∧ (∀ w z, 100 ≤ w ≤ 150 → st.2 !! z = None → price_at rates w z = None)
  ∧ (∀ w z, ¬ (100 ≤ w ≤ 150) → price_at rates w z = price_at st.1 w z)
  ∧ (∀ w, is_Some (st.1 !! w) → 1 ≤ w ≤ 99).
Proof.
  intros Hscan Hparse.
  pose proof (flat_scan_inv pdf _ _ st Hscan) as [Hweights Hzones].
  pose proof (parse_non_freight_rates_run pdf _ _ st rates Hscan Hparse) as Hrun.
  split; [|split; [|split]].
  - intros w z r Hw Hr Hfit. destruct (Hrun w) as [Hin _].
    destruct (Hin Hw) as (entry & Hentry & Hlook).
    unfold price_at. rewrite Hlook. simpl.
    destruct (flat_zones_run st.2 w _ _ _ (range_NoDup 1 17) Hentry z) as [Hz _].
    assert (z ∈ range 1 17) as Hzin.
    { apply range_elem_of. specialize (Hzones z ltac:(by exists r)). lia. }
    specialize (Hz Hzin). rewrite Hr in Hz. destruct Hz as (p & Hp & ->).
    destruct r as [neg c e| | |]; try done.
    rewrite DecFacts.price_of_fits in Hp by (done || lia).
    by injection Hp as <-.
  - intros w z Hw Hr. destruct (Hrun w) as [Hin _].
    destruct (Hin Hw) as (entry & Hentry & Hlook).
    unfold price_at. rewrite Hlook. simpl.
    destruct (flat_zones_run st.2 w _ _ _ (range_NoDup 1 17) Hentry z) as [Hz Hnz].
    destruct (decide (z ∈ range 1 17)) as [Hzin|Hzout].
    + specialize (Hz Hzin). by rewrite Hr in Hz.
    + by rewrite (Hnz Hzout).
  - intros w z Hw. destruct (Hrun w) as [_ Hout].
    unfold price_at. by rewrite (Hout Hw).
  - done.
Qed.

(** ** Freight scan *)

Section freight_scan.
Context {cm : CaseMapping}.

Lemma freight_row_inv (zones : list Z) (st : freight_state) (r : row) :
  zone_numbers zones → freight_inv st →
  zone_numbers (freight_row (zones, st) r).1
  ∧ freight_inv (freight_row (zones, st) r).2.
Proof.
  intros Hzones Hst. destruct st as [ppr mins]. unfold freight_row.
  destruct r as [|c0 [|c1 tail]]; [done|done|].
  destruct zones as [|z0 zones].
  { case_match; [|done]. split; [apply parse_zone_numbers_range | done]. }
  case_match.
  { case_match; [|done]. split; [done|]. destruct Hst as [Hppr Hmins].
    split; [done|]. by apply assign_zones_keys. }
  case_match; [|done]. case_match; [|done].
  split; [done|]. destruct Hst as [Hppr Hmins]. split; [|done].
  intros b' br. simpl. intros Hlook.
  destruct (decide (b = b')) as [<-|Hne].
  - rewrite lookup_insert_eq in Hlook. injection Hlook as <-.
    apply assign_zones_keys; [done|].
    destruct (ppr !! b) as [known|] eqn:Hknown; simpl.
    + by eapply Hppr.
    + intros z [v Hv]. by rewrite lookup_empty in Hv.
  - rewrite lookup_insert_ne in Hlook by done. by eapply Hppr.
Qed.

Lemma freight_rows_inv (rows : list row) (zones : list Z) (st : freight_state) :
  zone_numbers zones → freight_inv st →
  freight_inv (fold_left freight_row rows (zones, st)).2.
Proof.
  revert zones st. induction rows as [|r rows IH]; intros zones st Hz Hst; [done|].
  change (fold_left freight_row (r :: rows) (zones, st))
    with (fold_left freight_row rows (freight_row (zones, st) r)).
  destruct (freight_row_inv zones st r Hz Hst) as [Hz' Hst'].
  destruct (freight_row (zones, st) r) as [zones' st']. by apply IH.
Qed.

Lemma freight_page_inv (st : freight_state) (page : Page) :
  freight_inv st → freight_inv (freight_page st page).
Proof.
  intros Hst. unfold freight_page. destruct (extract_tables page); [done|].
  apply freight_rows_inv; [constructor | done].
Qed.

Lemma freight_scan_inv (pdf : Pdf) (start_page end_page : Z) (st : freight_state) :
  freight_scan pdf start_page end_page = Ok st → freight_inv st.
Proof.
  unfold freight_scan. intros Hrun.
  apply bind_Ok_inv in Hrun as (pages & _ & [= <-]).
  assert (freight_inv (∅, ∅)) as Hinit.
  { split; [intros b br Hb | intros z [v Hv]]; simpl in *;
      by rewrite lookup_empty in *. }
  revert Hinit. generalize ((∅, ∅) : freight_state).
  induction pages as [|page pages IH]; intros st Hst; [done|].
  change (fold_left freight_page (page :: pages) st)
    with (fold_left freight_page pages (freight_page st page)).
  apply IH. by apply freight_page_inv.
Qed.
End freight_scan.

(** ** Expansion *)

Section expansion.
Variable st : freight_state.

Lemma freight_weight_entry (rates : RateTable) (weight : Z) :
  freight_weight st rates weight
  = freight_entry st weight ≫= λ entry, Ok (<[weight := entry]> rates).
Proof.
  unfold freight_weight, freight_entry. destruct st as [ppr mins]. simpl.
  by destruct (ppr !! bracket_of weight).
Qed.

Lemma freight_weights_run (weights : list Z) (rates rates' : RateTable) :
  NoDup weights →
  foldM (freight_weight st) weights rates = Ok rates' →
  ∀ w, (w ∈ weights →
          ∃ entry, freight_entry st w = Ok entry ∧ rates' !! w = Some entry)
       ∧ (w ∉ weights → rates' !! w = rates !! w).
Proof.
  revert rates. induction weights as [|w0 weights IH]; intros rates Hnd.
  - intros [= <-] w. split; [by intros ?%elem_of_nil | done].
  - apply NoDup_cons in Hnd as [Hnotin Hnd].
    rewrite foldM_cons, freight_weight_entry.
    intros Hrun. apply bind_Ok_inv in Hrun as (rates1 & Hstep & Hrun).
    apply bind_Ok_inv in Hstep as (entry0 & Hentry0 & [= <-]).
    specialize (IH _ Hnd Hrun). intros w. destruct (IH w) as [Hin Hout]. split.
    + intros [->|Hw]%elem_of_cons; [|by apply Hin].
      exists entry0. split; [done|].
      by rewrite (Hout Hnotin), lookup_insert_eq.
    + intros Hw. apply not_elem_of_cons in Hw as [Hne Hw].
      by rewrite (Hout Hw), lookup_insert_ne.
Qed.

(** The loop over the zones of a bracket. *)
Lemma freight_zones_run (bracket_rates minimum_charges : gmap Z Decimal)
    (weight : Z) (zones : list Z) (acc entry : gmap Z Decimal) :
  NoDup zones →
  foldM (freight_zone bracket_rates minimum_charges weight) zones acc = Ok entry →
  ∀ z, (z ∈ zones →
          match bracket_rates !! z with
          | Some r => ∃ p price, price_of weight r = Ok p
                                 ∧ floored p (minimum_charges !! z) price
                                 ∧ entry !! z = Some price
          | None => entry !! z = acc !! z
          end)
       ∧ (z ∉ zones → entry !! z = acc !! z).
Proof.
  revert acc. induction zones as [|z0 zones IH]; intros acc Hnd.
  - intros [= <-] z. split; [by intros ?%elem_of_nil | done].
  - apply NoDup_cons in Hnd as [Hnotin Hnd]. rewrite foldM_cons.
    intros Hrun. apply bind_Ok_inv in Hrun as (acc1 & Hstep & Hrun).
    specialize (IH acc1 Hnd Hrun).
    assert (match bracket_rates !! z0 with
            | Some r => ∃ p price, price_of weight r = Ok p
                                   ∧ floored p (minimum_charges !! z0) price
                                   ∧ acc1 = <[z0 := price]> acc
            | None => acc1 = acc
            end) as Hacc1.
    { unfold freight_zone in Hstep. destruct (bracket_rates !! z0) as [r|].
      - apply bind_Ok_inv in Hstep as (p & Hp & Hstep).
        apply bind_Ok_inv in Hstep as (price & Hprice & [= <-]).
        exists p, price. split; [done|]. split; [|done].
        unfold floored. destruct (minimum_charges !! z0); [done|].
        by injection Hprice as <-.
      - by injection Hstep as <-. }
    intros z. destruct (IH z) as [Hin Hout]. split.
    + intros [->|Hz]%elem_of_cons.
      * rewrite (Hout Hnotin).
        destruct (bracket_rates !! z0) as [r|].
        -- destruct Hacc1 as (p & price & Hp & Hfl & ->). exists p, price.
           by rewrite lookup_insert_eq.
        -- by rewrite Hacc1.
      * specialize (Hin Hz). destruct (bracket_rates !! z) as [r|]; [done|].
        rewrite Hin. destruct (bracket_rates !! z0) as [r0|].
        -- destruct Hacc1 as (p & price & _ & _ & ->).
           rewrite lookup_insert_ne; [done|]. by intros ->.
        -- by rewrite Hacc1.
    + intros Hz. apply not_elem_of_cons in Hz as [Hne Hz].
      rewrite (Hout Hz). destruct (bracket_rates !! z0) as [r0|].
      * destruct Hacc1 as (p & price & _ & _ & ->). by rewrite lookup_insert_ne.
      * by rewrite Hacc1.
Qed.
End expansion.

(** The run on the page of the long rate. *)
Lemma long_rate_scan_run :
  freight_scan (cm:=ascii_case) [long_rate_page] 0 0 = Ok long_rate_scan.
Proof. apply returns_value_or. vm_compute. reflexivity. Qed.

Lemma long_rate_table_run :
  parse_freight_rates (cm:=ascii_case) [long_rate_page] 0 0 = Ok long_rate_table.
Proof. apply returns_value_or. vm_compute. reflexivity. Qed.

(** C1, as stated, fails. In zone 1 the rate for 2000 lbs is
    0.0000024999999999999999999999999999: the exact product is
    0.0049999999999999999999999999998, which rounds half up to 0.00, but
    the context first rounds the product to 28 digits, 0.005, and the table
    holds 0.01. *)
Lemma freight_price_rounded_twice :
  ¬ (∀ st rates,
       freight_scan (cm:=ascii_case) [long_rate_page] 0 0 = Ok st →
       parse_freight_rates (cm:=ascii_case) [long_rate_page] 0 0 = Ok rates →
       (∀ w z r p, 151 ≤ w ≤ 2000 → rate_at st.1 w z = Some r →
                   round_half_up_2 w r = Some p →
                   ∃ price, price_at rates w z = Some price
                            ∧ floored p (st.2 !! z) price)
       ∧ (∀ w z, 151 ≤ w ≤ 2000 → rate_at st.1 w z = None →
                 price_at rates w z = None)).
Proof.
  intros Hclaim.
  destruct (Hclaim _ _ long_rate_scan_run long_rate_table_run) as [Hprice _].
  assert (rate_at long_rate_scan.1 2000 1
          = Some (DFin false 24999999999999999999999999999 (-34))) as Hrate
    by (vm_compute; reflexivity).
  assert (round_half_up_2 2000 (DFin false 24999999999999999999999999999 (-34))
          = Some (DFin false 0 (-2))) as Hexact by (vm_compute; reflexivity).
  destruct (Hprice 2000 1 _ _ ltac:(lia) Hrate Hexact) as (price & Hat & Hfloor).
  assert (price_at long_rate_table 2000 1 = Some (DFin false 1 (-2))) as Hcode
    by (vm_compute; reflexivity).
  assert (long_rate_scan.2 !! 1 = None) as Hmin by (vm_compute; reflexivity).
  pose proof (eq_trans (eq_sym Hat) Hcode) as Hprice_eq.
  injection Hprice_eq as ->.
  revert Hmin Hfloor. generalize (long_rate_scan.2 !! 1).
  intros minimum ->. discriminate.
Qed.

(** C1, amended. In the table of the freight builder, for each weight from
    151 to 2000 and each zone with a rate per pound [r] in the bracket of
    the weight, provided [r] fits the decimal context, the price is
    [round_half_up(w * r, 2)], raised to the minimum charge of the zone
    when there is one; a zone without a rate in the bracket has no
    price. *)
Theorem freight_prices {cm : CaseMapping} (pdf : Pdf) (start_page end_page : Z)
    (st : freight_state) (rates : RateTable) :
  freight_scan pdf start_page end_page = Ok st →
  parse_freight_rates pdf start_page end_page = Ok rates →
  (∀ w z r, 151 ≤ w ≤ 2000 → rate_at st.1 w z = Some r → fits_context w r →
            ∃ p price, round_half_up_2 w r = Some p
                       ∧ price_at rates w z = Some price
                       ∧ floored p (st.2 !! z) price)
  ∧ (∀ w z, 151 ≤ w ≤ 2000 → rate_at st.1 w z = None →
            price_at rates w z = None).
Proof.
  intros Hscan Hparse.
  pose proof (freight_scan_inv pdf _ _ st Hscan) as [Hkeys _].
  unfold parse_freight_rates in Hparse. rewrite Hscan, bind_Ok in Hparse.
  unfold expand in Hparse.
  pose proof (freight_weights_run st _ _ _ (range_NoDup 151 2001) Hparse) as Hrun.
  assert (∀ w, 151 ≤ w ≤ 2000 →
               ∃ entry, freight_entry st w = Ok entry ∧ rates !! w = Some entry)
    as Hentry.
  { intros w Hw. destruct (Hrun w) as [Hin _]. apply Hin, range_elem_of. lia. }
  split.
  - intros w z r Hw Hr Hfit. destruct (Hentry w Hw) as (entry & Hrun_w & Hlook).
    unfold price_at. rewrite Hlook. simpl.
    unfold rate_at in Hr. unfold freight_entry in Hrun_w.
    destruct (st.1 !! bracket_of w) as [br|] eqn:Hbr; [|done]. simpl in Hr.
    destruct (freight_zones_run br st.2 w _ _ _ (range_NoDup 1 17) Hrun_w z)
      as [Hz _].
    assert (z ∈ range 1 17) as Hzin.
    { apply range_elem_of. pose proof (Hkeys _ _ Hbr z ltac:(by exists r)). lia. }
    specialize (Hz Hzin). rewrite Hr in Hz.
    destruct Hz as (p & price & Hp & Hfl & Hprice).
    destruct r as [neg c e| | |]; try done.
    rewrite DecFacts.price_of_fits in Hp by (done || lia).
    injection Hp as <-. by exists (DFin neg (exact_cents w c e) (-2)), price.
  - intros w z Hw Hr. destruct (Hentry w Hw) as (entry & Hrun_w & Hlook).
    unfold price_at. rewrite Hlook. simpl.
    unfold rate_at in Hr. unfold freight_entry in Hrun_w.
    destruct (st.1 !! bracket_of w) as [br|] eqn:Hbr.
    + simpl in Hr.
      destruct (freight_zones_run br st.2 w _ _ _ (range_NoDup 1 17) Hrun_w z)
        as [Hz Hnz].
      destruct (decide (z ∈ range 1 17)) as [Hzin|Hzout].
      * specialize (Hz Hzin). by rewrite Hr in Hz.
      * by rewrite (Hnz Hzout).
    + by injection Hrun_w as <-.
Qed.

(** ** Freight scan: which row supplies a rate *)

Lemma after_app before l1 l2 : after before (l1 ++ l2) = after (after before l1) l2.
Proof. unfold after. rewrite last_app. by destruct (last l2). Qed.

Lemma after_nil before : after before [] = before.
Proof. done. Qed.

Lemma supplied_app b z l1 l2 :
  supplied b z (l1 ++ l2) = supplied b z l1 ++ supplied b z l2.
Proof. apply omap_app. Qed.

Lemma assign_zones_after (zones : list Z) (rate_values : list Decimal)
    (d : gmap Z Decimal) (z : Z) :
  assign_zones zones rate_values d !! z
  = after (d !! z) (omap (for_zone z) (zip zones rate_values)).
Proof.
  unfold assign_zones. revert d.
  induction (zip zones rate_values) as [|[z0 v0] pairs IH]; intros d; [done|].
  change (fold_left (λ (d0 : gmap Z Decimal) '(zone0, rate), <[zone0:=rate]> d0)
            ((z0, v0) :: pairs) d)
    with (fold_left (λ (d0 : gmap Z Decimal) '(zone0, rate), <[zone0:=rate]> d0)
            pairs (<[z0:=v0]> d)).
  rewrite IH. change ((z0, v0) :: pairs) with ([(z0, v0)] ++ pairs).
  rewrite omap_app, after_app. f_equal.
  unfold after, for_zone. simpl. case_bool_decide as Hz; simpl.
  - subst z0. by rewrite lookup_insert_eq.
  - by rewrite lookup_insert_ne.
Qed.

Lemma supplied_bracket_rows (b0 b : bracket) (z : Z) (pairs : list (Z * Decimal)) :
  supplied b z (map (λ p : Z * Decimal, (b0, p.1, p.2)) pairs)
  = if bool_decide (b0 = b) then omap (for_zone z) pairs else [].
Proof.
  unfold supplied. induction pairs as [|[z0 v0] pairs IH].
  - by case_bool_decide.
  - simpl map. change (?x :: ?l) with ([x] ++ l). rewrite !omap_app, IH.
    simpl. case_bool_decide; [|done]. by destruct (for_zone z (z0, v0)).
Qed.

Section scan.
Context {cm : CaseMapping}.

(** A row under a known header. *)
Lemma freight_row_recorded (z0 : Z) (zones : list Z) (st : freight_state)
    (r : row) (b : bracket) (z : Z) :
  (freight_row (z0 :: zones, st) r).1 = z0 :: zones
  ∧ recorded (freight_row (z0 :: zones, st) r).2.1 b z
    = after (recorded st.1 b z) (supplied b z (row_supplies (z0 :: zones) r)).
Proof.
  destruct st as [ppr mins]. unfold freight_row, row_supplies.
  destruct r as [|c0 [|c1 tail]]; [done|done|].
  destruct (contains (py "minimum") (lower (strip (cell_text c0)))).
  { by destruct (_ =? _)%nat. }
  destruct (matching_bracket (strip (cell_text c0))) as [b0|]; [|done].
  destruct (_ =? _)%nat; [|done].
  split; [done|]. rewrite supplied_bracket_rows. unfold recorded. simpl.
  case_bool_decide as Hb.
  - subst b0. rewrite lookup_insert_eq. simpl. rewrite assign_zones_after.
    f_equal. by destruct (ppr !! b).
  - by rewrite lookup_insert_ne.
Qed.

(** A row while no header is known. *)
Lemma freight_row_header (st : freight_state) (r : row) :
  freight_row ([], st) r = (row_header r, st).
Proof.
  destruct st as [ppr mins]. unfold freight_row, row_header.
  destruct r as [|c0 [|c1 tail]]; [done|done|].
  by destruct (7 <=? _)%nat.
Qed.

Lemma freight_rows_recorded (rows : list row) (zones : list Z)
    (st : freight_state) (b : bracket) (z : Z) :
  recorded (fold_left freight_row rows (zones, st)).2.1 b z
  = after (recorded st.1 b z) (supplied b z (table_supplies zones rows)).
Proof.
  revert zones st. induction rows as [|r rows IH]; intros zones st; [done|].
  change (fold_left freight_row (r :: rows) (zones, st))
    with (fold_left freight_row rows (freight_row (zones, st) r)).
  destruct zones as [|z0 zones].
  - rewrite freight_row_header. apply IH.
  - destruct (freight_row_recorded z0 zones st r b z) as [Hzones Hrec].
    destruct (freight_row (z0 :: zones, st) r) as [zones' st'].
    simpl in Hzones. subst zones'. rewrite IH.
    change (table_supplies (z0 :: zones) (r :: rows))
      with (row_supplies (z0 :: zones) r ++ table_supplies (z0 :: zones) rows).
    rewrite supplied_app, after_app. by f_equal.
Qed.

Lemma freight_page_recorded (st : freight_state) (page : Page)
    (b : bracket) (z : Z) :
  recorded (freight_page st page).1 b z
  = after (recorded st.1 b z) (supplied b z (page_supplies page)).
Proof.
  unfold freight_page, page_supplies.
  destruct (extract_tables page) as [|raw tables]; [done|].
  apply freight_rows_recorded.
Qed.

Lemma freight_pages_recorded (pages : list Page) (st : freight_state)
    (b : bracket) (z : Z) :
  recorded (fold_left freight_page pages st).1 b z
  = after (recorded st.1 b z) (supplied b z (supplies pages)).
Proof.
  revert st. induction pages as [|page pages IH]; intros st; [done|].
  change (fold_left freight_page (page :: pages) st)
    with (fold_left freight_page pages (freight_page st page)).
  rewrite IH, freight_page_recorded.
  change (supplies (page :: pages)) with (page_supplies page ++ supplies pages).
  by rewrite supplied_app, after_app.
Qed.
End scan.

(** The pages of the sample span. *)
Lemma freight_sample_pages_run :
  span_pages [freight_page_sample] 0 0 = Ok freight_sample_pages.
Proof. apply returns_value_or. vm_compute. reflexivity. Qed.

Lemma freight_sample_scan_run :
  freight_scan (cm:=ascii_case) [freight_page_sample] 0 0 = Ok freight_sample_scan.
Proof. apply returns_value_or. vm_compute. reflexivity. Qed.

(** C3, as stated, fails: the page prints the bracket 151 to 299 twice,
    with 1.00 and then 2.00 for zone 1, and the scan records 2.00, the rate
    of the second row. *)
Lemma first_bracket_row_not_kept :
  ¬ (∀ pages st b z,
       span_pages [freight_page_sample] 0 0 = Ok pages →
       freight_scan (cm:=ascii_case) [freight_page_sample] 0 0 = Ok st →
       recorded st.1 b z = head (supplied b z (supplies (cm:=ascii_case) pages))).
Proof.
  intros Hclaim.
  pose proof (Hclaim _ _ (151, 299) 1 freight_sample_pages_run
                freight_sample_scan_run) as Hfirst.
  assert (recorded freight_sample_scan.1 (151, 299) 1 = Some (DFin false 200 (-2)))
    as Hcode by (vm_compute; reflexivity).
  assert (head (supplied (151, 299) 1 (supplies (cm:=ascii_case) freight_sample_pages))
          = Some (DFin false 100 (-2))) as Hhead by (vm_compute; reflexivity).
  pose proof (eq_trans (eq_sym Hcode) (eq_trans Hfirst Hhead)) as Habsurd.
  discriminate Habsurd.
Qed.

(** C3, amended. The rate the freight scan records for a bracket and a
    zone is the one of the last row of the span that supplies it: a row
    under a zone header whose label names the bracket and which holds as
    many rates as the header has zones. When rows repeat a bracket, the
    later row replaces the rates of the earlier one. *)
Theorem last_bracket_row_wins {cm : CaseMapping} (pdf : Pdf)
    (start_page end_page : Z) (pages : list Page) (st : freight_state)
    (b : bracket) (z : Z) :
  span_pages pdf start_page end_page = Ok pages →
  freight_scan pdf start_page end_page = Ok st →
  recorded st.1 b z = last (supplied b z (supplies pages)).
Proof.
  intros Hpages Hscan. unfold freight_scan in Hscan.
  rewrite Hpages, bind_Ok in Hscan. injection Hscan as <-.
  rewrite freight_pages_recorded. unfold after.
  by destruct (last _).
Qed.

(** ** The theorems on the sample documents *)

Lemma freight_sample_table_run :
  parse_freight_rates (cm:=ascii_case) [freight_page_sample] 0 0
  = Ok freight_sample_table.
Proof. apply returns_value_or. vm_compute. reflexivity. Qed.

Lemma plain_scan_run :
  flat_scan (cm:=ascii_case) [plain_page] 0 0 = Ok plain_scan.
Proof. apply returns_value_or. vm_compute. reflexivity. Qed.

Lemma zero_diagonal_matrix_run :
  parse_zone_matrix [zero_diagonal_page] (Some 0) = Ok zero_diagonal_matrix.
Proof. apply returns_value_or. vm_compute. reflexivity. Qed.

(** C1 on the sample freight page: with the rate 0.10 for zone 5 in the
    bracket 1000 to 1999 and the minimum 150.00, weight 1200 is priced
    150.00 and weight 1999 is priced 199.90. *)
Lemma freight_prices_witness :
  freight_scan (cm:=ascii_case) [freight_page_sample] 0 0 = Ok freight_sample_scan
  ∧ parse_freight_rates (cm:=ascii_case) [freight_page_sample] 0 0
    = Ok freight_sample_table
  ∧ (∃ p price, round_half_up_2 1200 (DFin false 10 (-2)) = Some p
                ∧ price_at freight_sample_table 1200 5 = Some price
                ∧ floored p (freight_sample_scan.2 !! 5) price)
  ∧ price_at freight_sample_table 1200 5 = Some (DFin false 15000 (-2))
  ∧ price_at freight_sample_table 1999 5 = Some (DFin false 19990 (-2)).
Proof.
  split; [exact freight_sample_scan_run|].
  split; [exact freight_sample_table_run|].
  split.
  - apply (proj1 (freight_prices [freight_page_sample] 0 0 freight_sample_scan
                    freight_sample_table freight_sample_scan_run
                    freight_sample_table_run) 1200 5 (DFin false 10 (-2))).
    + lia.
    + vm_compute. reflexivity.
    + unfold fits_context. split; [|split]; vm_compute; congruence.
  - split; vm_compute; reflexivity.
Defined.

(** C2 on the sample page of the economy service: weight 120 in zone 3,
    at 0.50 per pound, is priced 60.00. *)
Lemma synthesis_covers_100_to_150_witness :
  flat_scan (cm:=ascii_case) [economy_page] 0 0 = Ok economy_scan
  ∧ parse_non_freight_rates (cm:=ascii_case) [economy_page] 0 0 = Ok economy_table
  ∧ price_at economy_table 120 3 = round_half_up_2 120 (DFin false 50 (-2))
  ∧ round_half_up_2 120 (DFin false 50 (-2)) = Some (DFin false 6000 (-2)).
Proof.
  split; [exact economy_scan_run|]. split; [exact economy_table_run|].
  split.
  - apply (proj1 (synthesis_covers_100_to_150 [economy_page] 0 0 economy_scan
                    economy_table economy_scan_run economy_table_run)).
    + lia.
    + vm_compute. reflexivity.
    + unfold fits_context. split; [|split]; vm_compute; congruence.
  - vm_compute. reflexivity.
Defined.

(** C3 on the sample freight page: the rate recorded for the bracket 151
    to 299 and zone 1 is the last one supplied, 2.00. *)
Lemma last_bracket_row_wins_witness :
  span_pages [freight_page_sample] 0 0 = Ok freight_sample_pages
  ∧ freight_scan (cm:=ascii_case) [freight_page_sample] 0 0 = Ok freight_sample_scan
  ∧ recorded freight_sample_scan.1 (151, 299) 1
    = last (supplied (151, 299) 1 (supplies (cm:=ascii_case) freight_sample_pages))
  ∧ last (supplied (151, 299) 1 (supplies (cm:=ascii_case) freight_sample_pages))
    = Some (DFin false 200 (-2)).
Proof.
  split; [exact freight_sample_pages_run|].
  split; [exact freight_sample_scan_run|].
  split.
  - exact (last_bracket_row_wins [freight_page_sample] 0 0 freight_sample_pages
             freight_sample_scan (151, 299) 1 freight_sample_pages_run
             freight_sample_scan_run).
  - vm_compute. reflexivity.
Defined.

Lemma two_ranges_NoDup : NoDup (map fst two_ranges).
Proof.
  apply NoDup_cons. split; [|apply NoDup_singleton].
  intros Hin. apply list_elem_of_singleton in Hin. discriminate Hin.
Qed.

(** C5 on a map of two ranges and a matrix with the single entry
    (DA, DB): the origin a1b2c3 lies in zone DA. *)
Lemma generate_zones_data_rows_witness :
  NoDup (map fst two_ranges)
  ∧ get_zone_code_for_postal (cm:=ascii_case) (py "a1b2c3") two_ranges
    = Some (py "DA")
  ∧ (let rows := generate_zones_data (cm:=ascii_case) (py "a1b2c3") two_ranges
                   one_entry in
     length rows = length two_ranges
     ∧ Permutation (map row_range rows) (map fst two_ranges)
     ∧ StronglySorted range_lt (map row_range rows)
     ∧ Forall (λ r, ∃ dest_zone,
                 odict_get (row_range r) two_ranges = Some dest_zone
                 ∧ zone r = match one_entry !! (py "DA", dest_zone) with
                            | Some z => z
                            | None => 16
                            end) rows).
Proof.
  split; [exact two_ranges_NoDup|].
  split; [vm_compute; reflexivity|].
  apply (generate_zones_data_rows (cm:=ascii_case) (py "a1b2c3") two_ranges
           one_entry (py "DA") two_ranges_NoDup).
  vm_compute. reflexivity.
Defined.

(** C6 on a document with a postal index page and no matrix page: the
    command returns with status 0 and the warning, and the zone rows it
    hands to the writer carry the sentinel. *)
Lemma missing_matrix_page_goes_on_witness :
  find_zone_index_pages [index_only_page] = (Some 0, None)
  ∧ ∃ h wb rows,
      cmd_parse_ca_rates (cm:=ascii_case) true (Some (py "A1B")) [index_only_page]
      = Ok (0, Some (h, wb))
      ∧ NoZoneMatrixPage ∈ warnings h
      ∧ zones_data h = Some rows
      ∧ Forall (λ r, zone r = 16) rows.
Proof.
  split; [vm_compute; reflexivity|].
  destruct (missing_matrix_page_goes_on (cm:=ascii_case) [index_only_page] 65%N
              (py "1B") (Some 0)) as (_ & _ & _ & Hreturns);
    [vm_compute; reflexivity|].
  assert (∃ out, cmd_parse_ca_rates (cm:=ascii_case) true (Some (py "A1B"))
                   [index_only_page] = Ok (0, out)) as [out Hcmd]
    by (eexists; vm_compute; reflexivity).
  destruct (Hreturns 0 out Hcmd) as (_ & h & wb & rows & -> & Hw & Hz & Hall).
  by exists h, wb, rows.
Defined.


(** C8 on a text where [A1A] starts the range A1A-A1C and also stands
    alone before a zone code. *)
Lemma token_scan_respects_wide_range_witness :
  odict_get (py "A1A", py "A1C") (range_pass 0 index_text []) = Some (py "DA")
  ∧ py "A1A" ≠ py "A1C"
  ∧ odict_get (py "A1A", py "A1A") (parse_postal_text index_text)
    = odict_get (py "A1A", py "A1A") (range_pass 0 index_text []).
Proof.
  split; [vm_compute; reflexivity|].
  split; [discriminate|].
  apply (token_scan_respects_wide_range index_text (py "A1A") (py "A1C") (py "DA")).
  - vm_compute. reflexivity.
  - discriminate.
Defined.

(** C9 on the matrix page with a zero on the diagonal: the entry for
    (DA, DB) is the printed 5. *)
Lemma zone_matrix_entries_printed_witness :
  parse_zone_matrix [zero_diagonal_page] (Some 0) = Ok zero_diagonal_matrix
  ∧ zero_diagonal_matrix !! (py "DA", py "DB") = Some 5
  ∧ py "DA" ∈ ZONE_CODES ∧ py "DB" ∈ ZONE_CODES
  ∧ ∃ i page, Some 0 = Some i ∧ index [zero_diagonal_page] i = Ok page
              ∧ zone_table page ∈ extract_tables page
              ∧ printed_in (zone_table page) 5.
Proof.
  split; [exact zero_diagonal_matrix_run|].
  split; [vm_compute; reflexivity|].
  apply (zone_matrix_entries_printed [zero_diagonal_page] (Some 0)
           zero_diagonal_matrix (py "DA") (py "DB") 5 zero_diagonal_matrix_run).
  vm_compute. reflexivity.
Defined.

(** C10 on a page without a row of rates per pound. *)
Lemma flat_table_has_100_to_150_witness :
  flat_scan (cm:=ascii_case) [plain_page] 0 0 = Ok plain_scan
  ∧ (∀ rates w,
       parse_non_freight_rates (cm:=ascii_case) [plain_page] 0 0 = Ok rates →
       100 ≤ w ≤ 150 → is_Some (rates !! w))
  ∧ (plain_scan.2 = ∅ →
     ∃ rates, parse_non_freight_rates (cm:=ascii_case) [plain_page] 0 0 = Ok rates
              ∧ ∀ w, 100 ≤ w ≤ 150 → rates !! w = Some ∅).
Proof.
  split; [exact plain_scan_run|].
  exact (flat_table_has_100_to_150 (cm:=ascii_case) [plain_page] 0 0 plain_scan
           plain_scan_run).
Defined.

(** ** Zone index: the pages found *)

Lemma first_page_from_cons (marker : pystr) (page : Page) (rest : list Page)
    (i0 : Z) (found : option Z) :
  contains marker (text_of page) = false →
  first_page_from marker rest (i0 + 1) found →
  first_page_from marker (page :: rest) i0 found.
Proof.
  intros Hpage. destruct found as [k|]; simpl.
  - intros (Hle & (pg & Hlook & Hfound) & Hfirst). split; [lia|]. split.
    + exists pg. by replace (Z.to_nat (k - i0)) with (S (Z.to_nat (k - (i0 + 1)))) by lia.
    + intros j pg' Hj Hlook'. destruct (Z.eq_dec j i0) as [->|Hne].
      * replace (i0 - i0) with 0 in Hlook' by lia. simpl in Hlook'. congruence.
      * replace (Z.to_nat (j - i0)) with (S (Z.to_nat (j - (i0 + 1)))) in Hlook' by lia.
        eapply Hfirst; [|exact Hlook']. lia.
  - intros Hnone j pg' Hj Hlook'. destruct (Z.eq_dec j i0) as [->|Hne].
    + replace (i0 - i0) with 0 in Hlook' by lia. simpl in Hlook'. congruence.
    + replace (Z.to_nat (j - i0)) with (S (Z.to_nat (j - (i0 + 1)))) in Hlook' by lia.
      eapply Hnone; [|exact Hlook']. lia.
Qed.

Lemma first_page_from_here (marker : pystr) (page : Page) (rest : list Page) (i0 : Z) :
  contains marker (text_of page) = true →
  first_page_from marker (page :: rest) i0 (Some i0).
Proof.
  intros Hpage. split; [lia|]. split.
  - exists page. by replace (i0 - i0) with 0 by lia.
  - intros j pg Hj. lia.
Qed.

(** A page already found is kept; otherwise the scan finds the first page
    with the marker. *)
Lemma find_zone_index_from_spec (rest : list Page) (i0 : Z)
    (postal_code_page zone_matrix_page : option Z) :
  let found := find_zone_index_from i0 rest postal_code_page zone_matrix_page in
  match postal_code_page with
  | Some _ => found.1 = postal_code_page
  | None => first_page_from (py "Postal Code Zone Index") rest i0 found.1
  end
  ∧ match zone_matrix_page with
    | Some _ => found.2 = zone_matrix_page
    | None => first_page_from (py "Intra-Canada Zone Index") rest i0 found.2
    end.
Proof.
  revert i0 postal_code_page zone_matrix_page.
  induction rest as [|page rest IH]; intros i0 p m.
  - simpl. split.
    + destruct p; [done|]. intros j pg _ Hlook. by rewrite lookup_nil in Hlook.
    + destruct m; [done|]. intros j pg _ Hlook. by rewrite lookup_nil in Hlook.
  - cbn [find_zone_index_from]. cbv zeta.
    destruct (contains (py "Postal Code Zone Index") (text_of page)) eqn:Hp;
      destruct (contains (py "Intra-Canada Zone Index") (text_of page)) eqn:Hm;
      destruct p as [p|]; destruct m as [m|]; simpl bool_decide; cbn [andb];
      match goal with
      | |- context [find_zone_index_from _ _ ?a ?b] =>
          destruct (IH (i0 + 1) a b) as [IHp IHm]
      end; cbv zeta in IHp, IHm; split;
      first [ done
            | rewrite IHp; by apply first_page_from_here
            | rewrite IHm; by apply first_page_from_here
            | by apply first_page_from_cons ].
Qed.

(** X1. The zone index pages the command uses are the first page whose
    text holds ["Postal Code Zone Index"] and the first page whose text
    holds ["Intra-Canada Zone Index"]; a marker no page holds gives
    [None]. *)
Theorem zone_index_pages_are_first (pdf : Pdf) :
  first_page_from (py "Postal Code Zone Index") pdf 0 (find_zone_index_pages pdf).1
  ∧ first_page_from (py "Intra-Canada Zone Index") pdf 0 (find_zone_index_pages pdf).2.
Proof. apply (find_zone_index_from_spec pdf 0 None None). Qed.




(** ** Postal index: the shape of the map *)

Lemma odict_set_Forall {K V : Type} `{EqDecision K} (P : K * V → Prop)
    (k : K) (v : V) (d : odict K V) :
  Forall P d → P (k, v) → Forall P (odict_set k v d).
Proof.
  intros Hd Hkv. induction d as [|[k' v'] d IH]; simpl.
  - by constructor.
  - apply Forall_cons in Hd as [Hhd Htl].
    destruct (decide (k = k')) as [<-|Hne]; constructor; auto.
Qed.

Lemma postal3_is_postal (s p rest : pystr) :
  postal3 s = Some (p, rest) → is_postal p = true.
Proof.
  unfold postal3. destruct s as [|a [|b [|c s']]]; try done.
  destruct (isupper_ascii a && isdigit b && isupper_ascii c) eqn:Htest; [|done].
  intros [= <- <-]. unfold is_postal, postal3. by rewrite Htest.
Qed.

Lemma upper_letter_zone (z : N) :
  isupper_ascii z = true → [68%N; z] ∈ ZONE_CODES.
Proof.
  unfold isupper_ascii, in_range. intros Hz.
  apply andb_true_iff in Hz as [Hlo Hhi].
  apply N.leb_le in Hlo, Hhi.
  replace z with (N.of_nat (N.to_nat z)) by lia.
  assert (65 ≤ N.to_nat z ≤ 90)%nat as Hn by lia.
  generalize dependent (N.to_nat z). clear. intros n Hn.
  do 65 (destruct n as [|n]; [lia|]).
  do 26 (destruct n as [|n]; [by apply (bool_decide_unpack _); vm_compute|]).
  lia.
Qed.

Lemma zone2_catalog (s z rest : pystr) :
  zone2 s = Some (z, rest) → z ∈ ZONE_CODES.
Proof.
  unfold zone2. destruct s as [|d [|l s']]; try done.
  destruct (N.eqb_spec d 68) as [->|]; simpl; [|done].
  destruct (isupper_ascii l) eqn:Hl; [|done].
  intros [= <- <-]. by apply upper_letter_zone.
Qed.

Lemma is_zone_catalog (part : pystr) : is_zone part = true → part ∈ ZONE_CODES.
Proof.
  unfold is_zone, zone2. destruct part as [|d [|l s']]; try done.
  destruct ((d =? 68)%N && isupper_ascii l) eqn:Htest; [|done].
  destruct s'; [|done]. intros _.
  apply andb_true_iff in Htest as [Hd Hl]. apply N.eqb_eq in Hd as ->.
  by apply upper_letter_zone.
Qed.

Lemma range_pattern_match_shape (s start_postal end_postal zone_code : pystr) (n : nat) :
  range_pattern_match s = Some (start_postal, end_postal, zone_code, n) →
  well_formed_entry ((start_postal, end_postal), zone_code).
Proof.
  unfold range_pattern_match.
  destruct (postal3 s) as [[sp s1]|] eqn:H1; simpl; [|done].
  destruct (lstrip s1) as [|d s2]; [done|].
  destruct (is_dash d); [|done].
  destruct (postal3 (lstrip s2)) as [[ep s3]|] eqn:H2; simpl; [|done].
  destruct s3 as [|w s3']; [done|].
  destruct (isspace w); [|done].
  destruct (zone2 (lstrip (w :: s3'))) as [[zc s4]|] eqn:H3; simpl; [|done].
  intros [= <- <- <- <-]. split; [|split]; simpl.
  - by eapply postal3_is_postal.
  - by eapply postal3_is_postal.
  - by eapply zone2_catalog.
Qed.

Lemma postal_inv_set (m : PostalZoneMap) (k : postal_range) (v : pystr) :
  postal_inv m → well_formed_entry (k, v) → postal_inv (odict_set k v m).
Proof.
  intros [Hnd Hwf] Hkv. split.
  - by apply odict_set_NoDup.
  - by apply odict_set_Forall.
Qed.

Lemma range_pass_inv (text : pystr) (skip : nat) (m : PostalZoneMap) :
  postal_inv m → postal_inv (range_pass skip text m).
Proof.
  revert skip m. induction text as [|c text IH]; intros skip m Hm; [done|].
  cbn [range_pass]. destruct skip as [|skip]; [|by apply IH].
  destruct (range_pattern_match (c :: text)) as [[[[sp ep] zc] n]|] eqn:Hmatch;
    [|by apply IH].
  apply IH. apply postal_inv_set; [done|].
  by eapply range_pattern_match_shape.
Qed.

Lemma token_pass_inv (n : nat) :
  ∀ parts prev (m : PostalZoneMap), (length parts ≤ n)%nat → postal_inv m →
    postal_inv (token_pass prev parts m).
Proof.
  induction n as [|n IH]; intros parts prev m Hlen Hm.
  - destruct parts; [done | simpl in Hlen; lia].
  - destruct parts as [|part rest]; [done|]. simpl in Hlen.
    assert (∀ prev' m', postal_inv m' → postal_inv (token_pass prev' rest m'))
      as Hrest by (intros; apply IH; [lia | done]).
    simpl. destruct (is_postal part) eqn:Hpart; [|by apply Hrest].
    destruct rest as [|zone_code rest']; [by apply Hrest|].
    destruct (is_zone zone_code) eqn:Hzone; [|by apply Hrest].
    destruct (from_option is_dash_token false prev).
    + apply IH; [simpl in Hlen; lia | done].
    + apply Hrest. destruct (already_covered part m); [done|].
      apply postal_inv_set; [done|]. split; [done|]. split; [done|].
      by apply is_zone_catalog.
Qed.

Lemma parse_postal_text_inv (text : pystr) : postal_inv (parse_postal_text text).
Proof.
  unfold parse_postal_text.
  assert (postal_inv (range_pass 0 text [])) as Hinit.
  { apply range_pass_inv. split; constructor. }
  revert Hinit. generalize (range_pass 0 text []).
  induction (split_lines text) as [|line lines IH]; intros m Hm; [done|].
  simpl. apply IH. unfold line_pass.
  destruct (contains _ line && contains _ line); [done|].
  by apply (token_pass_inv (length (split line))).
Qed.

(** X3. The postal map the parser returns has no range twice, and each of
    its entries joins two codes of the form [[A-Z]\d[A-Z]] to one of the
    26 zone codes of the catalog. *)
Theorem postal_map_well_formed (pdf : Pdf) (postal_code_page : option Z)
    (postal_zone_map : PostalZoneMap) :
  parse_postal_code_to_zone_mapping pdf postal_code_page = Ok postal_zone_map →
  NoDup (map fst postal_zone_map) ∧ Forall well_formed_entry postal_zone_map.
Proof.
  unfold parse_postal_code_to_zone_mapping.
  destruct postal_code_page as [i|].
  - intros Hrun. apply bind_Ok_inv in Hrun as (page & _ & [= <-]).
    apply parse_postal_text_inv.
  - intros [= <-]. split; constructor.
Qed.

(** X3 on the document with a postal index page: its map has two
    entries. *)
Lemma postal_map_well_formed_witness :
  ∃ m, parse_postal_code_to_zone_mapping [index_only_page] (Some 0) = Ok m
       ∧ length m = 2%nat
       ∧ NoDup (map fst m) ∧ Forall well_formed_entry m.
Proof.
  eexists. split; [vm_compute; reflexivity|]. split; [reflexivity|].
  apply (postal_map_well_formed [index_only_page] (Some 0)).
  vm_compute. reflexivity.
Defined.

(** ** Zone matrix: rows are stored whole *)

Lemma bind_pairs_is_Some (origin_zone : pystr) (pairs : list (pystr * Z))
    (zm : ZoneMatrix) (o d : pystr) :
  is_Some (bind_pairs origin_zone pairs zm !! (o, d))
  ↔ (o = origin_zone ∧ d ∈ pairs.*1) ∨ is_Some (zm !! (o, d)).
Proof.
  unfold bind_pairs. revert zm.
  induction pairs as [|[dz w] pairs IH]; intros zm; simpl.
  - split; [by right|]. intros [[_ Hin]|Hzm]; [|done]. by apply elem_of_nil in Hin.
  - rewrite IH. simpl.
    destruct (decide ((origin_zone, dz) = (o, d))) as [[= -> ->]|Hne].
    + rewrite lookup_insert_eq. split; [|by right].
      intros _. left. split; [done | left].
    + rewrite lookup_insert_ne by done. split.
      * intros [[-> Hin]|Hzm]; [left | by right]. split; [done | by right].
      * intros [[-> Hin]|Hzm]; [|by right].
        apply elem_of_cons in Hin as [->|Hin]; [done|]. by left.
Qed.

Lemma matrix_line_complete (values_lines : list pystr) (zm : ZoneMatrix)
    (entry : nat * pystr) :
  complete_rows zm → complete_rows (matrix_line values_lines zm entry).
Proof.
  intros Hzm. destruct entry as [i origin_line]. unfold matrix_line.
  case_bool_decide as Horigin; [|done].
  destruct (values_lines !! i) as [values_line|]; [|done].
  destruct (_ =? _)%nat eqn:Hlen; [|done].
  apply Nat.eqb_eq in Hlen.
  intros o d Hsome d' Hd'. unfold bind_destinations in *.
  apply bind_pairs_is_Some in Hsome. apply bind_pairs_is_Some.
  rewrite fst_zip in * by lia.
  destruct Hsome as [[-> _]|Hsome]; [by left|].
  right. by eapply Hzm.
Qed.

Lemma matrix_row_complete (zm : ZoneMatrix) (r : row) :
  complete_rows zm → complete_rows (matrix_row zm r).
Proof.
  intros Hzm. unfold matrix_row.
  destruct r as [|c0 [|c1 tail]]; [done|done|].
  destruct (contains _ _ || contains _ _); [done|].
  destruct (contains _ _); [done|].
  destruct (strip (cell_text c0)) as [|a origin_cell]; [done|].
  destruct (strip (cell_text c1)) as [|b values_cell]; [done|].
  generalize (imap pair (split_lines (a :: origin_cell))). intros entries.
  revert zm Hzm. induction entries as [|entry entries IH]; intros zm Hzm; [done|].
  simpl. apply IH. by apply matrix_line_complete.
Qed.

(** X4. The zone matrix is stored by whole rows: an origin zone that has
    one entry has an entry for each of the 26 destination zones. *)
Theorem zone_matrix_rows_complete (pdf : Pdf) (zone_matrix_page : option Z)
    (zm : ZoneMatrix) (o d : pystr) :
  parse_zone_matrix pdf zone_matrix_page = Ok zm →
  is_Some (zm !! (o, d)) →
  ∀ d', d' ∈ ZONE_CODES → is_Some (zm !! (o, d')).
Proof.
  unfold parse_zone_matrix. intros Hparse.
  assert (complete_rows zm) as Hzm; [|by apply Hzm].
  assert (complete_rows (∅ : ZoneMatrix)) as Hempty.
  { intros o' d0 [v Hv]. by rewrite lookup_empty in Hv. }
  destruct zone_matrix_page as [i|]; [|by injection Hparse as <-].
  apply bind_Ok_inv in Hparse as (page & _ & Hparse).
  destruct (extract_tables page) as [|t tables]; [by injection Hparse as <-|].
  injection Hparse as <-.
  revert Hempty. generalize (∅ : ZoneMatrix).
  induction (longest_from t tables) as [|r rows IH]; intros zm0 Hzm0; [done|].
  simpl. apply IH. by apply matrix_row_complete.
Qed.

(** X4 on the matrix page with a zero on the diagonal: the row of [DA]
    has an entry for [DZ]. *)
Lemma zone_matrix_rows_complete_witness :
  parse_zone_matrix [zero_diagonal_page] (Some 0) = Ok zero_diagonal_matrix
  ∧ is_Some (zero_diagonal_matrix !! (py "DA", py "DA"))
  ∧ is_Some (zero_diagonal_matrix !! (py "DA", py "DZ")).
Proof.
  split; [exact zero_diagonal_matrix_run|].
  assert (is_Some (zero_diagonal_matrix !! (py "DA", py "DA"))) as Hsome.
  { exists 0. vm_compute. reflexivity. }
  split; [exact Hsome|].
  apply (zone_matrix_rows_complete [zero_diagonal_page] (Some 0)
           zero_diagonal_matrix (py "DA") (py "DA") zero_diagonal_matrix_run Hsome).
  apply (bool_decide_unpack _). vm_compute. exact I.
Defined.

(** ** Service locator: order, bounds, distinct starts *)

Section located.
Variable pdf : Pdf.

(** One turn of the loop adds nothing, or the service bound to a page of
    the document that no span holds. *)
Lemma detect_service_cases (prev : list Service) (d : ServiceDef) :
  detect_service pdf prev d = prev
  ∨ ∃ i, detect_service pdf prev d = prev ++ [bound_service d i]
         ∧ 0 ≤ i < Z.of_nat (length pdf)
         ∧ already_assigned prev i = false.
Proof.
  unfold detect_service.
  pose proof (find_start_page_spec (sd_search d) prev pdf 0) as Hspec.
  destruct (find_start_page (sd_search d) prev 0 pdf) as [i|]; [|by left].
  right. exists i. destruct Hspec as (Hle & (page & Hlook & _) & Hfree & _).
  split; [done|]. split; [|done].
  apply lookup_lt_Some in Hlook. lia.
Qed.

Lemma detect_service_located (prev : list Service) (d : ServiceDef) :
  1 ≤ sd_page_count d → located pdf prev → located pdf (detect_service pdf prev d).
Proof.
  intros Hcount [Hall Hnd].
  destruct (detect_service_cases prev d) as [->|(i & -> & Hi & Hfree)]; [done|].
  apply already_assigned_false in Hfree. split.
  - apply Forall_app. split; [done|]. apply Forall_singleton.
    unfold start_of. simpl. lia.
  - rewrite map_app. apply NoDup_app. split; [done|].
    split; [|apply NoDup_singleton].
    intros x Hx ->%list_elem_of_singleton.
    apply list_elem_of_fmap in Hx as (s & Hs & Hin).
    rewrite Forall_forall in Hall, Hfree.
    specialize (Hall s Hin). specialize (Hfree s Hin).
    unfold start_of in *. simpl in Hs. lia.
Qed.

Lemma detect_fold_located (defs : list ServiceDef) (prev : list Service) :
  Forall (λ d, 1 ≤ sd_page_count d) defs → located pdf prev →
  located pdf (fold_left (detect_service pdf) defs prev).
Proof.
  revert prev. induction defs as [|d defs IH]; intros prev Hdefs Hprev; [done|].
  apply Forall_cons in Hdefs as [Hd Hdefs]. simpl.
  apply IH; [done|]. by apply detect_service_located.
Qed.

(** The names added by the loop follow the descriptors. *)
Lemma detect_fold_names (defs : list ServiceDef) (prev : list Service) :
  ∃ added, map name (fold_left (detect_service pdf) defs prev)
           = map name prev ++ added
           ∧ sublist added (map sd_name defs).
Proof.
  revert prev. induction defs as [|d defs IH]; intros prev; simpl.
  - exists []. by rewrite app_nil_r.
  - destruct (IH (detect_service pdf prev d)) as (added & -> & Hsub).
    destruct (detect_service_cases prev d) as [->|(i & -> & _)].
    + exists added. split; [done|]. by apply sublist_cons.
    + exists (sd_name d :: added). split.
      * by rewrite map_app, <- app_assoc.
      * by apply sublist_skip.
Qed.
End located.

(** X5. The services detected come in the order of the catalog, each
    descriptor at most once; each starts on a page of the document, and no
    two of them start on the same page. *)
Theorem detected_services_follow_catalog (pdf : Pdf) :
  sublist (map name (detect_service_pages pdf)) (map sd_name SERVICE_DEFINITIONS)
  ∧ Forall (λ s, 0 ≤ start_of s < Z.of_nat (length pdf)) (detect_service_pages pdf)
  ∧ NoDup (map start_of (detect_service_pages pdf)).
Proof.
  unfold detect_service_pages, detect_services.
  assert (located pdf (fold_left (detect_service pdf) SERVICE_DEFINITIONS []))
    as [Hall Hnd].
  { apply detect_fold_located; [|split; constructor].
    unfold SERVICE_DEFINITIONS. repeat constructor; simpl; lia. }
  split; [|split; [|done]].
  - destruct (detect_fold_names pdf SERVICE_DEFINITIONS []) as (added & -> & Hsub).
    done.
  - eapply Forall_impl; [exact Hall|]. intros s [Hs _]. done.
Qed.

(** ** A span that runs past the end of the document *)

Lemma index_raises_IndexError {A : Type} (l : list A) (i : Z) (e : exn) :
  index l i = Raise e → e = IndexError.
Proof.
  unfold index. cbv zeta. destruct (_ <? 0); [by intros [= <-]|].
  destruct (l !! _); [done | by intros [= <-]].
Qed.

Lemma index_past_end {A : Type} (l : list A) (i : Z) :
  Z.of_nat (length l) ≤ i → index l i = Raise IndexError.
Proof.
  intros Hi. unfold index. cbv zeta.
  rewrite !(proj2 (Z.ltb_ge i 0)) by lia.
  rewrite lookup_ge_None_2; [done | lia].
Qed.

(** A loop that meets an element on which its body raises does raise. *)
Lemma mapM_raises {A B : Type} (f : A → Res B) (l : list A) (x : A) (e : exn) :
  x ∈ l → f x = Raise e → ∃ e', mapM f l = Raise e'.
Proof.
  intros Hin Hx. induction l as [|a l IH]; [by apply elem_of_nil in Hin|].
  simpl. destruct (f a) as [b|e0] eqn:Ha; [|by exists e0].
  apply elem_of_cons in Hin as [->|Hin]; [congruence|].
  destruct (IH Hin) as [e' ->]. by exists e'.
Qed.

Lemma mapM_raises_only {A B : Type} (f : A → Res B) (l : list A) (e0 : exn) :
  (∀ x e, f x = Raise e → e = e0) → ∀ e, mapM f l = Raise e → e = e0.
Proof.
  intros Hf. induction l as [|a l IH]; intros e; [done|].
  simpl. destruct (f a) as [b|e1] eqn:Ha.
  - simpl. destruct (mapM f l) as [bs|e2]; [done|].
    intros [= <-]. by apply IH.
  - intros [= <-]. by eapply Hf.
Qed.

Lemma span_pages_past_end (pdf : Pdf) (start_page end_page : Z) :
  0 ≤ start_page ≤ end_page → Z.of_nat (length pdf) ≤ end_page →
  span_pages pdf start_page end_page = Raise IndexError.
Proof.
  intros Hspan Hend. unfold span_pages.
  destruct (mapM_raises (index pdf) (range start_page (end_page + 1)) end_page
              IndexError) as [e He].
  - apply range_elem_of. lia.
  - by apply index_past_end.
  - rewrite He. f_equal.
    eapply (mapM_raises_only (index pdf)); [|exact He].
    intros x e'. apply index_raises_IndexError.
Qed.

(** X6. The span of a detected service is not clipped to the document:
    when it runs past the last page, reading the service raises
    [IndexError], and so the command raises. *)
Theorem span_past_end_raises {cm : CaseMapping} (pdf : Pdf) (s : Service) :
  s ∈ detect_service_pages pdf →
  Z.of_nat (length pdf) ≤ (pages s).2 →
  parse_service pdf s = Raise IndexError
  ∧ ∀ origin, ∃ e, cmd_parse_ca_rates true origin pdf = Raise e.
Proof.
  intros Hin Hend.
  assert (parse_service pdf s = Raise IndexError) as Hs.
  { assert (located pdf (detect_service_pages pdf)) as [Hall _].
    { apply detect_fold_located; [|split; constructor].
      unfold SERVICE_DEFINITIONS. repeat constructor; simpl; lia. }
    rewrite Forall_forall in Hall. specialize (Hall s Hin).
    unfold start_of in Hall. unfold parse_service.
    destruct (pages s) as [start_page end_page]. simpl in Hall, Hend.
    pose proof (span_pages_past_end pdf start_page end_page ltac:(lia) Hend)
      as Hspan.
    unfold parse_freight_rates, parse_non_freight_rates, freight_scan, flat_scan.
    rewrite Hspan. by destruct (is_freight s). }
  split; [done|]. intros origin.
  destruct (mapM_raises (parse_service pdf) _ s _ Hin Hs) as [e He].
  unfold cmd_parse_ca_rates, ca_rates_handoff. simpl.
  destruct origin as [[|c o]|]; try (rewrite He; by exists e).
  destruct (parse_zone_index pdf (c :: o)) as [[rows ws]|e1]; [|by exists e1].
  simpl. rewrite He. by exists e.
Qed.

(** X6 on a document of one page titled for the economy service, whose
    span is the pages 0 to 3. *)
Lemma span_past_end_raises_witness :
  parse_service (cm:=ascii_case) [economy_page] (bound_service economy_def 0)
  = Raise IndexError
  ∧ ∀ origin, ∃ e, cmd_parse_ca_rates (cm:=ascii_case) true origin [economy_page]
                   = Raise e.
Proof.
  apply (span_past_end_raises (cm:=ascii_case) [economy_page]
           (bound_service economy_def 0)).
  - assert (detect_service_pages [economy_page] = [bound_service economy_def 0])
      as Hdetect by (vm_compute; reflexivity).
    rewrite Hdetect. left.
  - simpl. lia.
Defined.

(** ** The shape of a computed price *)

(** A quantized number is a NaN or has the exponent asked for. *)
Lemma quantize_cents (d p : Decimal) :
  Dec.quantize d Dec.cents_exp = Ok p → p = DNaN ∨ in_cents p.
Proof.
  unfold Dec.quantize, Dec.cents_exp.
  destruct d as [neg c e| | |]; [|done|by intros [= <-]; left|done].
  destruct (N.eqb_spec c 0) as [->|Hnz].
  - unfold Dec.fix_. simpl. intros [= <-]. right. by exists neg, 0%N.
  - destruct (_ <? _); [done|]. destruct (_ <? _); [done|]. cbv zeta.
    destruct (_ <? _); [done|].
    destruct (Z.ltb_spec Dec.prec (Dec.ndigits (Dec.rescale c e (-2)))) as [|Hnd];
      [done|].
    pose proof (DecFacts.ndigits_spec (Dec.rescale c e (-2))) as (_ & Hlt & _).
    rewrite DecFacts.fix_fits.
    + intros [= <-]. right. by eexists _, _.
    + eapply N.lt_le_trans; [exact Hlt|]. apply DecFacts.pow10_le.
      unfold Dec.prec in Hnd. lia.
    + unfold Dec.Etiny, Dec.Emin, Dec.prec. lia.
    + lia.
Qed.

Lemma price_of_cents (weight : Z) (r p : Decimal) :
  price_of weight r = Ok p → p = DNaN ∨ in_cents p.
Proof.
  unfold price_of. intros Hrun.
  apply bind_Ok_inv in Hrun as (product & _ & Hq). by eapply quantize_cents.
Qed.

(** The price computation raises on an infinity and on a signalling
    NaN. *)
Lemma price_of_unusable (weight : Z) (r : Decimal) :
  unusable r → price_of weight r = Raise InvalidOperation.
Proof.
  unfold price_of, Dec.of_int. destruct r as [neg c e|s| |]; try done; intros _.
  simpl. by destruct (_ =? _)%N.
Qed.

Lemma price_of_nan (weight : Z) : price_of weight DNaN = Ok DNaN.
Proof. done. Qed.

Lemma compare_refl (d : Decimal) : Dec.compare d d = Eq.
Proof.
  destruct d as [neg c e|s| |]; simpl; try done; apply Z.compare_refl.
Qed.

Lemma compare_antisym (a b : Decimal) :
  Dec.compare b a = CompOpp (Dec.compare a b).
Proof.
  destruct a as [s1 c1 e1|s1| |], b as [s2 c2 e2|s2| |]; simpl; try done;
    try (by destruct s1); try (by destruct s2).
  - rewrite (Z.min_comm e2 e1). apply Z.compare_antisym.
  - apply Z.compare_antisym.
Qed.

(** [max(p, m)] is one of the two, neither is a NaN, and it is not below
    [m]. *)
Lemma max_not_below (p m price : Decimal) :
  Dec.max p m = Ok price →
  (price = p ∨ price = m) ∧ not_below price m
  ∧ Dec.is_nan p = false ∧ Dec.is_nan m = false.
Proof.
  unfold Dec.max, Dec.gt.
  destruct (Dec.is_nan m) eqn:Hm; [done|].
  destruct (Dec.is_nan p) eqn:Hp; [done|]. simpl.
  intros [= <-]. unfold not_below.
  destruct (Dec.compare m p) eqn:Hcmp.
  - split; [by left|]. split; [|done].
    rewrite compare_antisym, Hcmp. done.
  - split; [by left|]. split; [|done].
    rewrite compare_antisym, Hcmp. done.
  - split; [by right|]. split; [|done]. by rewrite compare_refl.
Qed.

Lemma max_nan_raises (p m : Decimal) :
  Dec.is_nan p = true ∨ Dec.is_nan m = true →
  Dec.max p m = Raise InvalidOperation.
Proof.
  unfold Dec.max, Dec.gt. intros [Hp|Hm].
  - rewrite Hp. by rewrite orb_true_r.
  - by rewrite Hm.
Qed.

(** A loop that meets an element on which its body always raises does
    raise. *)
Lemma foldM_raises {A S : Type} (f : S → A → Res S) (l : list A) (x : A) :
  x ∈ l → (∀ s, ∃ e, f s x = Raise e) → ∀ s, ∃ e, foldM f l s = Raise e.
Proof.
  intros Hin Hx. induction l as [|a l IH]; intros s;
    [by apply elem_of_nil in Hin|].
  rewrite foldM_cons. destruct (f s a) as [s1|e0] eqn:Ha; [|by exists e0].
  rewrite bind_Ok.
  apply elem_of_cons in Hin as [->|Hin].
  - destruct (Hx s) as [e He]. congruence.
  - by apply IH.
Qed.

(** ** Flat-rate builder: the prices of the band *)

(** X7. Whatever rates per pound were captured, a price the flat-rate
    builder holds for a weight from 100 to 150 belongs to a zone from 1 to
    16 and is a number of cents (finite, two decimals) or a NaN. *)
Theorem band_prices_in_cents {cm : CaseMapping} (pdf : Pdf)
    (start_page end_page : Z) (rates : RateTable) (w z : Z) (p : Decimal) :
  parse_non_freight_rates pdf start_page end_page = Ok rates →
  100 ≤ w ≤ 150 →
  price_at rates w z = Some p →
  1 ≤ z ≤ 16 ∧ (p = DNaN ∨ in_cents p).
Proof.
  intros Hparse Hw Hprice. pose proof Hparse as Hrun.
  unfold parse_non_freight_rates in Hrun.
  apply bind_Ok_inv in Hrun as (st & Hscan & _).
  destruct (parse_non_freight_rates_run pdf _ _ st rates Hscan Hparse w)
    as [Hin _].
  destruct (Hin Hw) as (entry & Hentry & Hlook).
  unfold price_at in Hprice. rewrite Hlook in Hprice. simpl in Hprice.
  destruct (flat_zones_run st.2 w _ _ _ (range_NoDup 1 17) Hentry z) as [Hz Hnz].
  destruct (decide (z ∈ range 1 17)) as [Hzin|Hzout].
  - split; [apply range_elem_of in Hzin; lia|].
    specialize (Hz Hzin). destruct (st.2 !! z) as [r|].
    + destruct Hz as (p' & Hp' & Hentry_z).
      rewrite Hentry_z in Hprice. injection Hprice as <-.
      by eapply price_of_cents.
    + by rewrite Hz, lookup_empty in Hprice.
  - by rewrite (Hnz Hzout), lookup_empty in Hprice.
Qed.

(** X7 on the sample page of the economy service: weight 120 in zone 3 is
    priced 60.00. *)
Lemma band_prices_in_cents_witness :
  parse_non_freight_rates (cm:=ascii_case) [economy_page] 0 0 = Ok economy_table
  ∧ price_at economy_table 120 3 = Some (DFin false 6000 (-2))
  ∧ 1 ≤ 3 ≤ 16
  ∧ (DFin false 6000 (-2) = DNaN ∨ in_cents (DFin false 6000 (-2))).
Proof.
  split; [exact economy_table_run|].
  assert (price_at economy_table 120 3 = Some (DFin false 6000 (-2))) as Hprice
    by (vm_compute; reflexivity).
  split; [exact Hprice|].
  apply (band_prices_in_cents (cm:=ascii_case) [economy_page] 0 0 economy_table
           120 3 (DFin false 6000 (-2)) economy_table_run); [lia | exact Hprice].
Defined.

(** X8. When the scan captured, for some zone, a rate per pound that is
    infinite or a signalling NaN, the flat-rate builder raises. *)
Theorem unusable_flat_rate_raises {cm : CaseMapping} (pdf : Pdf)
    (start_page end_page : Z) (st : flat_state) (z : Z) (r : Decimal) :
  flat_scan pdf start_page end_page = Ok st →
  st.2 !! z = Some r →
  unusable r →
  ∃ e, parse_non_freight_rates pdf start_page end_page = Raise e.
Proof.
  intros Hscan Hr Hbad.
  pose proof (flat_scan_inv pdf _ _ st Hscan) as [_ Hzones].
  unfold parse_non_freight_rates. rewrite Hscan, bind_Ok.
  destruct st as [rates0 ppr]. simpl in Hr, Hzones. unfold synthesize.
  apply (foldM_raises (flat_weight ppr) (range 100 151) 100).
  { apply range_elem_of. lia. }
  intros rates. unfold flat_weight.
  destruct (foldM_raises (flat_zone ppr 100) (range 1 17) z) with (s := (∅ : gmap Z Decimal))
    as [e He].
  - apply range_elem_of. specialize (Hzones z ltac:(by exists r)). lia.
  - intros entry. unfold flat_zone. rewrite Hr.
    rewrite price_of_unusable by done. by eexists.
  - rewrite He. by exists e.
Qed.

Lemma infinite_rate_scan_run :
  flat_scan (cm:=ascii_case) [infinite_rate_page] 0 0 = Ok infinite_rate_scan.
Proof. apply returns_value_or. vm_compute. reflexivity. Qed.

(** X8 on a page whose row of rates per pound prints [Infinity] in
    zone 2. *)
Lemma unusable_flat_rate_raises_witness :
  flat_scan (cm:=ascii_case) [infinite_rate_page] 0 0 = Ok infinite_rate_scan
  ∧ infinite_rate_scan.2 !! 2 = Some (DInf false)
  ∧ ∃ e, parse_non_freight_rates (cm:=ascii_case) [infinite_rate_page] 0 0
         = Raise e.
Proof.
  split; [exact infinite_rate_scan_run|].
  assert (infinite_rate_scan.2 !! 2 = Some (DInf false)) as Hrate
    by (vm_compute; reflexivity).
  split; [exact Hrate|].
  exact (unusable_flat_rate_raises (cm:=ascii_case) [infinite_rate_page] 0 0
           infinite_rate_scan 2 (DInf false) infinite_rate_scan_run Hrate I).
Defined.

(** ** Freight builder: weights, zones and floors *)

Section freight_table.
Context {cm : CaseMapping}.

(** The entry of each weight of the expansion, and nothing else. *)
Lemma parse_freight_rates_run (pdf : Pdf) (start_page end_page : Z)
    (st : freight_state) (rates : RateTable) :
  freight_scan pdf start_page end_page = Ok st →
  parse_freight_rates pdf start_page end_page = Ok rates →
  ∀ w, (151 ≤ w ≤ 2000 →
          ∃ entry, freight_entry st w = Ok entry ∧ rates !! w = Some entry)
       ∧ (¬ (151 ≤ w ≤ 2000) → rates !! w = None).
Proof.
  intros Hscan Hparse. unfold parse_freight_rates in Hparse.
  rewrite Hscan, bind_Ok in Hparse. unfold expand in Hparse.
  intros w.
  destruct (freight_weights_run st _ _ _ (range_NoDup 151 2001) Hparse w)
    as [Hin Hout].
  split.
  - intros Hw. apply Hin, range_elem_of. lia.
  - intros Hw. rewrite Hout; [done|]. rewrite range_elem_of. lia.
Qed.

(** What a price of the table comes from. *)
Lemma freight_price_origin (pdf : Pdf) (start_page end_page : Z)
    (st : freight_state) (rates : RateTable) (w z : Z) (price : Decimal) :
  freight_scan pdf start_page end_page = Ok st →
  parse_freight_rates pdf start_page end_page = Ok rates →
  price_at rates w z = Some price →
  151 ≤ w ≤ 2000 ∧ 1 ≤ z ≤ 16
  ∧ ∃ r p, rate_at st.1 w z = Some r ∧ price_of w r = Ok p
           ∧ floored p (st.2 !! z) price.
Proof.
  intros Hscan Hparse Hprice.
  destruct (parse_freight_rates_run pdf _ _ st rates Hscan Hparse w)
    as [Hin Hout].
  destruct (decide (151 ≤ w ≤ 2000)) as [Hw|Hw];
    [|unfold price_at in Hprice; by rewrite (Hout Hw) in Hprice].
  split; [done|].
  destruct (Hin Hw) as (entry & Hentry & Hlook).
  unfold price_at in Hprice. rewrite Hlook in Hprice. simpl in Hprice.
  unfold freight_entry in Hentry. unfold rate_at.
  destruct (st.1 !! bracket_of w) as [br|] eqn:Hbr;
    [|injection Hentry as <-; by rewrite lookup_empty in Hprice].
  destruct (freight_zones_run br st.2 w _ _ _ (range_NoDup 1 17) Hentry z)
    as [Hz Hnz].
  destruct (decide (z ∈ range 1 17)) as [Hzin|Hzout];
    [|by rewrite (Hnz Hzout), lookup_empty in Hprice].
  split; [apply range_elem_of in Hzin; lia|].
  specialize (Hz Hzin). simpl. destruct (br !! z) as [r|].
  - destruct Hz as (p & price' & Hp & Hfl & Hentry_z).
    rewrite Hentry_z in Hprice. injection Hprice as <-. by exists r, p.
  - by rewrite Hz, lookup_empty in Hprice.
Qed.
End freight_table.

(** X9. A price of the freight table belongs to a weight from 151 to 2000
    and a zone from 1 to 16; it is a number of cents, a NaN, or the minimum
    charge of its zone; and it is never below the minimum charge of its
    zone. *)
Theorem freight_prices_floor {cm : CaseMapping} (pdf : Pdf)
    (start_page end_page : Z) (st : freight_state) (rates : RateTable)
    (w z : Z) (price : Decimal) :
  freight_scan pdf start_page end_page = Ok st →
  parse_freight_rates pdf start_page end_page = Ok rates →
  price_at rates w z = Some price →
  151 ≤ w ≤ 2000 ∧ 1 ≤ z ≤ 16
  ∧ (price = DNaN ∨ in_cents price ∨ st.2 !! z = Some price)
  ∧ ∀ m, st.2 !! z = Some m → not_below price m.
Proof.
  intros Hscan Hparse Hprice.
  destruct (freight_price_origin pdf _ _ st rates w z price Hscan Hparse Hprice)
    as (Hw & Hz & r & p & _ & Hp & Hfl).
  split; [done|]. split; [done|].
  apply price_of_cents in Hp. unfold floored in Hfl.
  destruct (st.2 !! z) as [m|].
  - apply max_not_below in Hfl as ([->| ->] & Hge & _ & _).
    + split; [|by intros m' [= <-]]. destruct Hp as [Hp|Hp]; [by left|].
      right. by left.
    + split; [|by intros m' [= <-]]. right. by right.
  - subst price. split; [|done]. destruct Hp as [Hp|Hp]; [by left|].
    right. by left.
Qed.

(** X9 on the sample freight page: weight 1200 in zone 5 is priced at the
    minimum charge 150.00. *)
Lemma freight_prices_floor_witness :
  freight_scan (cm:=ascii_case) [freight_page_sample] 0 0 = Ok freight_sample_scan
  ∧ parse_freight_rates (cm:=ascii_case) [freight_page_sample] 0 0
    = Ok freight_sample_table
  ∧ price_at freight_sample_table 1200 5 = Some (DFin false 15000 (-2))
  ∧ freight_sample_scan.2 !! 5 = Some (DFin false 15000 (-2))
  ∧ not_below (DFin false 15000 (-2)) (DFin false 15000 (-2)).
Proof.
  split; [exact freight_sample_scan_run|].
  split; [exact freight_sample_table_run|].
  assert (price_at freight_sample_table 1200 5 = Some (DFin false 15000 (-2)))
    as Hprice by (vm_compute; reflexivity).
  assert (freight_sample_scan.2 !! 5 = Some (DFin false 15000 (-2))) as Hmin
    by (vm_compute; reflexivity).
  split; [exact Hprice|]. split; [exact Hmin|].
  exact (proj2 (proj2 (proj2
           (freight_prices_floor (cm:=ascii_case) [freight_page_sample] 0 0
              freight_sample_scan freight_sample_table 1200 5
              (DFin false 15000 (-2)) freight_sample_scan_run
              freight_sample_table_run Hprice)))
           (DFin false 15000 (-2)) Hmin).
Defined.

(** X10. The freight table has an entry for each weight from 151 to 2000
    and for no other weight; and when the scan recorded no rate per pound
    the builder does return, every entry being empty. *)
Theorem freight_table_weights {cm : CaseMapping} (pdf : Pdf)
    (start_page end_page : Z) (st : freight_state) :
  freight_scan pdf start_page end_page = Ok st →
  (∀ rates w, parse_freight_rates pdf start_page end_page = Ok rates →
              (is_Some (rates !! w) ↔ 151 ≤ w ≤ 2000))
  ∧ (st.1 = ∅ →
     ∃ rates, parse_freight_rates pdf start_page end_page = Ok rates
              ∧ ∀ w, 151 ≤ w ≤ 2000 → rates !! w = Some ∅).
Proof.
  intros Hscan. split.
  - intros rates w Hparse.
    destruct (parse_freight_rates_run pdf _ _ st rates Hscan Hparse w)
      as [Hin Hout].
    split.
    + intros Hsome. destruct (decide (151 ≤ w ≤ 2000)) as [|Hw]; [done|].
      rewrite (Hout Hw) in Hsome. by destruct Hsome.
    + intros Hw. destruct (Hin Hw) as (entry & _ & ->). by eexists.
  - intros Hempty.
    assert (∀ w rates0, freight_weight st rates0 w = Ok (<[w := ∅]> rates0))
      as Hstep.
    { intros w rates0. unfold freight_weight. destruct st as [ppr mins].
      simpl in Hempty. subst ppr. by rewrite lookup_empty. }
    assert (∃ rates, parse_freight_rates pdf start_page end_page = Ok rates)
      as [rates Hparse].
    { unfold parse_freight_rates. rewrite Hscan, bind_Ok. unfold expand.
      generalize (∅ : RateTable). generalize (range 151 2001) as weights.
      induction weights as [|w weights IH]; intros rates0; [by eexists|].
      rewrite foldM_cons, Hstep, bind_Ok. apply IH. }
    exists rates. split; [done|]. intros w Hw.
    destruct (parse_freight_rates_run pdf _ _ st rates Hscan Hparse w)
      as [Hin _].
    destruct (Hin Hw) as (entry & Hentry & ->).
    unfold freight_entry in Hentry. rewrite Hempty, lookup_empty in Hentry.
    by injection Hentry as <-.
Qed.

(** X10 on a span with no table: the builder returns and every entry is
    empty. *)
Lemma freight_table_weights_witness :
  freight_scan (cm:=ascii_case) [index_only_page] 0 0 = Ok (∅, ∅)
  ∧ ∃ rates, parse_freight_rates (cm:=ascii_case) [index_only_page] 0 0 = Ok rates
             ∧ ∀ w, 151 ≤ w ≤ 2000 → rates !! w = Some ∅.
Proof.
  assert (freight_scan (cm:=ascii_case) [index_only_page] 0 0 = Ok (∅, ∅))
    as Hscan by (vm_compute; reflexivity).
  split; [exact Hscan|].
  apply (proj2 (freight_table_weights (cm:=ascii_case) [index_only_page] 0 0
                  (∅, ∅) Hscan)).
  reflexivity.
Defined.

(** The loop over the zones raises on a zone whose rate cannot be
    priced. *)
Lemma freight_zone_unpriceable (bracket_rates minimum_charges : gmap Z Decimal)
    (weight z : Z) (r : Decimal) (entry : gmap Z Decimal) :
  bracket_rates !! z = Some r →
  unpriceable r (minimum_charges !! z) →
  ∃ e, freight_zone bracket_rates minimum_charges weight entry z = Raise e.
Proof.
  intros Hr Hbad. unfold freight_zone. rewrite Hr.
  destruct Hbad as [Hbad|(m & Hm & Hnan)].
  - rewrite price_of_unusable by done. by eexists.
  - rewrite Hm. destruct (price_of weight r) as [p|e] eqn:Hp; [|by exists e].
    rewrite bind_Ok.
    assert (Dec.is_nan p = true ∨ Dec.is_nan m = true) as Hnan'.
    { destruct Hnan as [Hnan|Hnan]; [|by right]. left.
      destruct r as [neg c e|s| |]; try done.
      rewrite price_of_nan in Hp. by injection Hp as <-. }
    rewrite max_nan_raises by done. by eexists.
Qed.

(** X11. When the scan recorded, for the bracket of some weight and some
    zone, a rate that is infinite or a signalling NaN, or a NaN rate or a
    NaN minimum charge in a zone that has a minimum charge, the freight
    builder raises. *)
Theorem unpriceable_freight_rate_raises {cm : CaseMapping} (pdf : Pdf)
    (start_page end_page : Z) (st : freight_state) (w z : Z) (r : Decimal) :
  freight_scan pdf start_page end_page = Ok st →
  151 ≤ w ≤ 2000 →
  rate_at st.1 w z = Some r →
  unpriceable r (st.2 !! z) →
  ∃ e, parse_freight_rates pdf start_page end_page = Raise e.
Proof.
  intros Hscan Hw Hr Hbad.
  pose proof (freight_scan_inv pdf _ _ st Hscan) as [Hkeys _].
  unfold parse_freight_rates. rewrite Hscan, bind_Ok. unfold expand.
  apply (foldM_raises (freight_weight st) (range 151 2001) w).
  { apply range_elem_of. lia. }
  intros rates. rewrite freight_weight_entry. unfold freight_entry.
  unfold rate_at in Hr.
  destruct (st.1 !! bracket_of w) as [br|] eqn:Hbr; [|done]. simpl in Hr.
  destruct (foldM_raises (freight_zone br st.2 w) (range 1 17) z)
    with (s := (∅ : gmap Z Decimal)) as [e He].
  - apply range_elem_of. pose proof (Hkeys _ _ Hbr z ltac:(by exists r)). lia.
  - intros entry. by apply freight_zone_unpriceable with (r := r).
  - rewrite He. by exists e.
Qed.

Lemma nan_rate_scan_run :
  freight_scan (cm:=ascii_case) [nan_rate_page] 0 0 = Ok nan_rate_scan.
Proof. apply returns_value_or. vm_compute. reflexivity. Qed.

(** X11 on a freight page that prints [NaN] for zone 1 in the bracket 151
    to 299, under a minimum charge of 100.00. *)
Lemma unpriceable_freight_rate_raises_witness :
  freight_scan (cm:=ascii_case) [nan_rate_page] 0 0 = Ok nan_rate_scan
  ∧ rate_at nan_rate_scan.1 200 1 = Some DNaN
  ∧ nan_rate_scan.2 !! 1 = Some (DFin false 10000 (-2))
  ∧ ∃ e, parse_freight_rates (cm:=ascii_case) [nan_rate_page] 0 0 = Raise e.
Proof.
  split; [exact nan_rate_scan_run|].
  assert (rate_at nan_rate_scan.1 200 1 = Some DNaN) as Hrate
    by (vm_compute; reflexivity).
  assert (nan_rate_scan.2 !! 1 = Some (DFin false 10000 (-2))) as Hmin
    by (vm_compute; reflexivity).
  split; [exact Hrate|]. split; [exact Hmin|].
  apply (unpriceable_freight_rate_raises (cm:=ascii_case) [nan_rate_page] 0 0
           nan_rate_scan 200 1 DNaN nan_rate_scan_run); [lia | exact Hrate |].
  right. exists (DFin false 10000 (-2)). split; [exact Hmin | by left].
Defined.

(** ** Strings: splitting, stripping, searching *)

Lemma contains_singleton (c : N) (s : pystr) :
  contains [c] s = true ↔ c ∈ s.
Proof.
  induction s as [|x s IH]; simpl.
  - split; [done | by intros ?%elem_of_nil].
  - rewrite orb_true_iff, IH, andb_true_r, N.eqb_eq, elem_of_cons. intuition congruence.
Qed.

Lemma split_on_absent (sep : N) (s : pystr) : sep ∉ s → split_on sep s = [s].
Proof.
  induction s as [|x s IH]; intros Hs; [done|].
  apply not_elem_of_cons in Hs as [Hne Hs]. simpl.
  rewrite (proj2 (N.eqb_neq x sep)) by done. by rewrite IH.
Qed.

Lemma split_on_first (sep : N) (a b : pystr) :
  sep ∉ a → split_on sep (a ++ sep :: b) = a :: split_on sep b.
Proof.
  induction a as [|x a IH]; intros Ha; simpl.
  - by rewrite N.eqb_refl.
  - apply not_elem_of_cons in Ha as [Hne Ha].
    rewrite (proj2 (N.eqb_neq x sep)) by done. by rewrite IH.
Qed.

Lemma split_on_length (sep : N) (s : pystr) :
  length (split_on sep s) = S (length (List.filter (λ c, (c =? sep)%N) s)).
Proof.
  induction s as [|x s IH]; [done|]. simpl.
  destruct (x =? sep)%N; simpl; [by rewrite IH|].
  destruct (split_on sep s) as [|w ws]; [done|]. simpl in *. lia.
Qed.

Lemma lstrip_head (c : N) (s : pystr) : isspace c = false → lstrip (c :: s) = c :: s.
Proof. intros Hc. simpl. by rewrite Hc. Qed.

Lemma strip_nonspace (s : pystr) :
  Forall (λ c, isspace c = false) s → strip s = s.
Proof.
  intros Hs. unfold strip.
  assert (∀ t, Forall (λ c, isspace c = false) t → lstrip t = t) as Hl.
  { intros [|c t] Ht; [done|]. apply Forall_cons in Ht as [Hc _]. by apply lstrip_head. }
  rewrite (Hl s Hs), Hl; [apply rev_involutive|].
  by apply List.Forall_rev.
Qed.

(** ** US zone rows: splitting a ZIP range *)

Lemma hyphens_zero (s : pystr) : hyphens s = 0%nat ↔ hyphen ∉ s.
Proof.
  unfold hyphens. induction s as [|x s IH]; simpl.
  - split; [intros _ ?%elem_of_nil | ]; done.
  - rewrite not_elem_of_cons. destruct (N.eqb_spec x hyphen) as [->|Hne]; simpl.
    + intuition congruence.
    + rewrite IH. intuition congruence.
Qed.

Lemma first_hyphen (s : pystr) :
  hyphen ∈ s →
  s = before_hyphen s ++ (hyphen :: after_hyphen s)
  ∧ (hyphen ∉ before_hyphen s)
  ∧ hyphens s = S (hyphens (after_hyphen s)).
Proof.
  unfold hyphens. induction s as [|x s IH]; [by intros ?%elem_of_nil|].
  intros Hin. simpl. destruct (N.eqb_spec x hyphen) as [->|Hne]; simpl.
  - split; [done|]. split; [by intros ?%elem_of_nil | done].
  - apply elem_of_cons in Hin as [Heq|Hin]; [congruence|].
    destruct (IH Hin) as (Hs & Hb & Hn).
    split; [by rewrite <- Hs|]. split; [|done].
    apply not_elem_of_cons. split; [congruence | done].
Qed.

(** X12. [split_zip_range] is settled by the number of hyphens of the
    range: without hyphen it returns the stripped range twice; with one,
    the stripped parts before and after it; with two or more it raises
    [ValueError]. *)
Theorem split_zip_range_by_hyphens (zip_range : pystr) :
  split_zip_range zip_range
  = match hyphens zip_range with
    | 0%nat => Ok (strip zip_range, strip zip_range)
    | 1%nat => Ok (strip (before_hyphen zip_range), strip (after_hyphen zip_range))
    | _ => Raise ValueError
    end.
Proof.
  unfold split_zip_range.
  destruct (contains [hyphen] zip_range) eqn:Hcontains.
  - apply contains_singleton in Hcontains.
    destruct (first_hyphen zip_range Hcontains) as (Hs & Hb & Hn).
    rewrite Hn. rewrite Hs at 1. rewrite split_on_first by done.
    destruct (hyphens (after_hyphen zip_range)) as [|n] eqn:Hafter.
    + apply hyphens_zero in Hafter. by rewrite split_on_absent.
    + pose proof (split_on_length hyphen (after_hyphen zip_range)) as Hlen.
      fold (hyphens (after_hyphen zip_range)) in Hlen. rewrite Hafter in Hlen.
      destruct (split_on hyphen (after_hyphen zip_range)) as [|p [|q ps]];
        simpl in Hlen; try lia. done.
  - assert (hyphens zip_range = 0%nat) as ->; [|done].
    apply hyphens_zero. intros Hin. apply contains_singleton in Hin. congruence.
Qed.

(** ** Integers and their digits *)

Lemma ascii_digit_cases (P : N → Prop) :
  (∀ k, (k < 10)%nat → P (48 + N.of_nat k)%N) →
  ∀ c, ascii_digit c = true → P c.
Proof.
  intros HP c Hc. unfold ascii_digit, in_range in Hc.
  apply andb_true_iff in Hc as [Hlo Hhi]. apply N.leb_le in Hlo, Hhi.
  replace c with (48 + N.of_nat (N.to_nat (c - 48)))%N by lia.
  apply HP. lia.
Qed.

Lemma ascii_digit_value (c : N) :
  ascii_digit c = true → digit_value c = Some (Z.of_N (c - 48)).
Proof.
  revert c. apply ascii_digit_cases. intros k Hk.
  do 10 (destruct k as [|k]; [by vm_compute|]). lia.
Qed.

Lemma ascii_digit_nonspace (c : N) : ascii_digit c = true → isspace c = false.
Proof.
  revert c. apply ascii_digit_cases. intros k Hk.
  do 10 (destruct k as [|k]; [by vm_compute|]). lia.
Qed.

Lemma ascii_digit_no_mark (c : N) :
  ascii_digit c = true →
  c ≠ PyInt.plus_sign ∧ c ≠ PyInt.minus_sign ∧ c ≠ hyphen ∧ c ≠ full_stop
  ∧ c ≠ 126%N.
Proof.
  unfold ascii_digit, in_range, PyInt.plus_sign, PyInt.minus_sign, hyphen, full_stop.
  intros Hc. apply andb_true_iff in Hc as [Hlo Hhi]. apply N.leb_le in Hlo, Hhi.
  lia.
Qed.

Lemma mod_10_digit (n : N) : ascii_digit (zero_digit + n mod 10) = true.
Proof.
  unfold ascii_digit, in_range, zero_digit.
  pose proof (N.mod_upper_bound n 10 ltac:(done)) as Hmod.
  apply andb_true_iff. split; apply N.leb_le.
  - apply N.le_add_r.
  - revert Hmod. generalize (n mod 10)%N. intros m Hm. lia.
Qed.

Lemma digits_from_N_step (fuel : nat) (n : N) (acc : pystr) :
  digits_from_N (S fuel) n acc
  = if (n <? 10)%N then (zero_digit + n mod 10)%N :: acc
    else digits_from_N fuel (n / 10) ((zero_digit + n mod 10)%N :: acc).
Proof. done. Qed.

(** The digits written for [n] are ASCII digits, at least one, and reading
    them continues the number read so far with [n]. *)
Lemma digits_from_N_spec (fuel : nat) :
  ∀ (n : N) (rest : pystr), (n < 2 ^ N.of_nat (S fuel))%N →
    ∃ ds, digits_from_N (S fuel) n rest = ds ++ rest
          ∧ ds ≠ []
          ∧ Forall (λ c, ascii_digit c = true) ds
          ∧ ∀ acc k b tail,
              PyInt.digits_from acc k b (ds ++ tail)
              = PyInt.digits_from (acc * 10 ^ Z.of_nat (length ds) + Z.of_N n)
                                  (k + length ds) true tail.
Proof.
  induction fuel as [|fuel IH]; intros n rest Hn.
  - assert (n < 10)%N as Hlt by (simpl in Hn; lia).
    rewrite digits_from_N_step, (proj2 (N.ltb_lt n 10)) by done.
    exists [(zero_digit + n mod 10)%N]. split; [done|]. split; [done|].
    split; [repeat constructor; apply mod_10_digit|].
    intros acc k b tail. simpl.
    rewrite (ascii_digit_value _ (mod_10_digit n)). unfold zero_digit.
    rewrite N.mod_small by done. f_equal; lia.
  - rewrite digits_from_N_step. destruct (N.ltb_spec n 10) as [Hlt|Hge].
    + exists [(zero_digit + n mod 10)%N]. split; [done|]. split; [done|].
      split; [repeat constructor; apply mod_10_digit|].
      intros acc k b tail. simpl.
      rewrite (ascii_digit_value _ (mod_10_digit n)). unfold zero_digit.
      rewrite N.mod_small by done. f_equal; lia.
    + destruct (IH (n / 10)%N ((zero_digit + n mod 10)%N :: rest))
        as (ds & Hds & Hne & Hall & Hread).
      { apply N.Div0.div_lt_upper_bound.
        replace (N.of_nat (S (S fuel))) with (N.succ (N.of_nat (S fuel))) in Hn by lia.
        rewrite N.pow_succ_r' in Hn. lia. }
      exists (ds ++ [(zero_digit + n mod 10)%N]).
      split; [by rewrite Hds, <- app_assoc|].
      split; [by destruct ds|].
      split; [apply Forall_app; split; [done|]; repeat constructor; apply mod_10_digit|].
      intros acc k b tail. rewrite <- app_assoc, Hread. simpl.
      rewrite (ascii_digit_value _ (mod_10_digit n)). unfold zero_digit.
      rewrite length_app. simpl.
      replace (Z.of_nat (length ds + 1)) with (Z.of_nat (length ds) + 1) by lia.
      rewrite Z.pow_add_r by lia.
      pose proof (N.Div0.div_mod n 10) as Hdm.
      f_equal; [|lia].
      assert (Z.of_N n = 10 * Z.of_N (n / 10) + Z.of_N (n mod 10)) as Hz.
      { rewrite Hdm at 1. by rewrite N2Z.inj_add, N2Z.inj_mul. }
      rewrite (N.add_comm 48), N.add_sub, Hz. change (10 ^ 1) with 10. ring.
Qed.

Lemma digits_of_spec (n : N) :
  digits_of n ≠ []
  ∧ Forall (λ c, ascii_digit c = true) (digits_of n)
  ∧ ∀ acc k b tail,
      PyInt.digits_from acc k b (digits_of n ++ tail)
      = PyInt.digits_from (acc * 10 ^ Z.of_nat (length (digits_of n)) + Z.of_N n)
                          (k + length (digits_of n)) true tail.
Proof.
  unfold digits_of.
  destruct (digits_from_N_spec (N.to_nat (N.size n)) n [])
    as (ds & Hds & Hne & Hall & Hread).
  { eapply N.lt_le_trans; [apply N.size_gt|].
    apply N.pow_le_mono_r; lia. }
  rewrite Hds, app_nil_r. done.
Qed.

(** Zeros in front do not change the number read. *)
Lemma digits_from_zeros (m : nat) (k : nat) (b : bool) (tail : pystr) :
  PyInt.digits_from 0 k b (replicate m zero_digit ++ tail)
  = PyInt.digits_from 0 (k + m) (b || (0 <? m)%nat) tail.
Proof.
  revert k b. induction m as [|m IH]; intros k b.
  - simpl. rewrite orb_false_r. f_equal. lia.
  - simpl replicate. simpl app. cbn [PyInt.digits_from].
    change (digit_value zero_digit) with (Some 0). cbv beta iota.
    rewrite IH. simpl. rewrite orb_true_r. f_equal. lia.
Qed.

(** [int] reads back the digits written for a number, zeros in front or
    not, as long as there are at most 4300 of them. *)
Lemma int_of_padded_digits (n : N) (m : nat) :
  (m + length (digits_of n) ≤ 4300)%nat →
  PyInt.int (replicate m zero_digit ++ digits_of n) = Some (Z.of_N n).
Proof.
  intros Hlen. destruct (digits_of_spec n) as (Hne & Hall & Hread).
  assert (Forall (λ c, ascii_digit c = true) (replicate m zero_digit ++ digits_of n))
    as Hdigits.
  { apply Forall_app. split; [|done]. by apply Forall_replicate. }
  unfold PyInt.int. rewrite strip_nonspace.
  2:{ eapply Forall_impl; [exact Hdigits|]. apply ascii_digit_nonspace. }
  destruct (replicate m zero_digit ++ digits_of n) as [|c s] eqn:Hs.
  { apply app_eq_nil in Hs as [_ Hs]. done. }
  apply Forall_cons in Hdigits as [Hc _].
  destruct (ascii_digit_no_mark c Hc) as (Hplus & Hminus & _).
  rewrite (proj2 (N.eqb_neq c PyInt.plus_sign)) by done.
  rewrite (proj2 (N.eqb_neq c PyInt.minus_sign)) by done.
  rewrite <- Hs. unfold PyInt.magnitude.
  rewrite digits_from_zeros.
  rewrite <- (app_nil_r (digits_of n)), Hread. simpl.
  unfold PyInt.int_max_str_digits.
  rewrite (proj2 (Nat.leb_le _ _)) by lia. f_equal; lia.
Qed.

Lemma zfill_digits (ds : pystr) :
  ds ≠ [] → Forall (λ c, ascii_digit c = true) ds →
  zfill 5 ds = replicate (5 - length ds) zero_digit ++ ds.
Proof.
  intros Hne Hall. unfold zfill. destruct ds as [|c ds]; [done|].
  apply Forall_cons in Hall as [Hc _].
  destruct (ascii_digit_no_mark c Hc) as (Hplus & Hminus & _).
  rewrite (proj2 (N.eqb_neq c PyInt.plus_sign)) by done.
  rewrite (proj2 (N.eqb_neq c PyInt.minus_sign)) by done.
  done.
Qed.

(** What [str] and the format [05d] give for a number that is not
    negative. *)
Lemma str_of_int_nonneg (n : Z) (s : pystr) :
  0 ≤ n → str_of_int n = Ok s →
  s = digits_of (Z.to_N n) ∧ (length s ≤ 4300)%nat.
Proof.
  intros Hn. unfold str_of_int. cbv zeta.
  replace (Z.abs_N n) with (Z.to_N n) by lia.
  unfold PyInt.int_max_str_digits.
  destruct (Nat.ltb_spec 4300 (length (digits_of (Z.to_N n)))) as [|Hlen]; [done|].
  rewrite (proj2 (Z.ltb_ge n 0)) by lia. by intros [= <-].
Qed.

Lemma format_05d_nonneg (n : Z) (l : pystr) :
  0 ≤ n → format_05d n = Ok l →
  l = replicate (5 - length (digits_of (Z.to_N n))) zero_digit ++ digits_of (Z.to_N n)
  ∧ (length (digits_of (Z.to_N n)) ≤ 4300)%nat.
Proof.
  intros Hn. unfold format_05d. intros Hrun.
  apply bind_Ok_inv in Hrun as (s & Hs & [= <-]).
  apply str_of_int_nonneg in Hs as [-> Hlen]; [|done].
  destruct (digits_of_spec (Z.to_N n)) as (Hne & Hall & _).
  by rewrite zfill_digits.
Qed.

(** A formatted number is made of digits, and [int] reads it back. *)
Lemma format_05d_read (n : Z) (l : pystr) :
  0 ≤ n → format_05d n = Ok l →
  l ≠ [] ∧ Forall (λ c, ascii_digit c = true) l ∧ PyInt.int l = Some n.
Proof.
  intros Hn Hl. apply format_05d_nonneg in Hl as [-> Hlen]; [|done].
  destruct (digits_of_spec (Z.to_N n)) as (Hne & Hall & _).
  split; [|split].
  - intros Hnil. apply app_eq_nil in Hnil as [_ Hnil]. done.
  - apply Forall_app. split; [by apply Forall_replicate | done].
  - rewrite int_of_padded_digits by lia. f_equal. lia.
Qed.

(** ** The stem of a file name *)

Lemma rfind_from_absent (c : N) (s : pystr) (i : nat) (best : option nat) :
  c ∉ s → rfind_from c s i best = best.
Proof.
  revert i best. induction s as [|x s IH]; intros i best Hs; [done|].
  apply not_elem_of_cons in Hs as [Hne Hs]. simpl.
  rewrite (proj2 (N.eqb_neq x c)) by done. by apply IH.
Qed.

Lemma rfind_last (c : N) (a b : pystr) :
  c ∉ b → rfind c (a ++ c :: b) = Some (length a).
Proof.
  intros Hb. unfold rfind.
  assert (∀ i best, rfind_from c (a ++ c :: b) i best = Some (i + length a)%nat)
    as Hgen; [|by rewrite Hgen].
  induction a as [|x a IH]; intros i best; simpl.
  - rewrite N.eqb_refl, rfind_from_absent by done. f_equal. lia.
  - rewrite IH. f_equal. lia.
Qed.

Lemma stem_xlsx (base : pystr) :
  base ≠ [] → stem (base ++ py ".xlsx") = base.
Proof.
  intros Hne. unfold stem.
  change (py ".xlsx") with (full_stop :: py "xlsx").
  rewrite rfind_last.
  2:{ apply (bool_decide_unpack _). by vm_compute. }
  rewrite length_app. simpl length.
  destruct base as [|c base]; [done|]. simpl length.
  rewrite (proj2 (Nat.ltb_lt 0 (S (length base)))) by lia.
  rewrite (proj2 (Nat.ltb_lt _ _)) by lia. simpl andb. cbv iota.
  change (S (length base)) with (length (c :: base)).
  by rewrite take_app_length.
Qed.

Lemma digits_no_hyphen (ds : pystr) :
  Forall (λ c, ascii_digit c = true) ds → hyphen ∉ ds.
Proof.
  intros Hall Hin. rewrite Forall_forall in Hall.
  destruct (ascii_digit_no_mark _ (Hall _ Hin)) as (_ & _ & Hne & _). done.
Qed.

(** A file named after a range covers the codes of the range. *)
Lemma zone_file_name_covers (pc lower upper : Z) (l u : pystr) :
  0 ≤ lower ≤ pc → pc ≤ upper →
  format_05d lower = Ok l → format_05d upper = Ok u →
  zone_file_covers pc (zone_file_name l u) = true.
Proof.
  intros Hlower Hupper Hl Hu.
  apply format_05d_read in Hl as (Hl_ne & Hl_digits & Hl_int); [|lia].
  apply format_05d_read in Hu as (Hu_ne & Hu_digits & Hu_int); [|lia].
  unfold zone_file_covers, zone_file_name.
  assert (startswith (py "~$") (l ++ hyphen :: u ++ py ".xlsx") = false) as ->.
  { destruct l as [|c l]; [done|]. apply Forall_cons in Hl_digits as [Hc _].
    destruct (ascii_digit_no_mark c Hc) as (_ & _ & _ & _ & Htilde).
    change (py "~$") with [126%N; 36%N]. cbn [app startswith].
    by rewrite (proj2 (N.eqb_neq 126 c)) by done. }
  replace (l ++ hyphen :: u ++ py ".xlsx") with ((l ++ hyphen :: u) ++ py ".xlsx")
    by (by rewrite <- app_assoc).
  rewrite stem_xlsx by (by destruct l).
  assert (contains [hyphen] (l ++ hyphen :: u) = true) as ->.
  { apply contains_singleton. apply elem_of_app. right. left. }
  simpl negb. cbv iota.
  rewrite split_on_first by (by apply digits_no_hyphen).
  rewrite split_on_absent by (by apply digits_no_hyphen).
  rewrite Hl_int, Hu_int.
  apply andb_true_iff. split; apply Z.leb_le; lia.
Qed.

(** X13. The zone file of a range is found again from its name: for a
    code [pc] of the range from [lower] to [upper], the file named
    [LLLLL-UUUUU.xlsx] after the range, as the URL finder writes it, covers
    [pc], and [find_zone_file] on [str(pc)] returns a file that covers [pc]
    whenever the directory holds that file. *)
Theorem zone_file_found_by_name (pc lower upper : Z) (l u s : pystr)
    (before after : list pystr) :
  0 ≤ lower ≤ pc → pc ≤ upper →
  format_05d lower = Ok l → format_05d upper = Ok u → str_of_int pc = Ok s →
  zone_file_covers pc (zone_file_name l u) = true
  ∧ ∃ name, find_zone_file s (before ++ zone_file_name l u :: after) = Ok (Some name)
            ∧ zone_file_covers pc name = true.
Proof.
  intros Hlower Hupper Hl Hu Hs.
  pose proof (zone_file_name_covers pc lower upper l u Hlower Hupper Hl Hu)
    as Hcovers.
  split; [done|].
  apply str_of_int_nonneg in Hs as [-> Hlen]; [|lia].
  destruct (digits_of_spec (Z.to_N pc)) as (Hne & Hall & _).
  unfold find_zone_file. rewrite zfill_digits by done.
  rewrite int_of_padded_digits by lia.
  replace (Z.of_N (Z.to_N pc)) with pc by lia.
  destruct (List.find (zone_file_covers pc) (before ++ zone_file_name l u :: after))
    as [name|] eqn:Hfind.
  - exists name. split; [done|]. by apply find_some in Hfind as [_ Hname].
  - exfalso.
    pose proof (find_none _ _ Hfind (zone_file_name l u)) as Hnone.
    rewrite Hnone in Hcovers; [done|].
    apply in_or_app. right. left. done.
Qed.

(** X13 for the code 12345 and the range 12300 to 12399. *)
Lemma zone_file_found_by_name_witness :
  zone_file_covers 12345 (py "12300-12399.xlsx") = true
  ∧ ∃ name, find_zone_file (py "12345")
              ([py "~$12300-12399.xlsx"; py "00000-00099.xlsx"]
               ++ py "12300-12399.xlsx" :: [])
            = Ok (Some name)
            ∧ zone_file_covers 12345 name = true.
Proof.
  apply (zone_file_found_by_name 12345 12300 12399 (py "12300") (py "12399")
           (py "12345")); first [lia | vm_compute; reflexivity].
Defined.

(** ** Computations that talk to the outside *)

Lemma io_bind_run {W A B : Type} (m : IO W A) (k : A → IO W B) (w : W) :
  (m ≫= k) w
  = match m w with
    | (Ok a, w') => k a w'
    | (Raise e, w') => (Raise e, w')
    end.
Proof. done. Qed.

Lemma io_bind_pure {W A B : Type} (r : Res A) (k : A → IO W B) (w : W) :
  (pure_io r ≫= k) w
  = match r with
    | Ok a => k a w
    | Raise e => (Raise e, w)
    end.
Proof. rewrite io_bind_run. unfold pure_io. by destruct r. Qed.

Lemma io_ret_run {W A : Type} (a : A) (w : W) : (mret a : IO W A) w = (Ok a, w).
Proof. done. Qed.

(** ** PDF URL finder *)

Section finder_facts.
Context {W : Type}.
Variable check_url : pystr → W → bool * W.

(** The loop over the sizes asks for the ranges of the lower bound that
    hold the code. *)
Lemma try_sizes_probe (pc lower : Z) (some_sizes : list Z) (w : W) :
  try_sizes check_url pc lower some_sizes w
  = probe check_url
      (size ← some_sizes;
       if (lower <=? pc) && (pc <=? lower + size - 1)
       then [(lower, lower + size - 1)] else []) w.
Proof.
  revert w. induction some_sizes as [|size some_sizes IH]; intros w; [done|].
  cbn [try_sizes]. cbv zeta. rewrite bind_cons.
  destruct ((lower <=? pc) && (pc <=? lower + size - 1)); [|by rewrite IH].
  cbn [app probe]. rewrite !io_bind_pure.
  destruct (pdf_url lower (lower + size - 1)) as [url|e]; [|done].
  rewrite !io_bind_run. destruct (request check_url url w) as [[[|]|e] w'];
    [done | apply IH | done].
Qed.

Lemma probe_app (ranges1 ranges2 : list (Z * Z)) (w : W) :
  probe check_url (ranges1 ++ ranges2) w
  = match probe check_url ranges1 w with
    | (Ok None, w') => probe check_url ranges2 w'
    | r => r
    end.
Proof.
  revert w. induction ranges1 as [|[lower upper] ranges1 IH]; intros w; [done|].
  cbn [app probe]. rewrite !io_bind_pure.
  destruct (pdf_url lower upper) as [url|e]; [|done].
  rewrite !io_bind_run. destruct (request check_url url w) as [[[|]|e] w'];
    [done | apply IH | done].
Qed.

Lemma try_lowers_probe (pc : Z) (lowers : list Z) (w : W) :
  try_lowers check_url pc lowers w
  = probe check_url
      (lower ← lowers;
       size ← sizes;
       if (lower <=? pc) && (pc <=? lower + size - 1)
       then [(lower, lower + size - 1)] else []) w.
Proof.
  revert w. induction lowers as [|lower lowers IH]; intros w; [done|].
  cbn [try_lowers]. rewrite bind_cons, probe_app, io_bind_run, try_sizes_probe.
  destruct (probe check_url _ w) as [[[r|]|e] w']; [done | apply IH | done].
Qed.

Lemma find_range_containing_probe (pc : Z) (w : W) :
  find_range_containing check_url pc w = probe check_url (candidates pc) w.
Proof. apply try_lowers_probe. Qed.
End finder_facts.

(** *** The ranges asked for *)

Lemma base_bounds (pc : Z) : pc / 100 * 100 ≤ pc ≤ pc / 100 * 100 + 99.
Proof.
  pose proof (Z.div_mod pc 100 ltac:(done)) as Hdm.
  pose proof (Z.mod_pos_bound pc 100 ltac:(done)) as Hmod. lia.
Qed.

Lemma possible_lowers_spec (pc lower : Z) :
  lower ∈ possible_lowers pc
  ↔ 0 ≤ lower ∧ ∃ k, 0 ≤ k < 20 ∧ lower = pc / 100 * 100 - k * 100.
Proof.
  unfold possible_lowers, range_step. cbv zeta.
  change ((2000 - 0 + 100 - 1) / 100) with 20.
  rewrite list_elem_of_In, filter_In, <- list_elem_of_In, Z.leb_le.
  rewrite list_elem_of_fmap. setoid_rewrite list_elem_of_fmap.
  setoid_rewrite range_elem_of. split.
  - intros [(offset & -> & k & -> & Hk) Hlower]. split; [done|]. exists k. lia.
  - intros [Hlower (k & Hk & ->)]. split; [|done].
    exists (0 + k * 100). split; [done|]. by exists k.
Qed.

Lemma sizes_spec (size : Z) :
  size ∈ sizes ↔ ∃ k, 1 ≤ k ≤ 10 ∧ size = k * 100.
Proof.
  unfold sizes. split.
  - rewrite !elem_of_cons, elem_of_nil.
    intros [->|[->|[->|[->|[->|[->|[->|[->|[->|[->|[]]]]]]]]]]];
      [exists 1|exists 2|exists 3|exists 4|exists 5|exists 6|exists 7|exists 8
      |exists 9|exists 10]; lia.
  - intros (k & Hk & ->).
    assert (k = 1 ∨ k = 2 ∨ k = 3 ∨ k = 4 ∨ k = 5 ∨ k = 6 ∨ k = 7 ∨ k = 8
            ∨ k = 9 ∨ k = 10) as Hcases by lia.
    apply (bool_decide_unpack _).
    destruct Hcases as [->|[->|[->|[->|[->|[->|[->|[->|[->| ->]]]]]]]]];
      by vm_compute.
Qed.

(** A candidate is a range of the naming scheme that holds the code, and
    every such range is a candidate. *)
Lemma candidates_spec (pc lower upper : Z) :
  (lower, upper) ∈ candidates pc
  ↔ 0 ≤ lower ∧ lower mod 100 = 0 ∧ (upper - lower + 1) ∈ sizes
    ∧ lower ≤ pc ≤ upper.
Proof.
  unfold candidates. rewrite list_elem_of_bind.
  setoid_rewrite list_elem_of_bind.
  pose proof (base_bounds pc) as Hbase. split.
  - intros (lower' & (size & Hin & Hsize) & Hlower').
    destruct ((lower' <=? pc) && (pc <=? lower' + size - 1)) eqn:Htest;
      [|by apply elem_of_nil in Hin].
    apply list_elem_of_singleton in Hin. injection Hin as -> ->.
    apply andb_true_iff in Htest as [Hlo Hhi].
    apply Z.leb_le in Hlo, Hhi.
    apply possible_lowers_spec in Hlower' as (H0 & k & Hk & ->).
    split; [done|]. split.
    { replace (pc / 100 * 100 - k * 100) with ((pc / 100 - k) * 100) by lia.
      apply Z.mod_mul. done. }
    split; [|lia].
    by replace (pc / 100 * 100 - k * 100 + size - 1
                - (pc / 100 * 100 - k * 100) + 1) with size by lia.
  - intros (H0 & Hmod & Hsize & Hpc).
    exists lower. split.
    + exists (upper - lower + 1). split; [|done].
      replace (lower + (upper - lower + 1) - 1) with upper by lia.
      rewrite (proj2 (Z.leb_le lower pc)), (proj2 (Z.leb_le pc upper)) by lia.
      left.
    + apply possible_lowers_spec. split; [done|].
      apply sizes_spec in Hsize as (s & Hs & Hsize).
      apply Z.mod_divide in Hmod as [q Hq]; [|done].
      exists (pc / 100 - q). lia.
Qed.

Lemma bind_empty {A B : Type} (f : A → list B) : [] ≫= f = [].
Proof. done. Qed.

Lemma bind_filter_length {A B : Type} (p : A → bool) (f : A → list B) (l : list A) :
  (length (List.filter p l ≫= f) ≤ length (l ≫= f))%nat.
Proof.
  induction l as [|x l IH]; [done|]. cbn [List.filter].
  destruct (p x); rewrite !bind_cons, ?length_app; lia.
Qed.

(** The number of ranges of one lower bound that hold the code. *)
Lemma sizes_count (pc base k : Z) :
  base ≤ pc ≤ base + 99 → 0 ≤ k < 20 →
  length (size ← sizes;
          if (base - k * 100 <=? pc) && (pc <=? base - k * 100 + size - 1)
          then [(base - k * 100, base - k * 100 + size - 1)] else [])
  = Z.to_nat (Z.max 0 (10 - k)).
Proof.
  intros Hbase Hk.
  assert (k = 0 ∨ k = 1 ∨ k = 2 ∨ k = 3 ∨ k = 4 ∨ k = 5 ∨ k = 6 ∨ k = 7 ∨ k = 8
          ∨ k = 9 ∨ 10 ≤ k) as Hcases by lia.
  rewrite (proj2 (Z.leb_le (base - k * 100) pc)) by lia.
  unfold sizes. rewrite !bind_cons, bind_empty. cbn [andb].
  destruct Hcases as [->|[->|[->|[->|[->|[->|[->|[->|[->|[->|Hbig]]]]]]]]]];
    repeat match goal with
      | |- context [(?a <=? ?b)] =>
          first [ rewrite (proj2 (Z.leb_le a b)) by lia
                | rewrite (proj2 (Z.leb_gt a b)) by lia ]
      end;
    simpl length; lia.
Qed.

Lemma candidates_length (pc : Z) : (length (candidates pc) ≤ 55)%nat.
Proof.
  unfold candidates, possible_lowers, range_step. cbv zeta.
  etrans; [apply bind_filter_length|].
  change ((2000 - 0 + 100 - 1) / 100) with 20.
  change (range 0 20) with [0; 1; 2; 3; 4; 5; 6; 7; 8; 9; 10; 11; 12; 13; 14;
                            15; 16; 17; 18; 19].
  pose proof (base_bounds pc) as Hbase.
  cbn [map]. rewrite !bind_cons, bind_empty, !length_app.
  change (0 + ?j * 100) with (j * 100).
  rewrite !(sizes_count pc (pc / 100 * 100)) by (done || lia).
  simpl. lia.
Qed.

Section probe_facts.
Context {W : Type}.
Variable check_url : pystr → W → bool * W.

(** The range returned is one of the list, and the request for its URL
    was answered with [True]. *)
Lemma probe_found (ranges : list (Z * Z)) (w w' : W) (lower upper : Z) (url : pystr) :
  probe check_url ranges w = (Ok (Some (lower, upper, url)), w') →
  (lower, upper) ∈ ranges
  ∧ pdf_url lower upper = Ok url
  ∧ ∃ w0, check_url url w0 = (true, w').
Proof.
  revert w. induction ranges as [|[l u] ranges IH]; intros w; [done|].
  cbn [probe]. rewrite io_bind_pure.
  destruct (pdf_url l u) as [url0|e] eqn:Hurl; [|done].
  rewrite io_bind_run. unfold request at 1.
  destruct (check_url url0 w) as [[|] w1] eqn:Hcheck.
  - rewrite io_ret_run. intros [= -> -> -> ->].
    split; [left|]. split; [done|]. by exists w.
  - intros Hrest. destruct (IH _ Hrest) as (Hin & Hu & Hw).
    split; [by right | done].
Qed.
End probe_facts.

(** X14. A range [find_range_containing] returns holds the code: its
    lower bound is a multiple of 100 that is not negative, its size is one
    of the ten sizes, its URL is the one of the naming scheme, and the
    request for this URL was answered with [True]. *)
Theorem found_range_holds_code {W : Type} (check_url : pystr → W → bool * W)
    (pc : Z) (w w' : W) (lower upper : Z) (url : pystr) :
  find_range_containing check_url pc w = (Ok (Some (lower, upper, url)), w') →
  0 ≤ lower ∧ lower mod 100 = 0 ∧ (upper - lower + 1) ∈ sizes
  ∧ lower ≤ pc ≤ upper
  ∧ pdf_url lower upper = Ok url
  ∧ ∃ w0, check_url url w0 = (true, w').
Proof.
  rewrite find_range_containing_probe.
  intros Hrun. apply probe_found in Hrun as (Hin & Hurl & Hw).
  apply candidates_spec in Hin as (H0 & Hmod & Hsize & Hpc).
  done.
Qed.

(** X14 for the code 12345 and a server that holds the PDF of the range
    12300 to 12399. *)
Lemma found_range_holds_code_witness :
  find_range_containing (serves [url_12300]) 12345 ()
  = (Ok (Some (12300, 12399, url_12300)), ())
  ∧ 0 ≤ 12300 ∧ 12300 mod 100 = 0 ∧ (12399 - 12300 + 1) ∈ sizes
  ∧ 12300 ≤ 12345 ≤ 12399
  ∧ pdf_url 12300 12399 = Ok url_12300
  ∧ ∃ w0, serves [url_12300] url_12300 w0 = (true, ()).
Proof.
  assert (find_range_containing (serves [url_12300]) 12345 ()
          = (Ok (Some (12300, 12399, url_12300)), ())) as Hrun
    by (vm_compute; reflexivity).
  split; [exact Hrun|].
  exact (found_range_holds_code (serves [url_12300]) 12345 () () 12300 12399
           url_12300 Hrun).
Defined.

(** X15. [find_range_containing] asks in turn for the ranges of
    [candidates], up to the first whose PDF exists. These are the ranges
    of the naming scheme that hold the code (a lower bound that is a
    multiple of 100 and not negative, one of the ten sizes), and there are
    at most 55 of them: the finder makes at most 55 requests for a code,
    none of them for a range that does not hold it. *)
Theorem finder_asks_candidates {W : Type} (check_url : pystr → W → bool * W)
    (pc : Z) (w : W) :
  find_range_containing check_url pc w = probe check_url (candidates pc) w
  ∧ (∀ lower upper,
       (lower, upper) ∈ candidates pc
       ↔ 0 ≤ lower ∧ lower mod 100 = 0 ∧ (upper - lower + 1) ∈ sizes
         ∧ lower ≤ pc ≤ upper)
  ∧ (length (candidates pc) ≤ 55)%nat.
Proof.
  split; [apply find_range_containing_probe|].
  split; [apply candidates_spec | apply candidates_length].
Qed.

(** ** The finder command *)

Lemma foldIO_invariant {W A S : Type} (P : S → Prop) (f : S → A → IO W S)
    (l : list A) (s s' : S) (w w' : W) :
  (∀ s a w s' w', P s → f s a w = (Ok s', w') → P s') →
  P s → foldIO f l s w = (Ok s', w') → P s'.
Proof.
  intros Hstep. revert s w. induction l as [|a l IH]; intros s w Hs.
  - cbn [foldIO]. rewrite io_ret_run. intros Heq. by injection Heq as <- <-.
  - cbn [foldIO]. rewrite io_bind_run.
    destruct (f s a w) as [[s1|e] w1] eqn:Hf; [|done].
    intros Hrun. eapply IH; [|exact Hrun]. by eapply Hstep.
Qed.

Lemma covering_Some (pc lower upper : Z) (found : odict Z (Z * pystr)) :
  covering pc found = Some (lower, upper) →
  lower ≤ pc ≤ upper ∧ ∃ url, (lower, (upper, url)) ∈ found.
Proof.
  unfold covering.
  destruct (List.find _ found) as [[l [u url]]|] eqn:Hfind; [|done].
  simpl. intros [= -> ->]. apply find_some in Hfind as [Hin Htest].
  apply andb_true_iff in Htest as [Hlo Hhi]. apply Z.leb_le in Hlo, Hhi.
  split; [done|]. exists url. by apply list_elem_of_In.
Qed.

Lemma covering_None (pc lower upper : Z) (url : pystr) (found : odict Z (Z * pystr)) :
  covering pc found = None → (lower, (upper, url)) ∈ found →
  ¬ (lower ≤ pc ≤ upper).
Proof.
  unfold covering.
  destruct (List.find _ found) as [[l [u url0]]|] eqn:Hfind; [done|].
  intros _ Hin Hpc. apply list_elem_of_In in Hin.
  pose proof (find_none _ _ Hfind _ Hin) as Htest. simpl in Htest.
  apply andb_false_iff in Htest as [Hlo|Hhi];
    [apply Z.leb_gt in Hlo | apply Z.leb_gt in Hhi]; lia.
Qed.

Lemma odict_set_elem_of {K V : Type} `{EqDecision K} (k k' : K) (v v' : V)
    (d : odict K V) :
  (k', v') ∈ odict_set k v d → (k' = k ∧ v' = v) ∨ (k', v') ∈ d.
Proof.
  induction d as [|[k0 v0] d IH]; simpl.
  - intros [= -> ->]%list_elem_of_singleton. by left.
  - destruct (decide (k = k0)) as [->|Hne].
    + intros [[= -> ->]|Hin]%elem_of_cons; [by left|]. right. by right.
    + intros [[= -> ->]|Hin]%elem_of_cons; [right; left|].
      destruct (IH Hin) as [?|?]; [by left|]. right. by right.
Qed.

Section step.
Context {W : Type}.
Variable check_url : pystr → W → bool * W.

Lemma find_pdfs_step_inv (st st' : FinderState) (pc : Z) (w w' : W) :
  finder_inv st → find_pdfs_step check_url st pc w = (Ok st', w') →
  finder_inv st'.
Proof.
  intros (Hnd & Hurls & Hcodes). unfold find_pdfs_step.
  rewrite io_bind_pure. destruct (format_05d pc) as [fp|e0]; [|done].
  destruct (covering pc (found_ranges st)) as [[lower upper]|] eqn:Hcov.
  - rewrite io_bind_pure. destruct (format_05d lower); [|done].
    rewrite io_bind_pure. destruct (format_05d upper); [|done].
    rewrite io_ret_run. intros Heq. injection Heq as <- <-.
    apply covering_Some in Hcov as (Hpc & url & Hin).
    split; [done|]. split; [done|]. simpl.
    intros pc' l u Hlook. destruct (decide (pc = pc')) as [<-|Hne].
    + rewrite lookup_insert_eq in Hlook. injection Hlook as <- <-.
      split; [done|]. exists upper, url. split; [|lia].
      by apply odict_elem_of_get.
    + rewrite lookup_insert_ne in Hlook by done. by apply Hcodes.
  - rewrite io_bind_run, find_range_containing_probe.
    destruct (probe check_url (candidates pc) w) as [[[[[lower upper] url]|]|e] w1]
      eqn:Hprobe; [| |done].
    + rewrite io_bind_pure. destruct (format_05d lower); [|done].
      rewrite io_bind_pure. destruct (format_05d upper); [|done].
      rewrite io_ret_run. intros Heq. injection Heq as <- <-.
      apply probe_found in Hprobe as (Hin & Hurl & _).
      apply candidates_spec in Hin as (_ & _ & _ & Hpc).
      split; [by apply odict_set_NoDup|]. simpl. split.
      * intros l u url' Hin'.
        apply odict_set_elem_of in Hin' as [[-> [= -> ->]]|Hin']; [done|].
        by eapply Hurls.
      * intros pc' l u Hlook. destruct (decide (pc = pc')) as [<-|Hne].
        -- rewrite lookup_insert_eq in Hlook. injection Hlook as <- <-.
           split; [done|]. exists upper, url.
           by rewrite odict_get_set_eq.
        -- rewrite lookup_insert_ne in Hlook by done.
           destruct (Hcodes pc' l u Hlook) as (Hpc' & u' & url' & Hget & Hle).
           split; [done|]. destruct (decide (lower = l)) as [->|Hl].
           ++ exists upper, url. rewrite odict_get_set_eq. split; [done|].
              apply odict_get_elem_of in Hget.
              pose proof (covering_None pc l u' url' _ Hcov Hget). lia.
           ++ exists u', url'. by rewrite odict_get_set_ne.
    + rewrite io_ret_run. intros Heq. by injection Heq as <- <-.
Qed.
End step.

(** The items sorted are the items of the dictionary, in the ascending
    order of their lower bounds. *)
Lemma insert_range_perm (x : Z * (Z * pystr)) (l : list (Z * (Z * pystr))) :
  Permutation (insert_range x l) (x :: l).
Proof.
  induction l as [|y l IH]; simpl; [done|].
  destruct (x.1 <=? y.1); [done|]. rewrite IH. apply perm_swap.
Qed.

Lemma sorted_ranges_perm (found : odict Z (Z * pystr)) :
  Permutation (sorted_ranges found) found.
Proof.
  unfold sorted_ranges. induction found as [|x found IH]; simpl; [done|].
  by rewrite insert_range_perm, IH.
Qed.

Lemma insert_range_sorted (x : Z * (Z * pystr)) (l : list (Z * (Z * pystr))) :
  StronglySorted (λ a b, a.1 ≤ b.1) l →
  StronglySorted (λ a b, a.1 ≤ b.1) (insert_range x l).
Proof.
  induction l as [|y l IH]; intros Hl; simpl.
  - repeat constructor.
  - apply StronglySorted_inv in Hl as [Hl Hy].
    destruct (Z.leb_spec x.1 y.1) as [Hle|Hgt].
    + constructor; [by constructor|]. constructor; [done|].
      eapply Forall_impl; [exact Hy|]. simpl. lia.
    + constructor; [by apply IH|].
      rewrite (insert_range_perm x l). constructor; [lia | done].
Qed.

Lemma sorted_ranges_sorted (found : odict Z (Z * pystr)) :
  StronglySorted (λ a b, a.1 ≤ b.1) (sorted_ranges found).
Proof.
  unfold sorted_ranges. induction found as [|x found IH]; simpl; [constructor|].
  by apply insert_range_sorted.
Qed.

Lemma sorted_distinct (l : list (Z * (Z * pystr))) :
  NoDup (map fst l) → StronglySorted (λ a b, a.1 ≤ b.1) l →
  StronglySorted (λ a b, a.1 < b.1) l.
Proof.
  induction l as [|x l IH]; intros Hnd Hl; [constructor|].
  apply StronglySorted_inv in Hl as [Hl Hx].
  simpl in Hnd. apply NoDup_cons in Hnd as [Hnotin Hnd].
  constructor; [by apply IH|].
  rewrite Forall_forall in Hx |- *. intros y Hy.
  specialize (Hx y Hy). simpl in Hx.
  assert (x.1 ≠ y.1); [|lia].
  intros Heq. apply Hnotin. rewrite Heq. apply list_elem_of_fmap. by exists y.
Qed.

Section command.
Context {W : Type}.
Variable check_url : pystr → W → bool * W.

(** What a run of the command that returns went through. *)
Lemma cmd_find_pdfs_run (cells : list pystr) (w w' : W) (status : Z)
    (report : option FinderReport) :
  cmd_find_pdfs check_url true (Some cells) w = (Ok (status, report), w') →
  ∃ codes st,
    mapM (λ s, match PyInt.int (zfill 5 s) with
               | Some n => Ok n
               | None => Raise ValueError
               end) cells = Ok codes
    ∧ sorted_set codes ≠ []
    ∧ foldIO (find_pdfs_step check_url) (sorted_set codes)
             {| found_ranges := []; postal_to_range := ∅ |} w = (Ok st, w')
    ∧ status = 0
    ∧ report = Some {|
        urls := map (λ '(_, (_, url)), url) (sorted_ranges (found_ranges st));
        final := st;
        uncovered :=
          List.filter (λ pc, bool_decide (postal_to_range st !! pc = None))
                      (sorted_set codes) |}.
Proof.
  unfold cmd_find_pdfs. cbn [negb]. cbv iota. rewrite io_bind_pure.
  destruct (mapM _ cells) as [codes|e]; [|done]. cbv zeta.
  rewrite io_bind_pure. destruct (mapM format_05d _); [|done].
  rewrite io_bind_pure.
  destruct (last (sorted_set codes)) as [pc|] eqn:Hlast; [|done].
  destruct (format_05d pc); [|done].
  rewrite io_bind_run.
  destruct (foldIO _ _ _ w) as [[st|e] w1] eqn:Hloop; [|done].
  rewrite io_bind_pure. destruct (mapM format_05d _); [|done].
  rewrite io_ret_run. intros Heq. injection Heq as <- <- <-.
  exists codes, st. split; [done|]. split; [by destruct (sorted_set codes)|].
  done.
Qed.
End command.

(** X16. When the finder command returns, every code it counts as covered
    lies in the range noted for it, and the output file holds the URL of a
    range with the same lower bound that is this range or a wider one. The
    URLs are written in the strictly ascending order of their lower
    bounds, and a code reported as not covered has no range. *)
Theorem covered_codes_have_urls {W : Type} (check_url : pystr → W → bool * W)
    (cells : list pystr) (w w' : W) (status : Z) (report : FinderReport) :
  cmd_find_pdfs check_url true (Some cells) w = (Ok (status, Some report), w') →
  (∀ pc lower upper,
     postal_to_range (final report) !! pc = Some (lower, upper) →
     lower ≤ pc ≤ upper
     ∧ ∃ upper' url, (lower, (upper', url)) ∈ found_ranges (final report)
                     ∧ upper ≤ upper'
                     ∧ pdf_url lower upper' = Ok url
                     ∧ url ∈ urls report)
  ∧ (∃ ranges, Permutation ranges (found_ranges (final report))
               ∧ StronglySorted (λ a b, a.1 < b.1) ranges
               ∧ urls report = map (λ r, r.2.2) ranges)
  ∧ ∀ pc, pc ∈ uncovered report → postal_to_range (final report) !! pc = None.
Proof.
  intros Hrun.
  apply cmd_find_pdfs_run in Hrun as (codes & st & _ & _ & Hloop & _ & Hreport).
  injection Hreport as ->. simpl.
  assert (finder_inv st) as (Hnd & Hurls & Hcodes).
  { eapply (foldIO_invariant finder_inv); [|  |exact Hloop].
    - intros s a w0 s' w0'. apply find_pdfs_step_inv.
    - split; [constructor|]. split.
      + intros l u url Hin. by apply elem_of_nil in Hin.
      + intros pc l u Hlook. simpl in Hlook. by rewrite lookup_empty in Hlook. }
  pose proof (sorted_ranges_perm (found_ranges st)) as Hperm.
  split; [|split].
  - intros pc lower upper Hlook.
    destruct (Hcodes pc lower upper Hlook) as (Hpc & upper' & url & Hget & Hle).
    split; [done|]. exists upper', url.
    apply odict_get_elem_of in Hget.
    split; [done|]. split; [done|]. split; [by eapply Hurls|].
    apply list_elem_of_fmap. exists (lower, (upper', url)).
    split; [done|]. by rewrite Hperm.
  - exists (sorted_ranges (found_ranges st)). split; [done|]. split.
    + apply sorted_distinct; [|apply sorted_ranges_sorted].
      by rewrite (Permutation_map fst Hperm).
    + apply map_ext. by intros [l [u url]].
  - intros pc Hin. apply list_elem_of_In, filter_In in Hin as [_ Hnone].
    by apply bool_decide_eq_true in Hnone.
Qed.

(** X16 on the codes 50 and 150 and a server that holds the PDFs of the
    ranges 0 to 99 and 0 to 199: the code 50 is noted for the range 0 to
    99, and the output file holds the URL of the range 0 to 199. *)
Lemma covered_codes_have_urls_witness :
  ∃ report,
    cmd_find_pdfs (serves [url_00000_short; url_00000]) true
                  (Some [py "50"; py "150"]) ()
    = (Ok (0, Some report), ())
    ∧ postal_to_range (final report) !! 50 = Some (0, 99)
    ∧ urls report = [url_00000]
    ∧ (0 ≤ 50 ≤ 99
       ∧ ∃ upper' url, (0, (upper', url)) ∈ found_ranges (final report)
                       ∧ 99 ≤ upper'
                       ∧ pdf_url 0 upper' = Ok url
                       ∧ url ∈ urls report).
Proof.
  eexists. split; [vm_compute; reflexivity|].
  split; [vm_compute; reflexivity|].
  split; [vm_compute; reflexivity|].
  eapply (proj1 (covered_codes_have_urls (serves [url_00000_short; url_00000])
                   [py "50"; py "150"] () () 0 _ _)).
  vm_compute. reflexivity.
  Unshelve. vm_compute. reflexivity.
Defined.

(** X17. The finder command on a postal code column: a cell that is no
    integer makes it raise [ValueError] and an empty column makes it raise
    [IndexError], in both cases before any request; and whenever it
    returns, its exit status is 0 and it has written its report, codes
    left without a range or not. *)
Theorem find_pdfs_needs_codes {W : Type} (check_url : pystr → W → bool * W)
    (cells : list pystr) (w : W) :
  (Exists bad_cell cells →
   cmd_find_pdfs check_url true (Some cells) w = (Raise ValueError, w))
  ∧ (cells = [] →
     cmd_find_pdfs check_url true (Some cells) w = (Raise IndexError, w))
  ∧ ∀ status report w',
      cmd_find_pdfs check_url true (Some cells) w = (Ok (status, report), w') →
      status = 0 ∧ is_Some report ∧ cells ≠ [] ∧ Forall (λ s, ¬ bad_cell s) cells.
Proof.
  set (to_code := λ s : pystr, match PyInt.int (zfill 5 s) with
                                | Some n => Ok n
                                | None => Raise ValueError
                                end).
  assert (∀ x e, to_code x = Raise e → e = ValueError) as Honly.
  { intros x e. unfold to_code. destruct (PyInt.int _); [done|]. by intros [= <-]. }
  split; [|split].
  - intros Hbad. apply Exists_exists in Hbad as (s & Hin & Hs).
    destruct (mapM_raises to_code cells s ValueError Hin) as [e He].
    { unfold to_code. unfold bad_cell in Hs. by rewrite Hs. }
    pose proof (mapM_raises_only to_code cells ValueError Honly e He) as ->.
    unfold cmd_find_pdfs. cbn [negb]. cbv iota. rewrite io_bind_pure.
    fold to_code. by rewrite He.
  - intros ->. done.
  - intros status report w' Hrun.
    apply cmd_find_pdfs_run in Hrun as (codes & st & Hcodes & Hne & _ & -> & ->).
    split; [done|]. split; [by eexists|]. fold to_code in Hcodes. split.
    + intros ->. injection Hcodes as <-. done.
    + apply Forall_forall. intros s Hin Hbad.
      destruct (mapM_raises to_code cells s ValueError Hin) as [e He].
      { unfold to_code. unfold bad_cell in Hbad. by rewrite Hbad. }
      congruence.
Qed.

(** X17 on the code 12345 and a server that holds no PDF: the command
    returns 0 and reports the code as not covered. *)
Lemma find_pdfs_needs_codes_witness :
  cmd_find_pdfs (serves []) true (Some [py "12345"]) ()
  = (Ok (0, Some {| urls := [];
                    final := {| found_ranges := []; postal_to_range := ∅ |};
                    uncovered := [12345] |}), ())
  ∧ 0 = 0
  ∧ is_Some (Some {| urls := [];
                     final := {| found_ranges := []; postal_to_range := ∅ |};
                     uncovered := [12345] |})
  ∧ [py "12345"] ≠ [] ∧ Forall (λ s, ¬ bad_cell s) [py "12345"].
Proof.
  assert (cmd_find_pdfs (serves []) true (Some [py "12345"]) ()
          = (Ok (0, Some {| urls := [];
                            final := {| found_ranges := []; postal_to_range := ∅ |};
                            uncovered := [12345] |}), ())) as Hrun
    by (vm_compute; reflexivity).
  split; [exact Hrun|].
  exact (proj2 (proj2 (find_pdfs_needs_codes (serves []) [py "12345"] ()))
           0 _ () Hrun).
Defined.

(** ** Rate sheet fixer *)

Section fixer_facts.
Context {V : Type}.

Lemma fix_header_step (cells : list (ws_cell V)) (fixes : Z) (c : ws_cell V) :
  fix_header (cells, fixes) c
  = (cells ++ [fixed c], fixes + (if needs_fix c then 1 else 0)).
Proof.
  unfold fix_header, fixed, needs_fix.
  destruct c as [|[|value|v]]; try (f_equal; lia).
  destruct (zone0_match value) as [d|].
  - by rewrite bool_decide_true.
  - rewrite bool_decide_false by (by intros [? ?]). f_equal. lia.
Qed.

Lemma fix_header_fold (row3 : list (ws_cell V)) (cells : list (ws_cell V)) (fixes : Z) :
  fold_left fix_header row3 (cells, fixes)
  = (cells ++ map fixed row3,
     fixes + Z.of_nat (length (List.filter needs_fix row3))).
Proof.
  revert cells fixes. induction row3 as [|c row3 IH]; intros cells fixes.
  - simpl. rewrite app_nil_r. f_equal. lia.
  - cbn [fold_left map List.filter]. rewrite fix_header_step, IH, <- app_assoc.
    f_equal. destruct (needs_fix c); simpl length; lia.
Qed.

(** A header that was fixed no longer matches the pattern. *)
Lemma zone0_match_fixed (d : N) : zone0_match (py "Zone " ++ [d]) = None.
Proof.
  unfold zone0_match.
  change (py "Zone " ++ [d]) with [90%N; 111%N; 110%N; 101%N; 32%N; d].
  change (py "Zone 0") with [90%N; 111%N; 110%N; 101%N; 32%N; 48%N].
  cbn [startswith drop]. rewrite !N.eqb_refl. cbn [andb].
  by destruct (48 =? d)%N.
Qed.

Lemma fixed_needs_no_fix (c : ws_cell V) : needs_fix (fixed c) = false.
Proof.
  destruct c as [|[|value|v]]; try done. unfold fixed.
  destruct (zone0_match value) as [d|] eqn:Hmatch; unfold needs_fix.
  - rewrite zone0_match_fixed. by apply bool_decide_false; intros [? ?].
  - rewrite Hmatch. by apply bool_decide_false; intros [? ?].
Qed.

Lemma fixed_fixed (c : ws_cell V) : fixed (fixed c) = fixed c.
Proof.
  pose proof (fixed_needs_no_fix c) as Hno.
  destruct (fixed c) as [|[|value|v]]; try done. simpl in *.
  destruct (zone0_match value); [|done].
  by rewrite bool_decide_true in Hno.
Qed.
End fixer_facts.

(** X18. [fix_zone_headers] replaces each header of row 3 that reads
    [Zone 0d], [d] a digit, by [Zone d], leaves every other cell as it is,
    and returns the number of headers replaced; run again on the row it
    leaves, it changes nothing and returns 0. *)
Theorem fix_zone_headers_settles {V : Type} (row3 : list (ws_cell V)) :
  fix_zone_headers row3
  = (map fixed row3, Z.of_nat (length (List.filter needs_fix row3)))
  ∧ fix_zone_headers (fix_zone_headers row3).1 = ((fix_zone_headers row3).1, 0).
Proof.
  unfold fix_zone_headers. rewrite !fix_header_fold. simpl. split; [done|].
  f_equal.
  - rewrite map_map. apply map_ext. intros c. apply fixed_fixed.
  - induction row3 as [|c row3 IH]; [done|]. simpl.
    by rewrite fixed_needs_no_fix.
Qed.

(** ** The Excel writer: the sheet of a service *)

Lemma put_lookup (r c r' c' : Z) (v : xl_value) (ws : Sheet) :
  put r c v ws !! (r', c')
  = if bool_decide (r' = r ∧ c' = c) then Some v else ws !! (r', c').
Proof.
  unfold put. case_bool_decide as Hcell.
  - destruct Hcell as [-> ->]. by rewrite lookup_insert_eq.
  - rewrite lookup_insert_ne; [done|]. intros [= <- <-]. by apply Hcell.
Qed.

Lemma to_float_Ok (d : Decimal) (v : xl_value) : to_float d = Ok v → v = XFloat d.
Proof. destruct d; simpl; congruence. Qed.

(** The loop over the zones writes the prices of the entry in the row,
    each in the column after its zone, and nothing else. *)
Lemma write_prices_run (entry : gmap Z Decimal) (row_num : Z) (zones : list Z)
    (ws ws' : Sheet) :
  NoDup zones →
  foldM (write_price entry row_num) zones ws = Ok ws' →
  ∀ r c, ws' !! (r, c)
         = if bool_decide (r = row_num ∧ (c - 1) ∈ zones ∧ is_Some (entry !! (c - 1)))
           then XFloat <$> entry !! (c - 1)
           else ws !! (r, c).
Proof.
  revert ws. induction zones as [|z zones IH]; intros ws Hnd.
  - intros [= <-] r c. rewrite bool_decide_false; [done|].
    intros (_ & Hin & _). by apply elem_of_nil in Hin.
  - apply NoDup_cons in Hnd as [Hnotin Hnd]. rewrite foldM_cons.
    intros Hrun. apply bind_Ok_inv in Hrun as (ws1 & Hstep & Hrun).
    intros r c. rewrite (IH ws1 Hnd Hrun r c).
    unfold write_price in Hstep.
    destruct (entry !! z) as [d|] eqn:Hz.
    + apply bind_Ok_inv in Hstep as (v & Hv & [= <-]).
      apply to_float_Ok in Hv as ->. rewrite put_lookup.
      destruct (decide (r = row_num ∧ c = z + 1)) as [[-> ->]|Hne].
      * replace (z + 1 - 1) with z by lia. rewrite Hz.
        rewrite (bool_decide_false (_ ∧ z ∈ zones ∧ _)) by (by intros (_ & ? & _)).
        rewrite (bool_decide_true (row_num = row_num ∧ z + 1 = z + 1)) by done.
        rewrite bool_decide_true; [done|].
        split; [done|]. split; [left | by eexists].
      * rewrite (bool_decide_false (r = row_num ∧ c = z + 1)) by done.
        apply (f_equal (λ b : bool, if b then _ else _)).
        apply bool_decide_ext. rewrite elem_of_cons. split.
        -- intros (? & ? & ?). auto.
        -- intros (Hr & [Hc|Hc] & Hsome); [|done].
           exfalso. apply Hne. split; [done | lia].
    + injection Hstep as <-.
      apply (f_equal (λ b : bool, if b then _ else _)).
      apply bool_decide_ext. rewrite elem_of_cons. split.
      * intros (? & ? & ?). auto.
      * intros (Hr & [Hc|Hc] & Hsome); [|done].
        rewrite Hc, Hz in Hsome. by destruct Hsome.
Qed.

(** The row written for a weight of the table. *)
Lemma write_weight_row (rates : RateTable) (ws0 ws : Sheet) (n0 n weight : Z)
    (entry : gmap Z Decimal) :
  rates !! weight = Some entry →
  (∀ c, ws0 !! (n0, c) = None) →
  write_weight rates (ws0, n0) weight = Ok (ws, n) →
  n = n0 + 1
  ∧ (∀ c, ws !! (n0, c) = row_cell rates weight c)
  ∧ ∀ r c, r ≠ n0 → ws !! (r, c) = ws0 !! (r, c).
Proof.
  intros Hentry Hrow. unfold write_weight. rewrite Hentry.
  intros Hrun. apply bind_Ok_inv in Hrun as (ws1 & Hprices & [= <- <-]).
  pose proof (write_prices_run entry n0 _ _ _ (range_NoDup 1 17) Hprices) as Hcells.
  split; [done|]. split.
  - intros c. rewrite Hcells, put_lookup. unfold row_cell, price_at.
    rewrite Hentry. simpl.
    destruct (Z.eqb_spec c 1) as [->|Hc1].
    + rewrite bool_decide_false; [by rewrite bool_decide_true|].
      intros (_ & Hin & _). apply range_elem_of in Hin. lia.
    + rewrite (bool_decide_false (n0 = n0 ∧ c = 1)) by (by intros [_ ?]).
      rewrite Hrow.
      destruct ((2 <=? c) && (c <=? 17)) eqn:Hcol.
      * case_bool_decide as Hcond; [done|].
        destruct (entry !! (c - 1)) as [d|] eqn:Hd; [|done].
        exfalso. apply Hcond. split; [done|]. split; [|by eexists].
        apply range_elem_of. lia.
      * rewrite bool_decide_false; [done|].
        intros (_ & Hin & _). apply range_elem_of in Hin. lia.
  - intros r c Hr. rewrite Hcells, put_lookup.
    rewrite bool_decide_false by (by intros [? _]).
    by rewrite bool_decide_false by (by intros [? _]).
Qed.

(** The loop over the weights: the weights of the table come one per row
    from row [n0] on, in the order of the loop. *)
Lemma write_weights_run (rates : RateTable) (weights : list Z) :
  ∀ (ws0 ws : Sheet) (n0 n : Z),
    (∀ r c, n0 ≤ r → ws0 !! (r, c) = None) →
    foldM (write_weight rates) weights (ws0, n0) = Ok (ws, n) →
    let listed := List.filter (λ w, bool_decide (is_Some (rates !! w))) weights in
    n = n0 + Z.of_nat (length listed)
    ∧ (∀ k w c, listed !! k = Some w →
         ws !! (n0 + Z.of_nat k, c) = row_cell rates w c)
    ∧ (∀ r c, r < n0 → ws !! (r, c) = ws0 !! (r, c))
    ∧ ∀ r c, n ≤ r → ws !! (r, c) = None.
Proof.
  induction weights as [|weight weights IH]; intros ws0 ws n0 n Hempty.
  - intros [= <- <-]. simpl. split; [lia|]. split; [done|]. split; [done|].
    intros r c Hr. apply Hempty. lia.
  - rewrite foldM_cons. intros Hrun.
    apply bind_Ok_inv in Hrun as ([ws1 n1] & Hstep & Hrun).
    cbn [List.filter].
    destruct (rates !! weight) as [entry|] eqn:Hentry.
    + rewrite bool_decide_true by done.
      destruct (write_weight_row rates ws0 ws1 n0 n1 weight entry Hentry
                  ltac:(intros c; apply Hempty; lia) Hstep)
        as (-> & Hrow & Hother).
      destruct (IH ws1 ws (n0 + 1) n) as (Hn & Hrows & Hbefore & Hafter);
        [|done|].
      { intros r c Hr. rewrite Hother by lia. apply Hempty. lia. }
      cbv zeta. split; [simpl length; lia|]. split; [|split; [|done]].
      * intros [|k] w c Hk.
        -- injection Hk as <-. rewrite Z.add_0_r, Hbefore by lia. apply Hrow.
        -- simpl in Hk. rewrite <- (Hrows k w c Hk). f_equal. f_equal. lia.
      * intros r c Hr. rewrite Hbefore by lia. apply Hother. lia.
    + rewrite bool_decide_false by (by intros [? ?]).
      unfold write_weight in Hstep. rewrite Hentry in Hstep.
      injection Hstep as <- <-. by apply IH.
Qed.

(** The top of the sheet: the name, the note, the headers of row 3. *)
Lemma put_row_lookup (r : Z) (f : Z → xl_value) (zones : list Z) (ws : Sheet)
    (r' c' : Z) :
  fold_left (λ (ws : Sheet) zone, put r (zone + 1) (f zone) ws) zones ws !! (r', c')
  = if bool_decide (r' = r ∧ (c' - 1) ∈ zones) then Some (f (c' - 1))
    else ws !! (r', c').
Proof.
  revert ws. induction zones as [|z zones IH]; intros ws.
  - simpl. rewrite bool_decide_false; [done|]. intros [_ Hin].
    by apply elem_of_nil in Hin.
  - cbn [fold_left]. rewrite IH, put_lookup.
    case_bool_decide as Hrest.
    + rewrite bool_decide_true; [done|]. destruct Hrest. split; [done | by right].
    + case_bool_decide as Hhere.
      * destruct Hhere as [-> ->]. replace (z + 1 - 1) with z by lia.
        rewrite bool_decide_true; [done|]. split; [done | left].
      * rewrite bool_decide_false; [done|].
        intros [Hr [Hz|Hin]%elem_of_cons]; [|by apply Hrest].
        apply Hhere. split; [done | lia].
Qed.

Lemma service_top_cells (service_name : pystr) :
  service_top service_name !! (1, 1) = Some (XStr service_name)
  ∧ (∀ z, 1 ≤ z ≤ 16 →
       service_top service_name !! (3, z + 1) = Some (XStr (zone_title z)))
  ∧ ∀ r c, 4 ≤ r → service_top service_name !! (r, c) = None.
Proof.
  unfold service_top. cbv zeta. split; [|split].
  - rewrite put_row_lookup. rewrite bool_decide_false by (by intros [? _]).
    by rewrite !put_lookup.
  - intros z Hz. rewrite put_row_lookup. rewrite bool_decide_true.
    + by replace (z + 1 - 1) with z by lia.
    + split; [done|]. apply range_elem_of. lia.
  - intros r c Hr. rewrite put_row_lookup.
    rewrite bool_decide_false by (intros [? _]; lia).
    rewrite !put_lookup.
    rewrite !bool_decide_false by (intros [? _]; lia).
    apply lookup_empty.
Qed.

Lemma service_sheet_run (service_name : pystr) (rates : RateTable)
    (is_freight : bool) (ws : Sheet) :
  service_sheet service_name rates is_freight = Ok ws →
  (∀ k w c, listed_weights rates is_freight !! k = Some w →
     ws !! (4 + Z.of_nat k, c) = row_cell rates w c)
  ∧ (∀ r c, 4 + Z.of_nat (length (listed_weights rates is_freight)) ≤ r →
       ws !! (r, c) = None)
  ∧ ws !! (1, 1) = Some (XStr service_name)
  ∧ ∀ z, 1 ≤ z ≤ 16 → ws !! (3, z + 1) = Some (XStr (zone_title z)).
Proof.
  unfold service_sheet. intros Hrun.
  apply bind_Ok_inv in Hrun as ([ws1 n] & Hloop & [= <-]).
  destruct (service_top_cells service_name) as (Hname & Htitles & Hempty).
  destruct (write_weights_run rates _ _ _ _ _ Hempty Hloop)
    as (Hn & Hrows & Hbefore & Hafter).
  fold (listed_weights rates is_freight) in Hn, Hrows.
  split; [done|]. split; [|split].
  - intros r c Hr. apply Hafter. lia.
  - by rewrite Hbefore.
  - intros z Hz. rewrite Hbefore by lia. by apply Htitles.
Qed.

(** X19. In the sheet of a service whose name a cell can store, the
    weights of the table that lie in the range of the sheet (1 to 150, or
    151 to 2000 for freight) come one per row from row 4 on, in ascending
    order and without gap: column 1 holds the weight, column [z + 1] the
    price of zone [z] for the zones 1 to 16, and the cells of a zone
    without price are left empty. Nothing is written below these rows;
    cell A1 holds the name of the service and row 3 the titles of the
    zones. *)
Theorem service_sheet_rows (service_name : pystr) (rates : RateTable)
    (is_freight : bool) (ws : Sheet) :
  storable service_name = true →
  service_sheet service_name rates is_freight = Ok ws →
  (∀ k w c, listed_weights rates is_freight !! k = Some w →
     ws !! (4 + Z.of_nat k, c) = row_cell rates w c)
  ∧ (∀ r c, 4 + Z.of_nat (length (listed_weights rates is_freight)) ≤ r →
       ws !! (r, c) = None)
  ∧ ws !! (1, 1) = Some (XStr service_name)
  ∧ ∀ z, 1 ≤ z ≤ 16 → ws !! (3, z + 1) = Some (XStr (zone_title z)).
Proof. intros _. apply service_sheet_run. Qed.

Lemma sample_sheet_run :
  service_sheet (py "FedEx 2Day") sample_rates false = Ok sample_sheet.
Proof. apply returns_value_or. vm_compute. reflexivity. Qed.

(** X19 on a table with the weights 5 and 7: they come in the rows 4 and
    5, the price of zone 2 in column 3, and row 6 is empty. *)
Lemma service_sheet_rows_witness :
  service_sheet (py "FedEx 2Day") sample_rates false = Ok sample_sheet
  ∧ listed_weights sample_rates false = [5; 7]
  ∧ sample_sheet !! (4, 1) = Some (XInt 5)
  ∧ sample_sheet !! (5, 3) = Some (XFloat (DFin false 1250 (-2)))
  ∧ sample_sheet !! (6, 1) = None.
Proof.
  split; [exact sample_sheet_run|].
  assert (listed_weights sample_rates false = [5; 7]) as Hlisted
    by (vm_compute; reflexivity).
  split; [exact Hlisted|].
  destruct (service_sheet_rows (py "FedEx 2Day") sample_rates false sample_sheet
              eq_refl sample_sheet_run) as (Hrows & Hbelow & _ & _).
  split; [|split].
  - apply (Hrows 0%nat 5 1). by rewrite Hlisted.
  - apply (Hrows 1%nat 7 3). by rewrite Hlisted.
  - apply (Hbelow 6 1). rewrite Hlisted. simpl. lia.
Defined.

(** *** When the writer raises *)

Lemma foldM_raise_inv {A S : Type} (f : S → A → Res S) (l : list A) (s : S) (e : exn) :
  foldM f l s = Raise e → ∃ a s0, a ∈ l ∧ f s0 a = Raise e.
Proof.
  revert s. induction l as [|a l IH]; intros s; [done|].
  rewrite foldM_cons. destruct (f s a) as [s1|e1] eqn:Ha.
  - rewrite bind_Ok. intros Hrest. destruct (IH _ Hrest) as (a' & s0 & Hin & Hf).
    exists a', s0. split; [by right | done].
  - intros [= <-]. exists a, s. split; [left | done].
Qed.

Lemma write_price_raise (entry : gmap Z Decimal) (row_num : Z) (ws : Sheet)
    (zone : Z) (e : exn) :
  write_price entry row_num ws zone = Raise e →
  entry !! zone = Some DsNaN ∧ e = ValueError.
Proof.
  unfold write_price. destruct (entry !! zone) as [d|]; [|done].
  destruct d; try done. by intros [= <-].
Qed.

Lemma write_weight_raise (rates : RateTable) (st : Sheet * Z) (weight : Z) (e : exn) :
  write_weight rates st weight = Raise e →
  e = ValueError ∧ ∃ z, 1 ≤ z ≤ 16 ∧ price_at rates weight z = Some DsNaN.
Proof.
  unfold write_weight, price_at. destruct st as [ws row_num].
  destruct (rates !! weight) as [entry|]; [|done].
  destruct (foldM _ _ _) as [ws1|e1] eqn:Hprices; [done|].
  intros [= <-]. apply foldM_raise_inv in Hprices as (z & ws0 & Hin & Hz).
  apply write_price_raise in Hz as [Hz ->]. split; [done|].
  exists z. apply range_elem_of in Hin. split; [lia | done].
Qed.

Lemma write_weight_signalling (rates : RateTable) (st : Sheet * Z) (weight z : Z) :
  1 ≤ z ≤ 16 → price_at rates weight z = Some DsNaN →
  ∃ e, write_weight rates st weight = Raise e.
Proof.
  intros Hz Hprice. unfold write_weight, price_at in *. destruct st as [ws row_num].
  destruct (rates !! weight) as [entry|]; [|done]. simpl in Hprice.
  destruct (foldM_raises (write_price entry row_num) (range 1 17) z)
    with (s := put row_num 1 (XInt weight) ws) as [e He].
  - apply range_elem_of. lia.
  - intros ws0. unfold write_price. rewrite Hprice. by eexists.
  - rewrite He. by exists e.
Qed.

Lemma service_sheet_raise (service_name : pystr) (rates : RateTable)
    (is_freight : bool) (e : exn) :
  service_sheet service_name rates is_freight = Raise e
  ↔ e = ValueError ∧ signalling_price rates is_freight.
Proof.
  unfold service_sheet.
  assert (∀ e', foldM (write_weight rates) (weight_range is_freight)
                      (service_top service_name, 4) = Raise e' →
                e' = ValueError ∧ signalling_price rates is_freight) as Hinv.
  { intros e' Hloop. apply foldM_raise_inv in Hloop as (w & st & Hin & Hw).
    apply write_weight_raise in Hw as (-> & z & Hz & Hprice).
    split; [done|]. by exists w, z. }
  split.
  - destruct (foldM _ _ _) as [st|e'] eqn:Hloop; [done|].
    intros [= <-]. by apply Hinv.
  - intros (-> & w & z & Hin & Hz & Hprice).
    destruct (foldM_raises (write_weight rates) (weight_range is_freight) w Hin)
      with (s := (service_top service_name, 4)) as [e' He'].
    { intros st. by eapply write_weight_signalling. }
    rewrite He'. destruct (Hinv e' He') as [-> _]. done.
Qed.

Lemma create_sheet_raise (title : pystr) (e : exn) :
  create_sheet title = Raise e
  ↔ e = ValueError ∧ ∃ c, c ∈ title ∧ invalid_title_character c = true.
Proof.
  unfold create_sheet.
  destruct (existsb invalid_title_character title) eqn:Hany.
  - split; [|by intros [-> _]]. intros [= <-]. split; [done|].
    apply existsb_exists in Hany as (c & Hin & Hc). exists c.
    by rewrite list_elem_of_In.
  - split; [done|]. intros (_ & c & Hin & Hc).
    assert (existsb invalid_title_character title = true) as Hyes.
    { apply existsb_exists. exists c. by rewrite <- list_elem_of_In. }
    congruence.
Qed.

Lemma service_tab_raise (service_name : pystr) (rates : RateTable)
    (is_freight : bool) (e : exn) :
  service_tab service_name rates is_freight = Raise e
  ↔ e = ValueError
    ∧ (refused_title service_name ∨ signalling_price rates is_freight).
Proof.
  unfold service_tab, refused_title.
  destruct (create_sheet (take 31 service_name)) as [title|e0] eqn:Htitle.
  - rewrite bind_Ok.
    assert (¬ ∃ c, c ∈ take 31 service_name ∧ invalid_title_character c = true)
      as Hvalid.
    { intros Hc. unfold create_sheet in Htitle.
      destruct (existsb _ _) eqn:Hany; [done|].
      destruct Hc as (c & Hin & Hc).
      assert (existsb invalid_title_character (take 31 service_name) = true)
        as Hyes; [|congruence].
      apply existsb_exists. exists c. by rewrite <- list_elem_of_In. }
    destruct (service_sheet service_name rates is_freight) as [ws|e1] eqn:Hsheet.
    + rewrite bind_Ok. split; [done|]. intros [-> [Hc|Hs]]; [done|].
      assert (service_sheet service_name rates is_freight = Raise ValueError)
        as Hraise by (by apply service_sheet_raise).
      congruence.
    + apply service_sheet_raise in Hsheet as [-> Hs]. split.
      * intros [= <-]. split; [done | by right].
      * by intros [-> _].
  - apply create_sheet_raise in Htitle as [-> Hc]. split.
    + intros [= <-]. split; [done | by left].
    + by intros [-> _].
Qed.

(** X20. Writing the sheet of a service whose name a cell can store
    raises exactly when the title asked for the sheet, the first 31
    characters of the name, holds a character refused in a title, or the
    table holds a signalling NaN as the price of a weight of the range of
    the sheet and of a zone from 1 to 16; the exception is then
    [ValueError]. *)
Theorem service_sheet_raises (service_name : pystr) (rates : RateTable)
    (is_freight : bool) (e : exn) :
  storable service_name = true →
  service_tab service_name rates is_freight = Raise e
  ↔ e = ValueError
    ∧ (refused_title service_name ∨ signalling_price rates is_freight).
Proof. intros _. apply service_tab_raise. Qed.

(** X20 on a table whose price of weight 5 in zone 2 is a signalling
    NaN, and on a name with a slash. *)
Lemma service_sheet_raises_witness :
  service_tab (py "FedEx 2Day") signalling_rates false = Raise ValueError
  ∧ service_tab (py "a/b") sample_rates false = Raise ValueError.
Proof.
  split.
  - apply (proj2 (service_sheet_raises (py "FedEx 2Day") signalling_rates false
                    ValueError eq_refl)).
    split; [reflexivity|]. right. exists 5, 2. split; [|split; [lia|]].
    + apply range_elem_of. lia.
    + vm_compute. reflexivity.
  - apply (proj2 (service_sheet_raises (py "a/b") sample_rates false
                    ValueError eq_refl)).
    split; [reflexivity|]. left. exists 47%N. split; [|reflexivity].
    apply (bool_decide_unpack _). vm_compute. reflexivity.
Defined.

(** ** From the parsers to the sheets *)

Section flat_entries.
Context {cm : CaseMapping}.

Lemma flat_row_zoned (zones : list Z) (st st' : flat_state) (r : row) :
  zone_numbers zones → zoned st.1 → flat_row zones st r = Ok st' → zoned st'.1.
Proof.
  intros Hzones Hst. destruct st as [rates ppr]. unfold flat_row.
  destruct r as [|c0 [|c1 tail]]; [by intros [= <-] | by intros [= <-] |].
  repeat (case_match; [by intros [= <-]|]).
  case_match.
  { case_match; by intros [= <-]. }
  intros Hrun. apply bind_Ok_inv in Hrun as (w & _ & Hrun).
  destruct w as [weight|]; [|by injection Hrun as <-].
  destruct ((weight <? 1) || (99 <? weight)) eqn:Hrange;
    [by injection Hrun as <-|].
  destruct (parse_rates_line _); injection Hrun as <-; [done|].
  intros w entry. simpl. destruct (decide (weight = w)) as [<-|Hne].
  - rewrite lookup_insert_eq. intros [= <-]. apply assign_zones_keys; [done|].
    destruct (rates !! weight) as [known|] eqn:Hknown; simpl.
    + by eapply Hst.
    + intros z [v Hv]. by rewrite lookup_empty in Hv.
  - rewrite lookup_insert_ne by done. apply Hst.
Qed.

Lemma flat_scan_zoned (pdf : Pdf) (start_page end_page : Z) (st : flat_state) :
  flat_scan pdf start_page end_page = Ok st → zoned st.1.
Proof.
  unfold flat_scan. intros Hrun.
  apply bind_Ok_inv in Hrun as (pages & _ & Hrun).
  revert Hrun. apply (foldM_invariant (λ st : flat_state, zoned st.1)).
  - intros s page s' Hs. unfold flat_page.
    apply (foldM_invariant (λ st : flat_state, zoned st.1)); [|done].
    intros s1 raw s2 Hs1. unfold flat_table.
    destruct (normalize_table raw) as [|r table] eqn:Htable; [by intros [= <-]|].
    destruct (header_zones (r :: table)) as [zones|] eqn:Hzones;
      [|by intros [= <-]].
    apply (foldM_invariant (λ st : flat_state, zoned st.1)); [|done].
    intros s3 r0 s4 Hs3. apply flat_row_zoned; [|done].
    by eapply header_zones_range.
  - intros w entry Hw. simpl in Hw. by rewrite lookup_empty in Hw.
Qed.

(** A price of the flat table belongs to a weight from 1 to 150 and a zone
    from 1 to 16. *)
Lemma flat_price_bounds (pdf : Pdf) (start_page end_page : Z) (rates : RateTable)
    (w z : Z) (p : Decimal) :
  parse_non_freight_rates pdf start_page end_page = Ok rates →
  price_at rates w z = Some p →
  1 ≤ w ≤ 150 ∧ 1 ≤ z ≤ 16.
Proof.
  intros Hparse Hprice. pose proof Hparse as Hrun.
  unfold parse_non_freight_rates in Hrun.
  apply bind_Ok_inv in Hrun as (st & Hscan & _).
  pose proof (flat_scan_inv pdf _ _ st Hscan) as [Hweights _].
  pose proof (flat_scan_zoned pdf _ _ st Hscan) as Hzoned.
  destruct (parse_non_freight_rates_run pdf _ _ st rates Hscan Hparse w)
    as [Hin Hout].
  unfold price_at in Hprice.
  destruct (decide (100 ≤ w ≤ 150)) as [Hw|Hw].
  - split; [lia|]. destruct (Hin Hw) as (entry & Hentry & Hlook).
    rewrite Hlook in Hprice. simpl in Hprice.
    destruct (flat_zones_run st.2 w _ _ _ (range_NoDup 1 17) Hentry z) as [Hz Hnz].
    destruct (decide (z ∈ range 1 17)) as [Hzin|Hzout].
    + apply range_elem_of in Hzin. lia.
    + by rewrite (Hnz Hzout), lookup_empty in Hprice.
  - rewrite (Hout Hw) in Hprice.
    destruct (st.1 !! w) as [entry|] eqn:Hentry; [|done]. simpl in Hprice.
    split.
    + specialize (Hweights w ltac:(by eexists)). lia.
    + by eapply Hzoned; [|eexists].
Qed.
End flat_entries.

(** A weight of the table in the range of the sheet has its row. *)
Lemma listed_weight_row (service_name : pystr) (rates : RateTable)
    (is_freight : bool) (ws : Sheet) (w z : Z) (p : Decimal) :
  service_sheet service_name rates is_freight = Ok ws →
  w ∈ weight_range is_freight → 1 ≤ z ≤ 16 →
  price_at rates w z = Some p →
  ∃ r, 4 ≤ r ∧ ws !! (r, 1) = Some (XInt w) ∧ ws !! (r, z + 1) = Some (XFloat p).
Proof.
  intros Hsheet Hw Hz Hprice.
  destruct (service_sheet_run _ _ _ _ Hsheet) as (Hrows & _).
  assert (w ∈ listed_weights rates is_freight) as Hlisted.
  { unfold listed_weights. apply list_elem_of_In, filter_In.
    split; [by apply list_elem_of_In|]. apply bool_decide_eq_true.
    unfold price_at in Hprice. by destruct (rates !! w); [eexists|]. }
  apply list_elem_of_lookup in Hlisted as [k Hk].
  exists (4 + Z.of_nat k). split; [lia|]. split.
  - by rewrite (Hrows k w 1 Hk).
  - rewrite (Hrows k w (z + 1) Hk). unfold row_cell.
    rewrite (proj2 (Z.eqb_neq (z + 1) 1)) by lia.
    rewrite (proj2 (Z.leb_le 2 (z + 1))), (proj2 (Z.leb_le (z + 1) 17)) by lia.
    simpl. replace (z + 1 - 1) with z by lia. by rewrite Hprice.
Qed.

(** X21. No price is lost between a builder and its sheet: when the name
    of the service can be stored, every price of the table a builder
    returns is written, as a float, in the row of its weight and the column
    after its zone. *)
Theorem parsed_prices_are_written {cm : CaseMapping} (pdf : Pdf)
    (start_page end_page : Z) (is_freight : bool) (service_name : pystr)
    (rates : RateTable) (ws : Sheet) (w z : Z) (p : Decimal) :
  (if is_freight then parse_freight_rates pdf start_page end_page
   else parse_non_freight_rates pdf start_page end_page) = Ok rates →
  storable service_name = true →
  service_sheet service_name rates is_freight = Ok ws →
  price_at rates w z = Some p →
  ∃ r, 4 ≤ r ∧ ws !! (r, 1) = Some (XInt w) ∧ ws !! (r, z + 1) = Some (XFloat p).
Proof.
  intros Hparse _ Hsheet Hprice.
  assert (w ∈ weight_range is_freight ∧ 1 ≤ z ≤ 16) as [Hw Hz].
  { destruct is_freight.
    - pose proof Hparse as Hrun. unfold parse_freight_rates in Hrun.
      apply bind_Ok_inv in Hrun as (st & Hscan & _).
      destruct (freight_price_origin pdf _ _ st rates w z p Hscan Hparse Hprice)
        as (Hw & Hz & _).
      split; [|done]. apply range_elem_of. lia.
    - destruct (flat_price_bounds pdf _ _ rates w z p Hparse Hprice) as [Hw Hz].
      split; [|done]. apply range_elem_of. lia. }
  by eapply listed_weight_row.
Qed.

Lemma economy_sheet_run :
  service_sheet (py "FedEx Economy") economy_table false = Ok economy_sheet.
Proof. apply returns_value_or. vm_compute. reflexivity. Qed.

(** X21 on the sample page of the economy service: the price 60.00 of
    weight 120 in zone 3 is in column 4 of the row of 120. *)
Lemma parsed_prices_are_written_witness :
  parse_non_freight_rates (cm:=ascii_case) [economy_page] 0 0 = Ok economy_table
  ∧ service_sheet (py "FedEx Economy") economy_table false = Ok economy_sheet
  ∧ price_at economy_table 120 3 = Some (DFin false 6000 (-2))
  ∧ ∃ r, 4 ≤ r ∧ economy_sheet !! (r, 1) = Some (XInt 120)
         ∧ economy_sheet !! (r, 3 + 1) = Some (XFloat (DFin false 6000 (-2))).
Proof.
  split; [exact economy_table_run|]. split; [exact economy_sheet_run|].
  assert (price_at economy_table 120 3 = Some (DFin false 6000 (-2))) as Hprice
    by (vm_compute; reflexivity).
  split; [exact Hprice|].
  exact (parsed_prices_are_written (cm:=ascii_case) [economy_page] 0 0 false
           (py "FedEx Economy") economy_table economy_sheet 120 3
           (DFin false 6000 (-2)) economy_table_run eq_refl economy_sheet_run
           Hprice).
Defined.

(** ** The Excel writer: the sheet of the zones *)

Lemma put_cells_from (r : Z) (values : list xl_value) :
  ∀ (start : Z) (ws : Sheet) (r' c' : Z),
    fold_left (λ (ws : Sheet) '(c, v), put r c v ws)
              (zip (seqZ start (Z.of_nat (length values))) values) ws !! (r', c')
    = if bool_decide (r' = r ∧ start ≤ c' < start + Z.of_nat (length values))
      then values !! Z.to_nat (c' - start)
      else ws !! (r', c').
Proof.
  induction values as [|v values IH]; intros start ws r' c'.
  - simpl. rewrite bool_decide_false; [done|]. intros [_ ?]. lia.
  - cbn [length]. rewrite seqZ_cons by lia. cbn [zip zip_with fold_left].
    replace (Z.pred (Z.of_nat (S (length values)))) with (Z.of_nat (length values))
      by lia.
    rewrite IH, put_lookup.
    destruct (decide (r' = r ∧ c' = start)) as [[-> ->]|Hne].
    + rewrite bool_decide_false by (intros [_ ?]; lia).
      rewrite (bool_decide_true (r = r ∧ start = start)) by done.
      rewrite bool_decide_true by (split; [done | lia]).
      by rewrite Z.sub_diag.
    + rewrite (bool_decide_false (r' = r ∧ c' = start)) by done.
      case_bool_decide as Hrest.
      * rewrite bool_decide_true by (destruct Hrest; split; [done | lia]).
        destruct Hrest as [_ Hc].
        replace (Z.to_nat (c' - start)) with (S (Z.to_nat (c' - Z.succ start)))
          by lia.
        done.
      * rewrite bool_decide_false; [done|]. intros [Hr Hc]. apply Hrest.
        split; [done|]. assert (c' ≠ start) by (intros ->; by apply Hne). lia.
Qed.

Lemma put_cells_lookup (r : Z) (values : list xl_value) (ws : Sheet) (r' c' : Z) :
  put_cells r values ws !! (r', c')
  = if bool_decide (r' = r ∧ 1 ≤ c' ≤ Z.of_nat (length values))
    then values !! Z.to_nat (c' - 1)
    else ws !! (r', c').
Proof.
  unfold put_cells. rewrite put_cells_from.
  apply (f_equal (λ b : bool, if b then _ else _)).
  apply bool_decide_ext. lia.
Qed.

(** The rows of the data, one per row of the sheet from [start] on. *)
Lemma zone_rows_from (zones_data : list ZoneDatasetRow) :
  ∀ (start : Z) (ws : Sheet) (r' c' : Z),
    fold_left (λ (ws : Sheet) '(row_num, r), put_cells row_num (zone_cells r) ws)
              (zip (seqZ start (Z.of_nat (length zones_data))) zones_data) ws
      !! (r', c')
    = match zones_data !! Z.to_nat (r' - start) with
      | Some row =>
          if bool_decide (start ≤ r' ∧ 1 ≤ c' ≤ 6)
          then zone_cells row !! Z.to_nat (c' - 1)
          else ws !! (r', c')
      | None => ws !! (r', c')
      end.
Proof.
  induction zones_data as [|row zones_data IH]; intros start ws r' c'; [done|].
  cbn [length]. rewrite seqZ_cons by lia. cbn [zip zip_with fold_left].
  replace (Z.pred (Z.of_nat (S (length zones_data))))
    with (Z.of_nat (length zones_data)) by lia.
  rewrite IH, put_cells_lookup. change (Z.of_nat (length (zone_cells row))) with 6.
  destruct (Z_lt_le_dec start r') as [Hgt|Hle].
  - replace (Z.to_nat (r' - start)) with (S (Z.to_nat (r' - Z.succ start))) by lia.
    rewrite lookup_cons_ne_0 by lia. cbn [pred].
    rewrite (bool_decide_false (r' = start ∧ _)) by lia.
    destruct (zones_data !! Z.to_nat (r' - Z.succ start)); [|done].
    apply (f_equal (λ b : bool, if b then _ else _)).
    apply bool_decide_ext. lia.
  - replace (Z.to_nat (r' - start)) with 0%nat by lia.
    replace (Z.to_nat (r' - Z.succ start)) with 0%nat by lia.
    change ((row :: zones_data) !! 0%nat) with (Some row).
    assert ((if bool_decide (r' = start ∧ 1 ≤ c' ≤ 6)
             then zone_cells row !! Z.to_nat (c' - 1) else ws !! (r', c'))
            = (if bool_decide (start ≤ r' ∧ 1 ≤ c' ≤ 6)
               then zone_cells row !! Z.to_nat (c' - 1) else ws !! (r', c')))
      as Hsame.
    { apply (f_equal (λ b : bool, if b then _ else _)).
      apply bool_decide_ext. lia. }
    destruct (zones_data !! 0%nat); [|done].
    by rewrite bool_decide_false by lia.
Qed.

(** X22. In the sheet of the zones, when the strings of the rows can be
    stored, the rows of the data come one per row from row 4 on, in their
    order: country name, country symbol, zone, city, start and end of the
    postal range in the columns 1 to 6. Row 3 holds the six headers, cell
    A1 the title, and nothing is written below the rows of the data. *)
Theorem zones_sheet_rows (zones_data : list ZoneDatasetRow) :
  Forall (λ row, storable_row row = true) zones_data →
  (∀ k row c, zones_data !! k = Some row → 1 ≤ c ≤ 6 →
     zones_sheet zones_data !! (4 + Z.of_nat k, c)
     = zone_cells row !! Z.to_nat (c - 1))
  ∧ (∀ c, 1 ≤ c ≤ 6 →
       zones_sheet zones_data !! (3, c) = XStr <$> zone_headers !! Z.to_nat (c - 1))
  ∧ zones_sheet zones_data !! (1, 1) = Some (XStr (py "Destination Zones"))
  ∧ ∀ r c, 4 + Z.of_nat (length zones_data) ≤ r →
      zones_sheet zones_data !! (r, c) = None.
Proof.
  intros _. unfold zones_sheet. cbv zeta. split; [|split; [|split]].
  - intros k row c Hk Hc. rewrite zone_rows_from.
    replace (Z.to_nat (4 + Z.of_nat k - 4)) with k by lia. rewrite Hk.
    by rewrite bool_decide_true by lia.
  - intros c Hc. rewrite zone_rows_from.
    replace (Z.to_nat (3 - 4)) with 0%nat by lia.
    assert (put_cells 3 (map XStr zone_headers)
              (put 2 1 (XStr (py "Zones should be a number from 1 to 16"))
                 (put 1 1 (XStr (py "Destination Zones")) ∅)) !! (3, c)
            = XStr <$> zone_headers !! Z.to_nat (c - 1)) as Hheader.
    { rewrite put_cells_lookup, length_map.
      change (Z.of_nat (length zone_headers)) with 6.
      rewrite bool_decide_true by lia. apply list_lookup_fmap. }
    destruct (zones_data !! 0%nat); [|done].
    by rewrite bool_decide_false by lia.
  - rewrite zone_rows_from.
    assert (put_cells 3 (map XStr zone_headers)
              (put 2 1 (XStr (py "Zones should be a number from 1 to 16"))
                 (put 1 1 (XStr (py "Destination Zones")) ∅)) !! (1, 1)
            = Some (XStr (py "Destination Zones"))) as Htitle.
    { rewrite put_cells_lookup. rewrite bool_decide_false by (intros [? _]; lia).
      by rewrite !put_lookup. }
    destruct (zones_data !! _); [|done].
    by rewrite bool_decide_false by lia.
  - intros r c Hr. rewrite zone_rows_from.
    rewrite lookup_ge_None_2 by lia.
    rewrite put_cells_lookup. rewrite bool_decide_false by (intros [? _]; lia).
    rewrite !put_lookup.
    rewrite !bool_decide_false by (intros [? _]; lia).
    apply lookup_empty.
Qed.

(** X22 on the rows of one range: its start is in column 5 of row 4, and
    row 5 is empty. *)
Lemma zones_sheet_rows_witness :
  zones_sheet sample_zone_rows !! (4, 5) = Some (XStr (py "A1A"))
  ∧ zones_sheet sample_zone_rows !! (5, 1) = None.
Proof.
  destruct (zones_sheet_rows sample_zone_rows) as (Hrows & _ & _ & Hbelow).
  - repeat constructor.
  - split.
    + refine (Hrows 0%nat _ 5 eq_refl _). lia.
    + apply (Hbelow 5 1). simpl. lia.
Defined.

(** ** The command: when the sheet of the zones is written *)

Lemma mapM_Ok_inv {A B : Type} (f : A → Res B) (l : list A) (l' : list B) :
  mapM f l = Ok l' → Forall2 (λ a b, f a = Ok b) l l'.
Proof.
  revert l'. induction l as [|a l IH]; intros l'.
  - intros [= <-]. constructor.
  - simpl. intros Hrun. apply bind_Ok_inv in Hrun as (b & Hb & Hrun).
    apply bind_Ok_inv in Hrun as (bs & Hbs & [= <-]).
    constructor; [done | by apply IH].
Qed.

(** No sheet of a service has the title of the sheet of the zones. *)
Lemma catalog_titles :
  Forall (λ n, take 31 n ≠ py "Zones") (map sd_name SERVICE_DEFINITIONS).
Proof. repeat constructor; by vm_compute. Qed.

Lemma service_tab_Ok (service_name : pystr) (rates : RateTable) (is_freight : bool)
    (title : pystr) (ws : Sheet) :
  service_tab service_name rates is_freight = Ok (title, ws) →
  title = take 31 service_name
  ∧ service_sheet service_name rates is_freight = Ok ws.
Proof.
  unfold service_tab, create_sheet. destruct (existsb _ _); [done|].
  rewrite bind_Ok. intros Hrun.
  by apply bind_Ok_inv in Hrun as (ws' & Hws & [= <- <-]).
Qed.

(** The titles of the sheets of the services are the names, cut after 31
    characters. *)
Lemma tabs_titles (sd : list (pystr * RateTable * bool)) (tabs : Workbook) :
  mapM (λ '(service_name, rates, is_freight),
          service_tab service_name rates is_freight) sd = Ok tabs →
  titles tabs = map (take 31) (map (λ x, x.1.1) sd).
Proof.
  intros Htabs. apply mapM_Ok_inv in Htabs. unfold titles.
  induction Htabs as [|[[n rates] f] [title ws] sd' tabs' Htab Hrest IH]; [done|].
  apply service_tab_Ok in Htab as [-> _]. simpl. by rewrite IH.
Qed.

(** What the writer returns: the sheet of the zones, when there are rows,
    then the sheets of the services; and there is a sheet. *)
Lemma write_ca_excel_Ok (sd : list (pystr * RateTable * bool))
    (zd : option (list ZoneDatasetRow)) (wb : Workbook) :
  write_ca_excel sd zd = Ok wb →
  wb ≠ []
  ∧ ∃ tabs, mapM (λ '(service_name, rates, is_freight),
                    service_tab service_name rates is_freight) sd = Ok tabs
            ∧ wb = match zd with
                   | Some (r :: rows) => [(py "Zones", zones_sheet (r :: rows))]
                   | _ => []
                   end ++ tabs.
Proof.
  unfold write_ca_excel. cbv zeta. intros Hrun.
  apply bind_Ok_inv in Hrun as (tabs & Htabs & Hsave). unfold save in Hsave.
  destruct (_ ++ tabs) as [|tab wb'] eqn:Hwb; [done|].
  injection Hsave as <-. split; [done|]. by exists tabs.
Qed.

Section tabs.
Context {cm : CaseMapping}.

(** The names handed to the writer are names of the catalog, in its order,
    each at most once. *)
Lemma services_data_names (pdf : Pdf) (sd : list (pystr * RateTable * bool)) :
  mapM (parse_service pdf) (detect_service_pages pdf) = Ok sd →
  sublist (map (λ x, x.1.1) sd) (map sd_name SERVICE_DEFINITIONS).
Proof.
  intros Hsd. apply mapM_Ok_inv in Hsd.
  destruct (detect_fold_names pdf SERVICE_DEFINITIONS []) as (added & Hnames & Hsub).
  change (map name (detect_service_pages pdf) = added) in Hnames.
  assert (map (λ x, x.1.1) sd = map name (detect_service_pages pdf)) as ->;
    [|by rewrite Hnames].
  clear Hnames Hsub.
  induction Hsd as [|s [[n rates] f] services sd' Hs Hrest IH]; [done|].
  unfold parse_service in Hs. destruct (pages s) as [a b].
  apply bind_Ok_inv in Hs as (rates' & _ & [= <- <- <-]). simpl. by rewrite IH.
Qed.

Lemma service_tabs_titles (pdf : Pdf) (sd : list (pystr * RateTable * bool))
    (tabs : Workbook) :
  mapM (parse_service pdf) (detect_service_pages pdf) = Ok sd →
  mapM (λ '(service_name, rates, is_freight),
          service_tab service_name rates is_freight) sd = Ok tabs →
  py "Zones" ∉ titles tabs.
Proof.
  intros Hsd Htabs. rewrite (tabs_titles sd tabs Htabs).
  intros Hin. apply list_elem_of_fmap in Hin as (n & Hn & Hin).
  pose proof catalog_titles as Hcat. rewrite Forall_forall in Hcat.
  apply (Hcat n); [|done].
  eapply elem_of_sublist; [exact Hin|]. by apply (services_data_names pdf).
Qed.

(** The zone rows handed to the writer are not empty exactly when the
    origin falls in a range of the postal index. *)
Lemma zones_data_nonempty (origin : pystr) (postal_zone_map : PostalZoneMap)
    (zone_matrix : ZoneMatrix) :
  generate_zones_data origin postal_zone_map zone_matrix ≠ []
  ↔ is_Some (get_zone_code_for_postal origin postal_zone_map).
Proof.
  unfold generate_zones_data.
  destruct (get_zone_code_for_postal origin postal_zone_map) as [oz|] eqn:Hoz.
  - split; [by eexists|]. intros _ Hnil.
    apply (f_equal length) in Hnil. rewrite length_map in Hnil.
    rewrite (Permutation_length (sorted_perm postal_zone_map)) in Hnil.
    unfold get_zone_code_for_postal in Hoz.
    destruct postal_zone_map; [done | simpl in Hnil; lia].
  - split; [done | by intros [? ?]].
Qed.
End tabs.

Section resolved.
Context {cm : CaseMapping}.

Lemma handoff_zones_resolve (pdf : Pdf) (origin : option pystr) (h : Handoff) :
  ca_rates_handoff origin pdf = Ok h →
  (∃ r rows, zones_data h = Some (r :: rows)) ↔ origin_resolves pdf origin.
Proof.
  unfold ca_rates_handoff. intros Hrun.
  apply bind_Ok_inv in Hrun as ([zd ws] & Hzi & Hrun).
  apply bind_Ok_inv in Hrun as (sd & Hsd & [= <-]). cbn [zones_data fst].
  destruct origin as [[|c o]|].
  - injection Hzi as <- <-. split; [by intros (? & ? & ?)|].
    by intros (o & pzm & [= <-] & Ho & _).
  - apply bind_Ok_inv in Hzi as ([rows' ws'] & Hindex & [= <- <-]).
    unfold parse_zone_index in Hindex.
    destruct (find_zone_index_pages pdf) as [p m] eqn:Hpages.
    apply bind_Ok_inv in Hindex as (pzm & Hpzm & Hindex).
    apply bind_Ok_inv in Hindex as (zm & Hzm & [= <- <-]).
    assert (origin_resolves pdf (Some (c :: o))
            ↔ generate_zones_data (c :: o) pzm zm ≠ []) as ->.
    { rewrite zones_data_nonempty. unfold origin_resolves. rewrite Hpages.
      cbn [fst]. split.
      - intros (o' & pzm' & [= <-] & _ & Hpzm' & Hres). congruence.
      - intros Hres. exists (c :: o), pzm. by rewrite Hpzm. }
    destruct (generate_zones_data (c :: o) pzm zm) as [|r rows].
    + split; [by intros (? & ? & ?) | done].
    + split; [done | by eexists _, _].
  - injection Hzi as <- <-. split; [by intros (? & ? & ?)|].
    by intros (o & pzm & [=] & _).
Qed.
End resolved.

(** X23. When the command returns, its workbook saved, the sheet of the
    zones is there exactly when an origin was given and falls in a range
    of the postal index; it is then the first sheet. An origin that falls
    in no range leaves a workbook without that sheet: the command then
    returns only when a service was detected, a workbook without any sheet
    being refused when it is saved. The exit status of a command that
    returns after the writer is 0. *)
Theorem zones_tab_iff_origin_resolves {cm : CaseMapping} (pdf : Pdf)
    (origin : option pystr) (status : Z) (h : Handoff) (wb : Workbook) :
  cmd_parse_ca_rates true origin pdf = Ok (status, Some (h, wb)) →
  (py "Zones" ∈ titles wb ↔ origin_resolves pdf origin)
  ∧ (origin_resolves pdf origin → head (titles wb) = Some (py "Zones"))
  ∧ (¬ origin_resolves pdf origin → services_data h ≠ [])
  ∧ status = 0.
Proof.
  unfold cmd_parse_ca_rates. cbn [negb]. cbv iota.
  intros Hrun. apply bind_Ok_inv in Hrun as (h' & Hh & Hwrite).
  apply bind_Ok_inv in Hwrite as (wb' & Hwb & [= <- <- <-]).
  pose proof (handoff_zones_resolve pdf origin h' Hh) as Hres.
  apply write_ca_excel_Ok in Hwb as (Hsheet & tabs & Htabs & ->).
  assert (py "Zones" ∉ titles tabs) as Hnot.
  { unfold ca_rates_handoff in Hh.
    apply bind_Ok_inv in Hh as (zi & _ & Hh).
    apply bind_Ok_inv in Hh as (sd & Hsd & [= <-]).
    by eapply service_tabs_titles. }
  split; [|split; [|split; [|done]]].
  - rewrite <- Hres. destruct (zones_data h') as [[|r rows]|]; simpl.
    + split; [done | by intros (? & ? & ?)].
    + split; [by eexists _, _|]. intros _. unfold titles. simpl. left.
    + split; [done | by intros (? & ? & ?)].
  - rewrite <- Hres. intros (r & rows & ->). done.
  - rewrite <- Hres. intros Hno Hsd. rewrite Hsd in Htabs.
    injection Htabs as <-. rewrite app_nil_r in Hsheet.
    destruct (zones_data h') as [[|r rows]|]; [done| |done].
    apply Hno. by eexists _, _.
Qed.

(** X23 on the document with a postal index page, for the origin A1B,
    which lies in the range A1A to A9Z; and on a document of four pages
    with the sheet of the economy service and no postal index, where the
    origin falls in no range. *)
Lemma zones_tab_iff_origin_resolves_witness :
  (cmd_parse_ca_rates (cm:=ascii_case) true (Some (py "A1B")) [index_only_page]
   = Ok (outcome_for [index_only_page])
   ∧ (outcome_for [index_only_page]).1 = 0
   ∧ saved_titles (outcome_for [index_only_page]) = Some [py "Zones"]
   ∧ origin_resolves (cm:=ascii_case) [index_only_page] (Some (py "A1B")))
  ∧ (cmd_parse_ca_rates (cm:=ascii_case) true (Some (py "A1B")) economy_document
     = Ok (outcome_for economy_document)
     ∧ (outcome_for economy_document).1 = 0
     ∧ saved_titles (outcome_for economy_document) = Some [py "FedEx Economy"]
     ∧ ¬ origin_resolves (cm:=ascii_case) economy_document (Some (py "A1B"))).
Proof.
  split.
  - assert (cmd_parse_ca_rates (cm:=ascii_case) true (Some (py "A1B"))
              [index_only_page] = Ok (outcome_for [index_only_page])) as Hcmd
      by (apply returns_value_or; vm_compute; reflexivity).
    assert (saved_titles (outcome_for [index_only_page]) = Some [py "Zones"])
      as Htitles by (vm_compute; reflexivity).
    split; [exact Hcmd|]. split; [vm_compute; reflexivity|].
    split; [exact Htitles|].
    destruct (outcome_for [index_only_page]) as [status [[h wb]|]];
      [|discriminate Htitles].
    injection Htitles as Htitles.
    apply (proj1 (zones_tab_iff_origin_resolves (cm:=ascii_case)
                    [index_only_page] (Some (py "A1B")) status h wb Hcmd)).
    unfold titles. simpl in Htitles. rewrite Htitles. left.
  - assert (cmd_parse_ca_rates (cm:=ascii_case) true (Some (py "A1B"))
              economy_document = Ok (outcome_for economy_document)) as Hcmd
      by (apply returns_value_or; vm_compute; reflexivity).
    assert (saved_titles (outcome_for economy_document)
            = Some [py "FedEx Economy"])
      as Htitles by (vm_compute; reflexivity).
    split; [exact Hcmd|]. split; [vm_compute; reflexivity|].
    split; [exact Htitles|].
    destruct (outcome_for economy_document) as [status [[h wb]|]];
      [|discriminate Htitles].
    injection Htitles as Htitles. intros Hres.
    apply (proj1 (zones_tab_iff_origin_resolves (cm:=ascii_case)
                    economy_document (Some (py "A1B")) status h wb Hcmd)) in Hres.
    unfold titles in Hres. simpl in Htitles. rewrite Htitles in Hres.
    apply list_elem_of_singleton in Hres. done.
Defined.

(** ** The command: what the writer is given can be written *)

Lemma digit_from_zero (c : N) : isdigit c = true → (48 ≤ c)%N.
Proof.
  unfold isdigit, digit_value.
  destruct (List.find _ digit_runs) as [st|] eqn:Hfind; [|done].
  intros _. apply find_some in Hfind as [Hin Hrange].
  assert (Forall (λ st, (48 ≤ st)%N) digit_runs) as Hruns.
  { apply (bool_decide_unpack _). vm_compute. reflexivity. }
  rewrite Forall_forall in Hruns. apply list_elem_of_In in Hin.
  specialize (Hruns st Hin). unfold in_range in Hrange.
  apply andb_true_iff in Hrange as [Hlo _]. apply N.leb_le in Hlo. lia.
Qed.

Lemma legal_from_space (c : N) : (32 ≤ c)%N → illegal_character c = false.
Proof.
  intros Hc. unfold illegal_character, in_range.
  rewrite (proj2 (N.leb_gt c 8)), (proj2 (N.leb_gt c 12)), (proj2 (N.leb_gt c 31))
    by lia.
  by rewrite !andb_false_r.
Qed.

Lemma postal_storable (s : pystr) : is_postal s = true → storable s = true.
Proof.
  unfold is_postal, postal3. destruct s as [|a [|b [|c s']]]; try done.
  destruct (isupper_ascii a && isdigit b && isupper_ascii c) eqn:Htest; [|done].
  destruct s' as [|d s']; [|done]. intros _.
  apply andb_true_iff in Htest as [Htest Hc].
  apply andb_true_iff in Htest as [Ha Hb].
  apply digit_from_zero in Hb. unfold isupper_ascii, in_range in Ha, Hc.
  apply andb_true_iff in Ha as [Ha _]. apply N.leb_le in Ha.
  apply andb_true_iff in Hc as [Hc _]. apply N.leb_le in Hc.
  unfold storable. cbn [forallb length].
  by rewrite !legal_from_space by lia.
Qed.

Lemma zone_row_storable (origin_zone : pystr) (zone_matrix : ZoneMatrix) (it : item) :
  well_formed_entry it → storable_row (zone_row origin_zone zone_matrix it) = true.
Proof.
  destruct it as [[s e] z]. intros (Hs & He & _). simpl in Hs, He.
  unfold storable_row, zone_row.
  cbn [country_name country_symbol city start_postal end_postal].
  rewrite (postal_storable s Hs), (postal_storable e He). reflexivity.
Qed.

Lemma catalog_names_writable :
  Forall (λ n, storable n = true ∧ valid_title (take 31 n) = true)
         (map sd_name SERVICE_DEFINITIONS)
  ∧ NoDup (py "Zones" :: map (take 31) (map sd_name SERVICE_DEFINITIONS)).
Proof.
  split.
  - repeat (constructor; [split; vm_compute; reflexivity|]). constructor.
  - apply (bool_decide_unpack _). vm_compute. reflexivity.
Qed.

Section writable.
Context {cm : CaseMapping}.

Lemma zones_data_storable (pdf : Pdf) (origin : pystr)
    (rows : list ZoneDatasetRow) (ws : list warning) :
  parse_zone_index pdf origin = Ok (rows, ws) →
  Forall (λ row, storable_row row = true) rows.
Proof.
  unfold parse_zone_index. destruct (find_zone_index_pages pdf) as [p m].
  intros Hindex. apply bind_Ok_inv in Hindex as (pzm & Hpzm & Hindex).
  apply bind_Ok_inv in Hindex as (zm & _ & [= <- <-]).
  assert (Forall well_formed_entry pzm) as Hwf.
  { unfold parse_postal_code_to_zone_mapping in Hpzm. destruct p as [i|].
    - apply bind_Ok_inv in Hpzm as (page & _ & [= <-]).
      apply parse_postal_text_inv.
    - injection Hpzm as <-. constructor. }
  unfold generate_zones_data.
  destruct (get_zone_code_for_postal origin pzm) as [oz|]; [|constructor].
  apply Forall_fmap. rewrite (sorted_perm pzm).
  eapply Forall_impl; [exact Hwf|]. intros it Hit. by apply zone_row_storable.
Qed.
End writable.

(** X24. What the command hands to its writer can be written as it is:
    the names of the services and the strings of the rows of the zones are
    strings a cell stores as they are given, and the titles asked for the
    sheets are valid and differ from one another and from the title of the
    sheet of the zones, so that the writer neither raises on a string or a
    title nor has a sheet renamed. *)
Theorem handoff_is_writable {cm : CaseMapping} (pdf : Pdf)
    (origin : option pystr) (h : Handoff) :
  ca_rates_handoff origin pdf = Ok h →
  Forall (λ sd, storable sd.1.1 = true) (services_data h)
  ∧ (∀ rows, zones_data h = Some rows →
       Forall (λ row, storable_row row = true) rows)
  ∧ Forall (λ sd, valid_title (take 31 sd.1.1) = true) (services_data h)
  ∧ NoDup (py "Zones" :: map (λ sd, take 31 sd.1.1) (services_data h))
  ∧ ∀ wb, write_ca_excel (services_data h) (zones_data h) = Ok wb →
      Forall (λ title, valid_title title = true) (titles wb) ∧ NoDup (titles wb).
Proof.
  unfold ca_rates_handoff.
  intros Hrun. apply bind_Ok_inv in Hrun as ([zd ws] & Hzi & Hrun).
  apply bind_Ok_inv in Hrun as (sd & Hsd & [= <-]).
  cbn [services_data zones_data fst].
  pose proof (services_data_names pdf sd Hsd) as Hsub.
  destruct catalog_names_writable as [Hcat Hdup].
  rewrite Forall_forall in Hcat.
  assert (sublist (map (take 31) (map (λ x, x.1.1) sd))
                  (map (take 31) (map sd_name SERVICE_DEFINITIONS))) as Hsub'
    by (by apply fmap_sublist).
  assert (Forall (λ title, valid_title title = true)
                 (map (take 31) (map (λ x, x.1.1) sd))) as Hvalid.
  { apply Forall_forall. intros t Ht.
    apply list_elem_of_fmap in Ht as (n & -> & Hn). apply Hcat.
    by eapply elem_of_sublist. }
  assert (NoDup (py "Zones" :: map (take 31) (map (λ x, x.1.1) sd))) as Hdup'.
  { eapply sublist_NoDup; [exact Hdup|]. by apply sublist_skip. }
  split; [|split; [|split; [|split]]].
  - apply Forall_forall. intros x Hx. apply Hcat.
    eapply elem_of_sublist; [|exact Hsub]. by apply (list_elem_of_fmap_2 (λ x, x.1.1)).
  - intros rows ->. destruct origin as [[|c o]|]; [done| |done].
    apply bind_Ok_inv in Hzi as ([rows' ws'] & Hindex & [= <- <-]).
    by eapply zones_data_storable.
  - apply Forall_forall. intros x Hx. apply Hcat.
    eapply elem_of_sublist; [|exact Hsub]. by apply (list_elem_of_fmap_2 (λ x, x.1.1)).
  - by rewrite map_map in Hdup'.
  - intros wb Hwb. apply write_ca_excel_Ok in Hwb as (_ & tabs & Htabs & ->).
    apply tabs_titles in Htabs. unfold titles in *. rewrite map_app, Htabs.
    destruct zd as [[|r rows]|]; simpl.
    + split; [done|]. by apply NoDup_cons in Hdup' as [_ ?].
    + split; [by constructor | done].
    + split; [done|]. by apply NoDup_cons in Hdup' as [_ ?].
Qed.

(** X24 on the document with a postal index page, for the origin A1B: the
    rows of the zones handed to the writer can be stored. *)
Lemma handoff_is_writable_witness :
  ∃ h, ca_rates_handoff (cm:=ascii_case) (Some (py "A1B")) [index_only_page] = Ok h
       ∧ ∃ rows, zones_data h = Some rows ∧ rows ≠ []
                 ∧ Forall (λ row, storable_row row = true) rows.
Proof.
  eexists. split; [vm_compute; reflexivity|].
  match goal with
  | |- ∃ rows, zones_data ?h = _ ∧ _ =>
      destruct (handoff_is_writable (cm:=ascii_case) [index_only_page]
                  (Some (py "A1B")) h) as (_ & Hrows & _);
        [vm_compute; reflexivity|]
  end.
  eexists. split; [reflexivity|]. split; [done|]. by apply Hrows.
Defined.

(** ** The command: when it raises *)




Section raises.
Context {cm : CaseMapping}.

End raises.


